(** * Quantity take-off (ifc5d/qto.py) and alignment evaluation
      (ifcopenshell/alignment.py): a shallow embedding and its properties.

    The Python code is embedded function by function.  Dictionaries whose
    iteration order is observable (the JSON rule tables) are association
    lists; the other dictionaries and the sets are stdpp's [gmap] and [gset].
    Python exceptions are an error type, and every function that receives the
    IFC file runs in a state-and-error monad over that file, so that reading
    and writing the file are told apart by proof and not by typing.

    Everything that qto.py and alignment.py call but do not define (the IFC
    schema engine, the geometry kernel, the unit tables, Blender, the
    filesystem and the JSON parser) is a field of an interface class. *)

From Stdlib Require Import PrimFloat Ascii.
From stdpp Require Import gmap strings list fin_maps pretty.

Set Default Proof Using "Type".
Set Warnings "-clear-no-such-hyp".

(** ** Python values used by both modules *)

Module Py.

(** The exceptions the embedded code can raise. *)
Inductive exception : Type :=
| KeyError (key : string)
| AttributeError (name : string)
| AssertionError
| RuntimeError
| NotImplementedError
| ValueError
| TypeError
| FileNotFoundError (path : string)
| JSONDecodeError
| LoopBudget.

Inductive result (A : Type) : Type :=
| Ok (a : A)
| Raise (e : exception).
Arguments Ok {A} a.
Arguments Raise {A} e.

Definition is_ok {A} (r : result A) : bool :=
  match r with Ok _ => true | Raise _ => false end.

(** [s.startswith(p)] *)
Definition startswith (s p : string) : bool := String.prefix p s.

(** [s.endswith(p)] *)
Definition endswith (s p : string) : bool :=
  let n := String.length s in
  let k := String.length p in
  (k <=? n) && String.eqb (String.substring (n - k) k s) p.

(** [s.partition(sep)[2]] for a one-character separator: what follows the
    first occurrence of [sep], the empty string when there is none. *)
Fixpoint partition_tail (sep : Ascii.ascii) (s : string) : string :=
  match s with
  | EmptyString => EmptyString
  | String c rest => if Ascii.eqb c sep then rest else partition_tail sep rest
  end.

(** [c.upper()] on one ASCII character. *)
Definition upper_ascii (c : Ascii.ascii) : Ascii.ascii :=
  let n := Ascii.nat_of_ascii c in
  if (97 <=? n) && (n <=? 122) then Ascii.ascii_of_nat (n - 32) else c.

(** [s.upper()] *)
Fixpoint upper (s : string) : string :=
  match s with
  | EmptyString => EmptyString
  | String c rest => String (upper_ascii c) (upper rest)
  end.

(** [max(xs)] on a non-empty list of floats: the first maximal item. *)
Definition max_float (x : float) (xs : list float) : float :=
  foldl (λ best y, if PrimFloat.ltb best y then y else best) x xs.

(** [os.path.join(a, b)] on POSIX paths. *)
Definition path_join (a b : string) : string :=
  if startswith b "/" then b
  else if String.eqb a "" || endswith a "/" then a +:+ b
  else a +:+ "/" +:+ b.

End Py.
Export Py.

(** ** The state-and-error monad *)

Section Monad.
Context {S : Type}.

Definition M (A : Type) : Type := S → result (A * S).

Definition ret {A} (a : A) : M A := λ s, Ok (a, s).

Definition bind {A B} (m : M A) (k : A → M B) : M B :=
  λ s, match m s with
       | Ok (a, s') => k a s'
       | Raise e => Raise e
       end.

Definition raise {A} (e : exception) : M A := λ _, Raise e.

(** An operation that only looks at the state. *)
Definition read {A} (g : S → A) : M A := λ s, Ok (g s, s).

(** An operation that replaces the state. *)
Definition write {A} (g : S → A * S) : M A := λ s, Ok (g s).

(** [d[k]] semantics for a lookup that may fail. *)
Definition from_option {A} (e : exception) (o : option A) : M A :=
  match o with Some a => ret a | None => raise e end.

End Monad.
Arguments M S A : clear implicits.

#[global] Instance M_ret {S} : MRet (M S) := @ret S.
#[global] Instance M_bind {S} : MBind (M S) := λ A B k m, bind m k.

(** [for b in l: a = f(a, b)] *)
Fixpoint foldM {S A B} (f : A → B → M S A) (a : A) (l : list B) : M S A :=
  match l with
  | [] => mret a
  | b :: l' => a' ← f a b; foldM f a' l'
  end.

(** [returns m s Q]: whenever [m], started in state [s], returns a value, it
    returns in the same state [s] and the value satisfies [Q]. *)
Definition returns {S A} (m : M S A) (s : S) (Q : A → Prop) : Prop :=
  ∀ a s', m s = Ok (a, s') → s' = s ∧ Q a.

Definition lift {S A} (r : result A) : M S A :=
  match r with Ok a => mret a | Raise e => raise e end.

(** Whatever the state, [m] raises no exception outside [E]. *)
Definition raises_only {S A} (E : exception → Prop) (m : M S A) : Prop :=
  ∀ s e, m s = Raise e → E e.

(** The exceptions met in the calculators: a key that a table lacks, a
    function that a module lacks, a failed assertion, the RuntimeError of
    [by_id], the ValueError of the geometry iterator and the TypeError of a
    call with the wrong number of arguments. *)
Definition calculator_error (e : exception) : Prop :=
  match e with
  | KeyError _ | AttributeError _ | AssertionError | RuntimeError
  | ValueError | TypeError => True
  | _ => False
  end.

(** ** The toolkit behind the two modules

    An IFC entity instance is identified by its STEP id.  [settings] are the
    options set on an [ifcopenshell.geom.settings] object; an option that was
    never set has its default. *)

Abbreviation entity_instance := positive (only parsing).
Abbreviation settings := (gmap string bool) (only parsing).

(** The two ways qto.py names a representation context. *)
Inductive context_arg : Type :=
| ByContext (context : entity_instance)
| ByIdentifier (context subcontext target_view : string).

Class Toolkit : Type := {
  file : Type;
  geometry : Type;
  blender_object : Type;
  (* ifcopenshell.file and ifcopenshell.entity_instance *)
  schema : file → string;
  by_id : file → positive → option entity_instance;
  is_a : file → entity_instance → string;
  is_a_kind : file → entity_instance → string → bool;
  rep_items : file → entity_instance → list entity_instance;
  swept_area : file → entity_instance → entity_instance;
  x_dim : file → entity_instance → float;
  y_dim : file → entity_instance → float;
  depth : file → entity_instance → float;
  (* ifcopenshell.util.type, .unit, .representation, .element *)
  get_applicable_types : string → string → list string;
  calculate_unit_scale : file → float;
  get_project_unit : file → string → option entity_instance;
  unit_prefix : file → entity_instance → option (option string);
  unit_name : file → entity_instance → string;
  unit_convert : float → option string → string → option string → string → float;
  get_context : file → string → string → string → option entity_instance;
  get_representation : file → entity_instance → context_arg → option entity_instance;
  get_pset : file → entity_instance → string → option positive;
  (* ifcopenshell.api.pset *)
  add_qto : file → entity_instance → string → entity_instance * file;
  edit_qto : file → entity_instance → gmap string (option float) → file;
  (* ifcopenshell.geom and ifcopenshell.util.shape; an attribute of
     util.shape called with one geometry returns a value, or raises
     TypeError (None) when it does not take one geometry *)
  create_shape : settings → file → entity_instance → geometry;
  geom_shapes : settings → file → nat → list entity_instance → list (positive * geometry);
  shape_function : string → option (geometry → option float);
  (* multiprocessing *)
  cpu_count : nat;
  (* bonsai.tool and bonsai.bim.module.qto.calculator *)
  get_object : entity_instance → option blender_object;
  object_type : blender_object → string;
  calculator_function : string → option (blender_object → option float);
}.

(** ** ifc5d/qto.py *)

Module Qto.

Record Function : Type := mkFunction {
  measure : string;
  name : string;
  description : string;
}.

(** [RULE_SET] *)
Definition RULE_SET : list string :=
  ["IFC4QtoBaseQuantities"; "IFC4QtoBaseQuantitiesBlender"].

(** [dict[str, Union[str, None]]]: quantity name to formula name. *)
Abbreviation Formulas := (list (string * option string)) (only parsing).
(** [dict[str, dict[str, Union[str, None]]]]: quantity set name to formulas. *)
Abbreviation Qtos := (list (string * list (string * option string))) (only parsing).
(** IFC class to quantity sets. *)
Abbreviation Queries :=
  (list (string * list (string * list (string * option string)))) (only parsing).

(** A rule set as [json.load] returns it; only its "calculators" member is
    used by [quantify]. *)
Record Rules : Type := mkRules {
  rules_calculators : list (string * Queries);
}.

Abbreviation ResultsDict :=
  (gmap positive (gmap string (gmap string (option float)))) (only parsing).
Abbreviation QtosFormulas := (gmap string (gmap string string)) (only parsing).

(** [d.setdefault(k, {})[k2] = v] *)
Definition setdefault_set {V} (k k2 : string) (v : V)
    (d : gmap string (gmap string V)) : gmap string (gmap string V) :=
  <[k := <[k2 := v]> (d !!! k)]> d.

(** [results.setdefault(element, {})] *)
Definition setdefault_element (element : entity_instance) (results : ResultsDict)
    : ResultsDict :=
  match results !! element with
  | Some _ => results
  | None => <[element := ∅]> results
  end.

(** [results[element].setdefault(name, {})] *)
Definition setdefault_name (element : entity_instance) (name : string)
    (results : ResultsDict) : ResultsDict :=
  let qtos := results !!! element in
  match qtos !! name with
  | Some _ => results
  | None => <[element := <[name := ∅]> qtos]> results
  end.

(** [results[element][name][quantity] = value] *)
Definition set_quantity (element : entity_instance) (name quantity : string)
    (value : option float) (results : ResultsDict) : ResultsDict :=
  let qtos := results !!! element in
  <[element := <[name := <[quantity := value]> (qtos !!! name)]> qtos]> results.

(** [results[element][name][quantity]], when all three keys are present. *)
Definition get_quantity (element : entity_instance) (name quantity : string)
    (results : ResultsDict) : option (option float) :=
  qtos ← results !! element; quantities ← qtos !! name; quantities !! quantity.

Section WithToolkit.
Context `{Toolkit}.

(** *** class SI2ProjectUnitConverter *)

Record SI2ProjectUnitConverter : Type := mkConverter {
  project_units : gmap string (option (option string * string));
  si_names : gmap string string;
}.

Definition unit_types : list (string * string) :=
  [ ("IfcAreaMeasure", "AREAUNIT");
    ("IfcLengthMeasure", "LENGTHUNIT");
    ("IfcMassMeasure", "MASSUNIT");
    ("IfcTimeMeasure", "TIMEUNIT");
    ("IfcVolumeMeasure", "VOLUMEUNIT") ].

(** [(getattr(value, "Prefix", "None"), value.Name)] *)
Definition prefix_and_name (f : file) (value : entity_instance)
    : option string * string :=
  (match unit_prefix f value with
   | Some prefix => prefix
   | None => Some "None"
   end, unit_name f value).

(** [SI2ProjectUnitConverter.__init__] *)
Definition SI2ProjectUnitConverter_init : M file SI2ProjectUnitConverter :=
  units ← read (λ f, list_to_map (M := gmap string (option entity_instance))
                       (prod_map id (get_project_unit f) <$> unit_types));
  units ← read (λ f, fmap (M := gmap string) (fmap (prefix_and_name f)) units);
  mret {| project_units := units;
          si_names := list_to_map
            [ ("IfcAreaMeasure", "SQUARE_METRE");
              ("IfcLengthMeasure", "METRE");
              ("IfcMassMeasure", "GRAM");
              ("IfcTimeMeasure", "SECOND");
              ("IfcVolumeMeasure", "CUBIC_METRE") ] |}.

(** [SI2ProjectUnitConverter.convert] *)
Definition convert (self : SI2ProjectUnitConverter) (value : float)
    (measure : string) : result float :=
  match default None (project_units self !! measure) with
  | Some (prefix, unit) =>
      match si_names self !! measure with
      | Some si => Ok (unit_convert value None si prefix unit)
      | None => Raise (KeyError measure)
      end
  | None => Ok value
  end.

(** *** class IteratorForTypes *)

Record IteratorForTypes : Type := mkIteratorForTypes {
  ift_settings : settings;
  ift_elements : list entity_instance;
  ift_element : option entity_instance;
  ift_shape : option geometry;
  ift_context : entity_instance;
}.

(** [IteratorForTypes.__init__] *)
Definition IteratorForTypes_init (settings_ : settings)
    (els : list entity_instance) : M file IteratorForTypes :=
  model ← read (λ f, get_context f "Model" "Body" "MODEL_VIEW");
  model ← from_option AssertionError model;
  mret {| ift_settings := settings_; ift_elements := els;
          ift_element := None; ift_shape := None; ift_context := model |}.

(** [IteratorForTypes.get_element_and_geometry] *)
Definition get_element_and_geometry (self : IteratorForTypes)
    : M file (entity_instance * geometry) :=
  match ift_element self, ift_shape self with
  | Some element, Some shape => mret (element, shape)
  | _, _ => raise AssertionError
  end.

(** [IteratorForTypes.process_shape] *)
Definition process_shape (self : IteratorForTypes) (element : entity_instance)
    : M file (bool * IteratorForTypes) :=
  representation ←
    read (λ f, get_representation f element (ByContext (ift_context self)));
  match representation with
  | None => mret (false, self)
  | Some representation =>
      shape ← read (λ f, create_shape (ift_settings self) f representation);
      mret (true, {| ift_settings := ift_settings self;
                     ift_elements := ift_elements self;
                     ift_element := Some element;
                     ift_shape := Some shape;
                     ift_context := ift_context self |})
  end.

Definition with_elements (self : IteratorForTypes)
    (els : list entity_instance) : IteratorForTypes :=
  {| ift_settings := ift_settings self; ift_elements := els;
     ift_element := ift_element self; ift_shape := ift_shape self;
     ift_context := ift_context self |}.

(** The [while self.elements] loop of [next].  [self.elements.pop()]
    takes the last item, so the loop walks the list from its end:
    [stack] is [self.elements] reversed. *)
Fixpoint next_from (stack : list entity_instance) (self : IteratorForTypes)
    : M file (bool * IteratorForTypes) :=
  match stack with
  | [] => mret (false, with_elements self [])
  | element :: below =>
      '(found, self) ← process_shape (with_elements self (reverse below)) element;
      if (found : bool) then mret (true, self) else next_from below self
  end.

(** [IteratorForTypes.next] *)
Definition IteratorForTypes_next (self : IteratorForTypes)
    : M file (bool * IteratorForTypes) :=
  match ift_elements self with
  | [] => mret (false, self)
  | _ => next_from (reverse (ift_elements self)) self
  end.

(** [IteratorForTypes.initialize] *)
Definition IteratorForTypes_initialize (self : IteratorForTypes)
    : M file (bool * IteratorForTypes) :=
  IteratorForTypes_next self.

(** *** ifcopenshell.geom.iterator

    The geometry kernel's iterator is not part of qto.py.  It is
    constructed from the settings, the file, a number of worker threads
    and an include list of entity instances, and it supports products
    only: the constructor raises ValueError unless every included instance
    is an IfcProduct.  What it then yields is the toolkit's [geom_shapes],
    consumed one shape at a time by [initialize], [get] and [next]. *)

Record geom_iterator : Type := mkGeomIterator {
  gi_settings : settings;
  gi_num_threads : nat;
  gi_include : list entity_instance;
  gi_pending : list (positive * geometry);
}.

Definition geom_iterator_init (settings_ : settings) (num_threads : nat)
    (include : list entity_instance) : M file geom_iterator :=
  products ← read (λ f, forallb (λ inst, is_a_kind f inst "IfcProduct") include);
  if (products : bool) then
    pending ← read (λ f, geom_shapes settings_ f num_threads include);
    mret {| gi_settings := settings_; gi_num_threads := num_threads;
            gi_include := include; gi_pending := pending |}
  else raise ValueError.

Definition geom_iterator_initialize (self : geom_iterator) : bool :=
  bool_decide (gi_pending self ≠ []).

Definition geom_iterator_get (self : geom_iterator)
    : M file (positive * geometry) :=
  from_option RuntimeError (head (gi_pending self)).

Definition geom_iterator_next (self : geom_iterator) : bool * geom_iterator :=
  let rest := tail (gi_pending self) in
  (bool_decide (rest ≠ []),
   {| gi_settings := gi_settings self; gi_num_threads := gi_num_threads self;
      gi_include := gi_include self; gi_pending := rest |}).

(** [Union[ifcopenshell.geom.iterator, IteratorForTypes]] *)
Inductive iterator : Type :=
| Geom (it : geom_iterator)
| ForTypes (it : IteratorForTypes).

Definition initialize (it : iterator) : M file (bool * iterator) :=
  match it with
  | Geom g => mret (geom_iterator_initialize g, Geom g)
  | ForTypes t => '(b, t) ← IteratorForTypes_initialize t; mret (b, ForTypes t)
  end.

Definition next (it : iterator) : M file (bool * iterator) :=
  match it with
  | Geom g => let '(b, g) := geom_iterator_next g in mret (b, Geom g)
  | ForTypes t => '(b, t) ← IteratorForTypes_next t; mret (b, ForTypes t)
  end.

Definition iterator_settings (it : iterator) : settings :=
  match it with
  | Geom g => gi_settings g
  | ForTypes t => ift_settings t
  end.

(** An upper bound on the shapes an iterator can still yield. *)
Definition remaining (it : iterator) : nat :=
  match it with
  | Geom g => length (gi_pending g)
  | ForTypes t => S (length (ift_elements t))
  end.

(** *** class IfcOpenShell *)

(** [IfcOpenShell.raw_functions], in the order of the source. *)
Definition raw_function_items : list (string * Function) :=
  [ ("get_x", mkFunction "IfcLengthMeasure" "X"
       "Calculates the length along the local X axis");
    ("get_y", mkFunction "IfcLengthMeasure" "Y"
       "Calculates the length along the local Y axis");
    ("get_z", mkFunction "IfcLengthMeasure" "Z"
       "Calculates the length along the local Z axis");
    ("get_max_xy", mkFunction "IfcLengthMeasure" "Max XY"
       "The maximum X or Y local dimension");
    ("get_max_xyz", mkFunction "IfcLengthMeasure" "Max XYZ"
       "The maximum X, Y, or Z local dimension");
    ("get_min_xyz", mkFunction "IfcLengthMeasure" "Min XYZ"
       "The minimum X, Y, or Z local dimension");
    ("get_top_elevation", mkFunction "IfcLengthMeasure" "Top elevation"
       "The local maximum Z ordinate");
    ("get_bottom_elevation", mkFunction "IfcLengthMeasure" "Bottom Elevation"
       "The local minimum Z ordinate");
    ("get_footprint_perimeter", mkFunction "IfcLengthMeasure" "Footprint Perimeter"
       "The perimeter if the object's faces were projected along the Z-axis and seen top down");
    ("get_segment_length", mkFunction "IfcLengthMeasure" "Segment Length"
       "Intelligently guesses the length of flow segments");
    ("get_area", mkFunction "IfcAreaMeasure" "Area"
       "The total surface area of the element");
    ("get_footprint_area", mkFunction "IfcAreaMeasure" "Footprint Area"
       "The area if the object's faces were projected along the Z-axis and seen top down");
    ("get_max_side_area", mkFunction "IfcAreaMeasure" "Max Side Area"
       "The maximum side area when seen from either X, Y, or Z directions");
    ("get_outer_surface_area", mkFunction "IfcAreaMeasure" "Outer Surface Area"
       "The total surface area except for the top or bottom, such as the ends of columns or beams");
    ("get_side_area", mkFunction "IfcAreaMeasure" "Side area"
       "The side (non-projected) are of the shape as seen from the local Y-axis");
    ("get_top_area", mkFunction "IfcAreaMeasure" "Top area"
       "The total surface area deviating by no more than 45 degrees from the local Z+ axis.");
    ("get_volume", mkFunction "IfcVolumeMeasure" "Volume"
       "Calculates the volume of a manifold shape") ].

Definition raw_functions : gmap string Function := list_to_map raw_function_items.

(** [IfcOpenShell.functions]: every raw function once as gross and once
    as net. *)
Definition IfcOpenShell_functions : gmap string Function :=
  foldl (λ functions '(k, v),
           <["net_" +:+ k := mkFunction (measure v) ("Net " +:+ name v) (description v)]>
             (<["gross_" +:+ k :=
                  mkFunction (measure v) ("Gross " +:+ name v) (description v)]>
                functions))
        ∅ raw_function_items.

(** The class attributes that [calculate] assigns. *)
Record IfcOpenShell_cls : Type := mkCls {
  gross_settings : settings;
  net_settings : settings;
  unit_scale : float;
  unit_converter : SI2ProjectUnitConverter;
}.

(** [IfcOpenShell.get_segment_length].  Python's [None] is [None]. *)
Definition get_segment_length (element : entity_instance) : M file (option float) :=
  rep ← read (λ f, get_representation f element
                     (ByIdentifier "Model" "Body" "MODEL_VIEW"));
  match rep with
  | None => mret None
  | Some rep =>
      items ← read (λ f, rep_items f rep);
      match items with
      | [item] =>
          extruded ← read (λ f, is_a_kind f item "IfcExtrudedAreaSolid");
          if (extruded : bool) then
            area ← read (λ f, swept_area f item);
            rectangle ← read (λ f, is_a_kind f area "IfcRectangleProfileDef");
            if (rectangle : bool) then
              x ← read (λ f, x_dim f area);
              y ← read (λ f, y_dim f area);
              z ← read (λ f, depth f item);
              mret (Some (max_float x [y; z]))
            else
              circle ← read (λ f, is_a_kind f area "IfcCircleProfileDef");
              if (circle : bool) then
                z ← read (λ f, depth f item); mret (Some z)
              else
                parameterized ←
                  read (λ f, is_a_kind f area "IfcParameterizedProfileDef");
                if (parameterized : bool) then
                  z ← read (λ f, depth f item); mret (Some z)
                else
                  (* [create_shape(settings, ...)] names a global that the
                     module never binds: the NameError is swallowed by the
                     bare [except], which returns None. *)
                  mret None
          else mret None
      | _ => mret None
      end
  end.

(** [IfcOpenShell.create_iterators] *)
Definition create_iterators (settings_ : settings) (els : list entity_instance)
    : M file (list iterator) :=
  elements_sorted ←
    foldM (λ (sorted : gmap bool (list entity_instance)) element,
             k ← read (λ f, is_a_kind f element "IfcTypeProduct");
             mret (<[k := (sorted !!! k) ++ [element]]> sorted))
          ∅ els;
  iterators ←
    match elements_sorted !! true with
    | Some types =>
        it ← IteratorForTypes_init settings_ types; mret [ForTypes it]
    | None => mret []
    end;
  match elements_sorted !! false with
  | Some _ =>
      it ← geom_iterator_init settings_ cpu_count els;
      mret (iterators ++ [Geom it])
  | None => mret iterators
  end.

(** The three dictionaries filled by the first loop of [calculate]. *)
Record formula_tables : Type := mkTables {
  gross_qtos : QtosFormulas;
  net_qtos : QtosFormulas;
  formula_functions : gmap string (geometry → option float);
}.

(** The body of the inner loop at lines 240 to 249. *)
Definition classify_formula (name quantity : string) (formula : option string)
    (t : formula_tables) : M file formula_tables :=
  match formula with
  | None => mret t
  | Some formula =>
      if bool_decide (formula = "") then mret t else
      let gross := startswith formula "gross_" in
      let store f :=
        if gross
        then mkTables (setdefault_set name quantity f (gross_qtos t))
                      (net_qtos t) (formula_functions t)
        else mkTables (gross_qtos t)
                      (setdefault_set name quantity f (net_qtos t))
                      (formula_functions t) in
      if endswith formula "get_segment_length" then
        mret (store (partition_tail "_"%char formula))
      else if startswith formula "gross_" || startswith formula "net_" then
        let formula := partition_tail "_"%char formula in
        let t := store formula in
        function ← from_option (AttributeError formula) (shape_function formula);
        mret (mkTables (gross_qtos t) (net_qtos t)
                       (<[formula := function]> (formula_functions t)))
      else mret t
  end.

(** The loop at lines 239 to 249. *)
Definition classify_formulas (qtos : Qtos) : M file formula_tables :=
  foldM (λ t '(name, quantities),
           foldM (λ t '(quantity, formula),
                    classify_formula name quantity formula t)
                 t quantities)
        (mkTables ∅ ∅ ∅) qtos.

(** Lines 251 to 259: one task per iterator and formula table.  Both
    calls pass [cls.gross_settings]. *)
Definition create_tasks (cls_gross_settings cls_net_settings : settings)
    (els : gset positive) (t : formula_tables)
    : M file (list (iterator * QtosFormulas)) :=
  tasks ←
    (if decide (gross_qtos t = ∅) then mret []
     else
       iterators ← create_iterators cls_gross_settings (elements els);
       mret ((λ it, (it, gross_qtos t)) <$> iterators));
  if decide (net_qtos t = ∅) then mret tasks
  else
    iterators ← create_iterators cls_gross_settings (elements els);
    mret (tasks ++ ((λ it, (it, net_qtos t)) <$> iterators)).

(** Lines 266 to 271: the element and the geometry the iterator is at. *)
Definition current (it : iterator) : M file (entity_instance * geometry) :=
  match it with
  | Geom g =>
      '(shape_id, geometry_) ← geom_iterator_get g;
      element ← read (λ f, by_id f shape_id);
      element ← from_option RuntimeError element;
      mret (element, geometry_)
  | ForTypes t => get_element_and_geometry t
  end.

(** Lines 277 to 283: one quantity of one element.  The arguments of
    [convert] are evaluated in order: the call of the shape function, which
    raises TypeError when the attribute found by [getattr] does not take
    one geometry, comes before the lookup in [raw_functions]. *)
Definition store_quantity (cls : IfcOpenShell_cls)
    (functions_ : gmap string (geometry → option float))
    (element : entity_instance) (geometry_ : geometry) (name : string)
    (results : ResultsDict) (item : string * string) : M file ResultsDict :=
  let '(quantity, formula) := item in
  if bool_decide (formula = "get_segment_length") then
    value ← get_segment_length element;
    mret (set_quantity element name quantity value results)
  else
    function ← from_option (KeyError formula) (functions_ !! formula);
    raw ← from_option TypeError (function geometry_);
    func ← from_option (KeyError formula) (raw_functions !! formula);
    value ← lift (convert (unit_converter cls) raw (measure func));
    mret (set_quantity element name quantity (Some value) results).

(** Lines 273 to 283: all quantities of one element. *)
Definition store_quantities (cls : IfcOpenShell_cls)
    (functions_ : gmap string (geometry → option float)) (qtos_ : QtosFormulas)
    (results : ResultsDict) (item : entity_instance * geometry)
    : M file ResultsDict :=
  let '(element, geometry_) := item in
  foldM (λ results '(name, quantities),
           foldM (store_quantity cls functions_ element geometry_ name)
                 (setdefault_name element name results)
                 (map_to_list quantities))
        (setdefault_element element results) (map_to_list qtos_).

(** The [while True] loop at lines 265 to 285.  [budget] bounds the
    number of rounds; [run_task] below passes one that is never used up. *)
Fixpoint run_iterator (budget : nat) (cls : IfcOpenShell_cls)
    (functions_ : gmap string (geometry → option float)) (qtos_ : QtosFormulas)
    (it : iterator) (results : ResultsDict) : M file ResultsDict :=
  match budget with
  | 0 => raise LoopBudget
  | S budget =>
      item ← current it;
      results ← store_quantities cls functions_ qtos_ results item;
      '(more, it) ← next it;
      if (more : bool) then run_iterator budget cls functions_ qtos_ it results
      else mret results
  end.

(** Lines 264 to 285: one task. *)
Definition run_task (cls : IfcOpenShell_cls)
    (functions_ : gmap string (geometry → option float))
    (results : ResultsDict) (task : iterator * QtosFormulas)
    : M file ResultsDict :=
  let '(it, qtos_) := task in
  '(ready, it) ← initialize it;
  if (ready : bool)
  then run_iterator (S (remaining it)) cls functions_ qtos_ it results
  else mret results.

(** [IfcOpenShell.calculate] *)
Definition IfcOpenShell_calculate (els : gset positive) (qtos : Qtos)
    (results : ResultsDict) : M file ResultsDict :=
  let cls_gross_settings : settings :=
    <["disable-opening-subtractions" := true]> ∅ in
  let cls_net_settings : settings := ∅ in
  cls_unit_scale ← read calculate_unit_scale;
  t ← classify_formulas qtos;
  tasks ← create_tasks cls_gross_settings cls_net_settings els t;
  cls_unit_converter ← SI2ProjectUnitConverter_init;
  let cls := mkCls cls_gross_settings cls_net_settings cls_unit_scale
                   cls_unit_converter in
  foldM (run_task cls (formula_functions t)) results tasks.

(** *** class Blender *)

Definition Blender_functions : gmap string Function :=
  list_to_map
    [ ("get_covering_width", mkFunction "IfcLengthMeasure" "Covering Width" "");
      ("get_finish_ceiling_height",
         mkFunction "IfcLengthMeasure" "Finish Ceiling Height" "");
      ("get_finish_floor_height",
         mkFunction "IfcLengthMeasure" "Finish Floor Height" "");
      ("get_gross_perimeter", mkFunction "IfcLengthMeasure" "Gross Perimeter" "");
      ("get_height", mkFunction "IfcLengthMeasure" "Height" "");
      ("get_length", mkFunction "IfcLengthMeasure" "Length" "");
      ("get_opening_depth", mkFunction "IfcLengthMeasure" "Opening Depth" "");
      ("get_opening_height", mkFunction "IfcLengthMeasure" "Opening Height" "");
      ("get_rectangular_perimeter",
         mkFunction "IfcLengthMeasure" "Rectangular Perimeter" "");
      ("get_stair_length", mkFunction "IfcLengthMeasure" "Stair Length" "");
      ("get_width", mkFunction "IfcLengthMeasure" "Width" "");
      ("get_covering_gross_area",
         mkFunction "IfcAreaMeasure" "Covering Gross Area" "");
      ("get_covering_net_area", mkFunction "IfcAreaMeasure" "Covering Net Area" "");
      ("get_cross_section_area", mkFunction "IfcAreaMeasure" "Cross Section Area" "");
      ("get_gross_ceiling_area", mkFunction "IfcAreaMeasure" "Gross Ceiling Area" "");
      ("get_gross_footprint_area",
         mkFunction "IfcAreaMeasure" "Gross Footprint Area" "");
      ("get_gross_side_area", mkFunction "IfcAreaMeasure" "Gross Side Area" "");
      ("get_gross_stair_area", mkFunction "IfcAreaMeasure" "Gross Stair Area" "");
      ("get_gross_surface_area", mkFunction "IfcAreaMeasure" "Gross Surface Area" "");
      ("get_gross_top_area", mkFunction "IfcAreaMeasure" "Gross Top Area" "");
      ("get_net_ceiling_area", mkFunction "IfcAreaMeasure" "Net Ceiling Area" "");
      ("get_net_floor_area", mkFunction "IfcAreaMeasure" "Net Floor Area" "");
      ("get_net_footprint_area", mkFunction "IfcAreaMeasure" "Net Footprint Area" "");
      ("get_net_side_area", mkFunction "IfcAreaMeasure" "Net Side Area" "");
      ("get_net_stair_area", mkFunction "IfcAreaMeasure" "Net Stair Area" "");
      ("get_net_surface_area", mkFunction "IfcAreaMeasure" "Net Surface Area" "");
      ("get_net_top_area", mkFunction "IfcAreaMeasure" "Net Top Area" "");
      ("get_opening_mapping_area",
         mkFunction "IfcAreaMeasure" "Opening Mapping Area" "");
      ("get_outer_surface_area", mkFunction "IfcAreaMeasure" "Outer Surface Area" "");
      ("get_gross_volume", mkFunction "IfcVolumeMeasure" "Gross Volume" "");
      ("get_net_volume", mkFunction "IfcVolumeMeasure" "Net Volume" "");
      ("get_space_net_volume", mkFunction "IfcVolumeMeasure" "Space Net Volume" "");
      ("get_gross_weight", mkFunction "IfcMassMeasure" "Gross Weight" "");
      ("get_net_weight", mkFunction "IfcMassMeasure" "Net Weight" "") ].

(** The cache of looked-up calculator functions and the quantities of the
    quantity set at hand. *)
Abbreviation Blender_state :=
  (gmap string (blender_object → option float) * gmap string (option float))%type
  (only parsing).

(** Lines 393 to 398: one quantity of one object. *)
Definition Blender_quantity (converter : SI2ProjectUnitConverter)
    (obj : blender_object) (st : Blender_state)
    (item : string * option string) : M file Blender_state :=
  let '(functions_, qto_results) := st in
  let '(quantity, formula) := item in
  match formula with
  | None => mret st
  | Some formula =>
      if bool_decide (formula = "") then mret st else
      '(formula_function, functions_) ←
        match functions_ !! formula with
        | Some function => mret (function, functions_)
        | None =>
            function ← from_option (AttributeError formula)
                                   (calculator_function formula);
            mret (function, <[formula := function]> functions_)
        end;
      match formula_function obj with
      | Some value =>
          func ← from_option (KeyError formula) (Blender_functions !! formula);
          value ← lift (convert converter value (measure func));
          mret (functions_, <[quantity := Some value]> qto_results)
      | None => mret (functions_, qto_results)
      end
  end.

(** Lines 385 to 403: one element. *)
Definition Blender_element (converter : SI2ProjectUnitConverter) (qtos : Qtos)
    (st : gmap string (blender_object → option float) * ResultsDict)
    (element : entity_instance)
    : M file (gmap string (blender_object → option float) * ResultsDict) :=
  let '(functions_, results) := st in
  match get_object element with
  | None => mret st
  | Some obj =>
      if bool_decide (object_type obj ≠ "MESH") then mret st else
      '(functions_, element_results) ←
        foldM (λ '(functions_, element_results) '(name, quantities),
                 '(functions_, qto_results) ←
                   foldM (Blender_quantity converter obj) (functions_, ∅) quantities;
                 if decide (qto_results = ∅)
                 then mret (functions_, element_results)
                 else mret (functions_, <[name := qto_results]> element_results))
              (functions_, (∅ : gmap string (gmap string (option float)))) qtos;
      if decide (element_results = ∅) then mret (functions_, results)
      else mret (functions_, <[element := element_results]> results)
  end.

(** [Blender.calculate] *)
Definition Blender_calculate (els : gset positive) (qtos : Qtos)
    (results : ResultsDict) : M file ResultsDict :=
  converter ← SI2ProjectUnitConverter_init;
  '(_, results) ← foldM (Blender_element converter qtos) (∅, results) (elements els);
  mret results.

(** *** The calculator table, [quantify] and [edit_qtos] *)

(** What [quantify] uses of a calculator class. *)
Record Calculator : Type := mkCalculator {
  calculate : gset positive → Qtos → ResultsDict → M file ResultsDict;
}.

Definition IfcOpenShell : Calculator := {| calculate := IfcOpenShell_calculate |}.
Definition Blender : Calculator := {| calculate := Blender_calculate |}.

(** [calculators] *)
Definition calculators : gmap string Calculator :=
  <["IfcOpenShell" := IfcOpenShell]> {["Blender" := Blender]}.

(** Lines 56 to 58. *)
Definition group_by_class (els : gset positive)
    : M file (gmap string (gset positive)) :=
  foldM (λ elements_by_classes element,
           ifc_class ← read (λ f, is_a f element);
           mret (<[ifc_class := {[element]} ∪ (elements_by_classes !!! ifc_class)]>
                   elements_by_classes))
        ∅ (elements els).

(** Lines 63 to 68. *)
Definition filter_elements (elements_by_classes : gmap string (gset positive))
    (ifc_classes : list string) : gset positive :=
  foldl (λ filtered_elements ifc_class,
           match elements_by_classes !! ifc_class with
           | None => filtered_elements
           | Some group => filtered_elements ∪ group
           end)
        ∅ ifc_classes.

(** [quantify], with the module-level calculator table as a parameter. *)
Definition quantify_with (table : gmap string Calculator)
    (els : gset positive) (rules : Rules) : M file ResultsDict :=
  elements_by_classes ← group_by_class els;
  foldM (λ results '(calculator, queries),
           calculator ← from_option (KeyError calculator) (table !! calculator);
           foldM (λ results '(ifc_class, qtos),
                    schema_ ← read schema;
                    let ifc_classes :=
                      ifc_class :: get_applicable_types ifc_class schema_ in
                    let filtered_elements :=
                      filter_elements elements_by_classes ifc_classes in
                    if decide (filtered_elements = ∅) then mret results
                    else calculate calculator filtered_elements qtos results)
                 results queries)
        ∅ (rules_calculators rules).

(** [quantify] *)
Definition quantify (els : gset positive) (rules : Rules) : M file ResultsDict :=
  quantify_with calculators els rules.

(** The dispatch as the specification words it: for every rule entry,
    keyed by an IFC class, the entry's calculator is invoked on the input
    elements whose class is that class or one of its applicable types,
    and not at all when there is no such element. *)
Definition quantify_by_rule_entry (table : gmap string Calculator)
    (els : gset positive) (rules : Rules) : M file ResultsDict :=
  class_of ← read (λ f, is_a f);
  foldM (λ results '(calculator, queries),
           calculator ← from_option (KeyError calculator) (table !! calculator);
           foldM (λ results '(ifc_class, qtos),
                    schema_ ← read schema;
                    let selected : gset positive :=
                      filter (λ element,
                                class_of element = ifc_class
                                ∨ class_of element
                                    ∈ get_applicable_types ifc_class schema_)
                             els in
                    if decide (selected = ∅) then mret results
                    else calculate calculator selected qtos results)
                 results queries)
        ∅ (rules_calculators rules).

(** The choice of the calculator as the specification words it: a rule
    group named IfcOpenShell is computed by [IfcOpenShell.calculate], one
    named Blender by [Blender.calculate], and there is no third
    calculator. *)
Definition calculate_by_name (group : string)
    : option (gset positive → Qtos → ResultsDict → M file ResultsDict) :=
  if String.eqb group "IfcOpenShell" then Some IfcOpenShell_calculate
  else if String.eqb group "Blender" then Some Blender_calculate
  else None.

(** [quantify] with that choice in the place of the lookup in
    [calculators]. *)
Definition quantify_by_two_calculators (els : gset positive) (rules : Rules)
    : M file ResultsDict :=
  elements_by_classes ← group_by_class els;
  foldM (λ results '(group, queries),
           calculate_ ← from_option (KeyError group) (calculate_by_name group);
           foldM (λ results '(ifc_class, qtos),
                    schema_ ← read schema;
                    let ifc_classes :=
                      ifc_class :: get_applicable_types ifc_class schema_ in
                    let filtered_elements :=
                      filter_elements elements_by_classes ifc_classes in
                    if decide (filtered_elements = ∅) then mret results
                    else calculate_ filtered_elements qtos results)
                 results queries)
        ∅ (rules_calculators rules).

(** [edit_qtos] *)
Definition edit_qtos (results : ResultsDict) : M file unit :=
  foldM (λ _ '(element, qtos),
           foldM (λ _ '(name, quantities),
                    qto ← read (λ f, get_pset f element name);
                    qto ← match qto with
                          | Some qto_id =>
                              qto ← read (λ f, by_id f qto_id);
                              from_option RuntimeError qto
                          | None => write (λ f, add_qto f element name)
                          end;
                    write (λ f, ((), edit_qto f qto quantities)))
                 () (map_to_list qtos))
        () (map_to_list results).

(** *** Notions used to state the properties *)

(** The dictionary that the loop at lines 57 and 58 builds from [start]. *)
Definition grouped (f : file) (l : list positive)
    (start : gmap string (gset positive)) : gmap string (gset positive) :=
  foldl (λ m e, <[is_a f e := {[e]} ∪ (m !!! is_a f e)]> m) start l.

(** The dictionary that the loop at lines 293 and 294 builds from [start]. *)
Definition sorted (f : file) (l : list positive)
    (start : gmap bool (list positive)) : gmap bool (list positive) :=
  foldl (λ m e, let k := is_a_kind f e "IfcTypeProduct" in
                <[k := (m !!! k) ++ [e]]> m) start l.

(** The elements of [l] that are ([k] true) or are not ([k] false) type
    products, in the order of [l]. *)
Definition of_kind (f : file) (k : bool) (l : list positive) : list positive :=
  filter (λ e, is_a_kind f e "IfcTypeProduct" = k) l.

(** In every IFC schema IfcProduct and IfcTypeProduct are different
    branches below IfcObjectDefinition: no type product is a product. *)
Definition type_products_are_no_products (f : file) : Prop :=
  ∀ e, is_a_kind f e "IfcTypeProduct" = true → is_a_kind f e "IfcProduct" = false.

(** Every element the iterator can still yield lies in [D]. *)
Definition iterator_within (f : file) (D : gset positive) (it : iterator) : Prop :=
  match it with
  | Geom g =>
      ∀ id geo e, (id, geo) ∈ gi_pending g → by_id f id = Some e → e ∈ D
  | ForTypes t =>
      (∀ e, e ∈ ift_elements t → e ∈ D) ∧ (∀ e, ift_element t = Some e → e ∈ D)
  end.

(** The unit type and the SI unit name of every measure the converter
    knows. *)
Definition measure_units : list (string * (string * string)) :=
  [ ("IfcAreaMeasure", ("AREAUNIT", "SQUARE_METRE"));
    ("IfcLengthMeasure", ("LENGTHUNIT", "METRE"));
    ("IfcMassMeasure", ("MASSUNIT", "GRAM"));
    ("IfcTimeMeasure", ("TIMEUNIT", "SECOND"));
    ("IfcVolumeMeasure", ("VOLUMEUNIT", "CUBIC_METRE")) ].

(** A raw SI value of the given measure, in the unit that the project
    declares for the measure; the value itself when the project declares
    no such unit. *)
Definition in_project_unit (f : file) (measure_ : string) (value : float) : float :=
  match list_to_map (M := gmap string (string * string)) measure_units !! measure_ with
  | Some (unit_type, si_name) =>
      match get_project_unit f unit_type with
      | Some unit =>
          unit_convert value None si_name
                       (prefix_and_name f unit).1 (prefix_and_name f unit).2
      | None => value
      end
  | None => value
  end.

(** The entry of a formula table for a quantity of a quantity set. *)
Definition entry (table : QtosFormulas) (name_ quantity : string) : option string :=
  quantities ← table !! name_; quantities !! quantity.

(** The shape that [IteratorForTypes] yields for a type product: none when
    the product has no representation in the context. *)
Definition type_shape (f : file) (settings_ : settings) (context : positive)
    (element : positive) : option (option positive * geometry) :=
  representation ← get_representation f element (ByContext context);
  Some (Some element, create_shape settings_ f representation).

(** What an iterator yields from [initialize] on, in order: the geometry
    with the element it belongs to, [None] for a shape id that [by_id] does
    not find. *)
Definition yields (f : file) (it : iterator) : list (option positive * geometry) :=
  match it with
  | Geom g => (λ shape, (by_id f shape.1, shape.2)) <$> gi_pending g
  | ForTypes t =>
      omap (type_shape f (ift_settings t) (ift_context t)) (reverse (ift_elements t))
  end.

(** Lines 266 to 283 for one yielded shape. *)
Definition store_shape (cls : IfcOpenShell_cls)
    (functions_ : gmap string (geometry → option float)) (qtos_ : QtosFormulas)
    (results : ResultsDict) (shape : option positive * geometry)
    : M file ResultsDict :=
  element ← from_option RuntimeError shape.1;
  store_quantities cls functions_ qtos_ results (element, shape.2).

(** [geometry_] is a geometry that the iterators created for the elements
    with the given settings yield for [element]. *)
Definition shape_yielded (f : file) (settings_ : settings) (els : gset positive)
    (element : positive) (geometry_ : geometry) : Prop :=
  ∃ its f' it,
    create_iterators settings_ (elements els) f = Ok (its, f')
    ∧ it ∈ its ∧ (Some element, geometry_) ∈ yields f it.

(** The table of the formula's side and the table of the other side. *)
Definition side_table (gross : bool) (t : formula_tables) : QtosFormulas :=
  if gross then gross_qtos t else net_qtos t.

(** The quantity is filed under the stripped formula name on its side only,
    and the function of that name has been looked up. *)
Definition classified (gross : bool) (name_ quantity F : string)
    (t : formula_tables) : Prop :=
  entry (side_table gross t) name_ quantity = Some F
  ∧ entry (side_table (negb gross) t) name_ quantity = None
  ∧ is_Some (formula_functions t !! F).

(** The stored value is what [fn] measures on the geometry, converted to
    the project unit of the function's measure. *)
Definition measurement (f : file) (fn : geometry → option float)
    (func : Function) (g : geometry) (stored : option (option float)) : Prop :=
  ∃ raw, fn g = Some raw
         ∧ stored = Some (Some (in_project_unit f (measure func) raw)).

(** The element has the quantity, measured by [fn] on one of the shapes
    yielded for it and converted to the project unit. *)
Definition measured_on_shape (f : file) (gs : settings) (els : gset positive)
    (n q : string) (fn : geometry → option float) (func : Function)
    (e : positive) (r : ResultsDict) : Prop :=
  ∃ g raw, shape_yielded f gs els e g
           ∧ fn g = Some raw
           ∧ get_quantity e n q r
             = Some (Some (in_project_unit f (measure func) raw)).

(** The element has the quantity, and it is what [get_segment_length]
    returns for the element. *)
Definition has_segment_length (f : file) (name_ quantity : string)
    (element : positive) (results : ResultsDict) : Prop :=
  ∃ value, get_segment_length element f = Ok (value, f)
           ∧ get_quantity element name_ quantity results = Some value.

(** The cache of [Blender.calculate] holds calculator functions under
    their own names. *)
Definition cache_sound
    (functions_ : gmap string (blender_object → option float)) : Prop :=
  ∀ k function, functions_ !! k = Some function →
                calculator_function k = Some function.

(** Lines 388 to 401 of [Blender.calculate]: the loop over the quantity
    sets for one object, from the cache and the quantity sets at hand. *)
Definition Blender_quantity_sets (converter : SI2ProjectUnitConverter)
    (obj : blender_object) (qtos : list (string * list (string * option string)))
    (st : gmap string (blender_object → option float)
          * gmap string (gmap string (option float)))
    : M file (gmap string (blender_object → option float)
              * gmap string (gmap string (option float))) :=
  foldM (λ '(functions_, element_results) '(name, quantities),
           '(functions_, qto_results) ←
             foldM (Blender_quantity converter obj) (functions_, ∅) quantities;
           if decide (qto_results = ∅)
           then mret (functions_, element_results)
           else mret (functions_, <[name := qto_results]> element_results))
        st qtos.

(** A value that [Blender.calculate] stores for a quantity of an object:
    what the calculator function named by a formula of the quantity returns
    for the object, in the project's unit. *)
Definition Blender_value (f : file) (obj : blender_object)
    (quantities : list (string * option string)) (quantity : string)
    (value : option float) : Prop :=
  ∃ formula function func raw,
    (quantity, Some formula) ∈ quantities ∧ formula ≠ ""
    ∧ calculator_function formula = Some function ∧ function obj = Some raw
    ∧ Blender_functions !! formula = Some func
    ∧ value = Some (in_project_unit f (measure func) raw).

(** The quantity sets that [Blender.calculate] stores for an object: at
    least one, none of them empty, each under the name of a configured
    quantity set and made of values of its quantities. *)
Definition Blender_entry (f : file)
    (qtos : list (string * list (string * option string)))
    (obj : blender_object)
    (element_results : gmap string (gmap string (option float))) : Prop :=
  element_results ≠ ∅
  ∧ ∀ name_ qto_results,
      element_results !! name_ = Some qto_results →
      qto_results ≠ ∅
      ∧ ∃ quantities,
          (name_, quantities) ∈ qtos
          ∧ ∀ quantity value,
              qto_results !! quantity = Some value →
              Blender_value f obj quantities quantity value.

(** The formula takes part in the classification at lines 240 to 249: it
    is neither None nor empty, and it ends with get_segment_length or
    starts with gross_ or net_. *)
Definition filed_formula (formula : option string) : bool :=
  match formula with
  | None => false
  | Some formula =>
      negb (bool_decide (formula = ""))
      && (endswith formula "get_segment_length"
          || startswith formula "gross_" || startswith formula "net_")
  end.

(** [F] is what is left, after its first underscore, of a formula that is
    configured for the quantity and takes part in the classification. *)
Definition configured (qtos : Qtos) (name_ quantity F : string) : Prop :=
  ∃ quantities formula,
    (name_, quantities) ∈ qtos ∧ (quantity, Some formula) ∈ quantities
    ∧ filed_formula (Some formula) = true
    ∧ F = partition_tail "_" formula.

(** What [IfcOpenShell.calculate] computes for a quantity of an element,
    from a formula configured for the quantity: the segment length of the
    element, or what the shape function named by the formula measures on a
    geometry yielded for the element, converted to the project's unit of
    the function's measure. *)
Definition computed (f : file) (settings_ : settings) (els : gset positive)
    (qtos : Qtos) (element : positive) (name_ quantity : string)
    (value : option float) : Prop :=
  ∃ F, configured qtos name_ quantity F
    ∧ if bool_decide (F = "get_segment_length")
      then get_segment_length element f = Ok (value, f)
      else ∃ function func geometry_ raw,
             shape_function F = Some function
             ∧ raw_functions !! F = Some func
             ∧ shape_yielded f settings_ els element geometry_
             ∧ function geometry_ = Some raw
             ∧ value = Some (in_project_unit f (measure func) raw).

(** Every stored value was in [results0] or has been computed. *)
Definition all_computed (f : file) (settings_ : settings) (els : gset positive)
    (qtos : Qtos) (results0 results : ResultsDict) : Prop :=
  ∀ element name_ quantity value,
    get_quantity element name_ quantity results = Some value →
    get_quantity element name_ quantity results0 = Some value
    ∨ computed f settings_ els qtos element name_ quantity value.

(** Some formula has been filed: the two tables are not both empty. *)
Definition some_filed (t : formula_tables) : Prop :=
  gross_qtos t ≠ ∅ ∨ net_qtos t ≠ ∅.

(** The contract of the geometry iterator's [include] argument: it
    yields shapes of included elements only. *)
Definition include_respected : Prop :=
  ∀ settings_ f num_threads include id geo e,
    (id, geo) ∈ geom_shapes settings_ f num_threads include →
    by_id f id = Some e → e ∈ include.

End WithToolkit.

(** *** Module import: the rule table (lines 43 to 46)

    The filesystem is what [open] reads; [json_load] is [json.load] on the
    text of a file, [None] when it raises. *)
Section RuleTable.
Variable json_load : string → option Rules.

Abbreviation filesystem := (string → option string) (only parsing).

Definition load_rules (cwd : string) : M filesystem (gmap string Rules) :=
  foldM (λ rules name,
           let path := path_join cwd (name +:+ ".json") in
           text ← read (λ fs : filesystem, fs path);
           text ← from_option (FileNotFoundError path) text;
           parsed ← from_option JSONDecodeError (json_load text);
           mret (<[name := parsed]> rules))
        ∅ RULE_SET.
End RuleTable.

End Qto.

(** ** ifcopenshell/alignment.py *)

Module Alignment.

Abbreviation matrix := (list (list float)) (only parsing).

(** What [evaluate_segment] uses of the entity and of the geometry kernel
    wrapper. *)
Class Kernel : Type := {
  piecewise_function : Type;
  is_a : entity_instance → string;
  SegmentLength : entity_instance → float;
  map_shape : settings → entity_instance → piecewise_function;
  evaluate : piecewise_function → settings → float → matrix;
}.

(** [np.array(m).T] on a rectangular list of rows. *)
Fixpoint transpose (m : matrix) : matrix :=
  match m with
  | [] => []
  | [row] => (λ x, [x]) <$> row
  | row :: rows => zip_with cons row (transpose rows)
  end.

Section WithKernel.
Context `{Kernel}.

(** The entity is an IfcCurveSegment; as in the code, class names are
    compared without regard to case. *)
Definition is_curve_segment (segment : entity_instance) : Prop :=
  upper (is_a segment) = "IFCCURVESEGMENT".

(** [dist_along > segment.SegmentLength] *)
Definition beyond_end (segment : entity_instance) (dist_along : float) : Prop :=
  PrimFloat.ltb (SegmentLength segment) dist_along = true.

(** [evaluate_segment] *)
Definition evaluate_segment (segment : entity_instance) (dist_along : float)
    : result matrix :=
  let supported_segment_types := ["IFCCURVESEGMENT"] in
  let segment_type := upper (is_a segment) in
  if negb (bool_decide (segment_type ∈ supported_segment_types)) then
    Raise NotImplementedError
  else if PrimFloat.ltb (SegmentLength segment) dist_along then
    Raise ValueError
  else
    let s : settings := ∅ in
    let pwf := map_shape s segment in
    let trans_matrix := evaluate pwf s dist_along in
    Ok (transpose trans_matrix).

(** [evaluate_representation] *)
Definition evaluate_representation (shape_rep : entity_instance)
    (dist_along : float) : result matrix :=
  let supported_rep_types :=
    ["IFCCOMPOSITECURVE"; "IFCGRADIENTCURVE"; "IFCSEGMENTEDREFERENCECURVE"] in
  let shape_rep_type := upper (is_a shape_rep) in
  if negb (bool_decide (shape_rep_type ∈ supported_rep_types)) then
    Raise NotImplementedError
  else
    let s : settings := ∅ in
    let pwf := map_shape s shape_rep in
    let trans_matrix := evaluate pwf s dist_along in
    Ok (transpose trans_matrix).

(** The entity is one of the curves [evaluate_representation] supports;
    class names are compared without regard to case. *)
Definition is_representation_curve (shape_rep : entity_instance) : Prop :=
  upper (is_a shape_rep)
  ∈ ["IFCCOMPOSITECURVE"; "IFCGRADIENTCURVE"; "IFCSEGMENTEDREFERENCECURVE"].

End WithKernel.

(** The item in row [i] and column [j] of a matrix. *)
Definition item_at (m : matrix) (i j : nat) : option float :=
  row ← m !! i; row !! j.

(** What [generate_vertices] uses of ifcopenshell.geom: [shape.verts], the
    flat sequence of coordinates of the shape that [create_shape] builds
    for a curve under settings whose options hold floats.  [create_shape]
    returns None for an entity that it cannot turn into a shape; there is
    no [verts] to read then. *)
Class Shapes : Type := {
  create_shape_verts : gmap string float → entity_instance → option (list float);
}.

(** [np.array(vertices).reshape((-1, 3))]: the items three by three; numpy
    raises ValueError when their number is not a multiple of three. *)
Fixpoint reshape3 (vertices : list float) : result (list (list float)) :=
  match vertices with
  | [] => Ok []
  | x :: y :: z :: rest =>
      match reshape3 rest with
      | Ok rows => Ok ([x; y; z] :: rows)
      | Raise e => Raise e
      end
  | _ => Raise ValueError
  end.

Section WithShapes.
Context `{Shapes}.

(** [generate_vertices]; [rep_curve] may be None. *)
Definition generate_vertices (rep_curve : option entity_instance)
    (distance_interval : float) : result (list (list float)) :=
  match rep_curve with
  | None => Raise ValueError
  | Some rep_curve =>
      let s : gmap string float :=
        <["PIECEWISE_STEP_PARAM" := distance_interval]> ∅ in
      match create_shape_verts s rep_curve with
      | None => Raise (AttributeError "verts")
      | Some vertices =>
          if length vertices =? 0 then Raise ValueError
          else reshape3 vertices
      end
  end.

End WithShapes.

(** What [name_segments] uses of the schema: whether the class of an
    entity has a Name attribute.  Assigning to an attribute that the class
    lacks raises AttributeError. *)
Class Attributes : Type := {
  has_Name : entity_instance → bool;
}.

Section WithAttributes.
Context `{Attributes}.

(** The loop of [name_segments] from index [i] on.  The state is the Name
    attribute of the entities of the file; it is returned with the outcome,
    because an exception leaves the names assigned before it in place.
    [pretty] writes a number in decimal, as the f-string does. *)
Fixpoint name_from (prefix : string) (i : nat) (segments : list entity_instance)
    (names : gmap positive string) : result unit * gmap positive string :=
  match segments with
  | [] => (Ok (), names)
  | segment :: rest =>
      if has_Name segment
      then name_from prefix (S i) rest
                     (<[segment := prefix +:+ pretty (i + 1)]> names)
      else (Raise (AttributeError "Name"), names)
  end.

(** [name_segments] *)
Definition name_segments (prefix : string) (segments : list entity_instance)
    (names : gmap positive string) : result unit * gmap positive string :=
  name_from prefix 0 segments names.

End WithAttributes.

End Alignment.

(** ** A small concrete toolkit

    A file with one wall (#1), one wall type (#2) and one slab (#3), whose
    project length unit is the millimetre.  The wall and the slab are
    products, the wall type is a type product.  A geometry remembers the
    element it was made for and whether openings were left unsubtracted;
    every shape function measures 2 on such a gross geometry and 1 on a net
    one, and [get_area_vf], which takes vertices and faces, cannot be called
    with one geometry. *)

Module Demo.

Record demo_file : Type := mkDemoFile {
  demo_schema : string;
  demo_classes : gmap positive string;
  demo_qsets : gmap positive (positive * string * gmap string (option float));
}.

Definition demo_is_a (f : demo_file) (e : positive) : string :=
  default "" (demo_classes f !! e).

(** The classes whose name ends with Type are the type products, every
    other class of the file is a product. *)
Definition demo_is_type (f : demo_file) (e : positive) : bool :=
  endswith (demo_is_a f e) "Type".

Definition demo_is_a_kind (f : demo_file) (e : positive) (c : string) : bool :=
  if String.eqb c "IfcTypeProduct" then demo_is_type f e
  else if String.eqb c "IfcProduct"
  then bool_decide (is_Some (demo_classes f !! e)) && negb (demo_is_type f e)
  else String.eqb (demo_is_a f e) c.

Definition demo_by_id (f : demo_file) (i : positive) : option positive :=
  if bool_decide (is_Some (demo_classes f !! i) ∨ is_Some (demo_qsets f !! i))
  then Some i else None.

Definition demo_get_pset (f : demo_file) (e : positive) (n : string)
    : option positive :=
  fst <$> head (filter (λ kv, kv.2.1 = (e, n)) (map_to_list (demo_qsets f))).

Definition demo_add_qto (f : demo_file) (e : positive) (n : string)
    : positive * demo_file :=
  let i := fresh (dom (demo_classes f) ∪ dom (demo_qsets f)) in
  (i, {| demo_schema := demo_schema f; demo_classes := demo_classes f;
         demo_qsets := <[i := (e, n, ∅)]> (demo_qsets f) |}).

Definition demo_edit_qto (f : demo_file) (qto : positive)
    (properties : gmap string (option float)) : demo_file :=
  {| demo_schema := demo_schema f; demo_classes := demo_classes f;
     demo_qsets := alter (λ q, (q.1, properties ∪ q.2)) qto (demo_qsets f) |}.

Definition demo_openings_disabled (s : settings) : bool :=
  bool_decide (s !! "disable-opening-subtractions" = Some true).

#[export] Instance demo_toolkit : Toolkit := {|
  file := demo_file;
  geometry := positive * bool;
  blender_object := positive;
  schema := demo_schema;
  by_id := demo_by_id;
  is_a := demo_is_a;
  is_a_kind := demo_is_a_kind;
  rep_items := λ _ _, [];
  swept_area := λ _ e, e;
  x_dim := λ _ _, 0%float;
  y_dim := λ _ _, 0%float;
  depth := λ _ _, 0%float;
  get_applicable_types := λ c _,
    if String.eqb c "IfcWall" then ["IfcWallType"] else [];
  calculate_unit_scale := λ _, 0x1.0624dd2f1a9fcp-10%float;
  get_project_unit := λ _ unit_type,
    if String.eqb unit_type "LENGTHUNIT" then Some 10%positive else None;
  unit_prefix := λ _ _, Some (Some "MILLI");
  unit_name := λ _ _, "METRE";
  unit_convert := λ value _ _ to_prefix _,
    if bool_decide (to_prefix = Some "MILLI") then (value * 1000)%float else value;
  get_context := λ _ _ _ _, Some 20%positive;
  get_representation := λ _ e _, Some e;
  get_pset := demo_get_pset;
  add_qto := demo_add_qto;
  edit_qto := demo_edit_qto;
  create_shape := λ s _ rep, (rep, demo_openings_disabled s);
  geom_shapes := λ s f _ include,
    (λ e, (e, (e, demo_openings_disabled s))) <$> include;
  shape_function := λ formula,
    if bool_decide (is_Some (Qto.raw_functions !! formula))
    then Some (λ g : positive * bool, Some (if g.2 then 2%float else 1%float))
    else if String.eqb formula "get_area_vf" then Some (λ _, None)
    else None;
  cpu_count := 4;
  get_object := λ e, Some e;
  object_type := λ _, "MESH";
  calculator_function := λ formula,
    if bool_decide (is_Some (Qto.Blender_functions !! formula))
    then Some (λ _, Some 3%float) else None;
|}.

Definition the_file : file :=
  {| demo_schema := "IFC4";
     demo_classes :=
       list_to_map [(1%positive, "IfcWall"); (2%positive, "IfcWallType");
                    (3%positive, "IfcSlab")];
     demo_qsets := ∅ |}.

(** The quantity sets of the walls. *)
Definition wall_qtos : list (string * list (string * option string)) :=
  [ ("Qto_WallBaseQuantities",
     [ ("Length", Some "gross_get_x");
       ("NetVolume", Some "net_get_volume");
       ("Width", None) ]) ].

(** A rule set with one entry per calculator. *)
Definition wall_rules : Qto.Rules :=
  {| Qto.rules_calculators :=
       [ ("IfcOpenShell", [ ("IfcWall", wall_qtos) ]);
         ("Blender",
          [ ("IfcSlab",
             [ ("Qto_SlabBaseQuantities", [ ("Depth", Some "get_height") ]) ]) ]) ] |}.

Definition all_elements : gset positive := {[ 1%positive; 2%positive; 3%positive ]}.

(** The wall and the slab. *)
Definition products : gset positive := {[ 1%positive; 3%positive ]}.

(** The quantity found in the results of a run, [None] when the run
    raised or stored no such quantity. *)
Definition quantity_after (run : result (Qto.ResultsDict * file))
    (element : positive) (name_ quantity : string) : option (option float) :=
  match run with
  | Ok (results, _) => Qto.get_quantity element name_ quantity results
  | Raise _ => None
  end.

(** What the shape function of that name measures on the geometry of a
    representation created with the given settings. *)
Definition measured (formula : string) (settings_ : settings)
    (representation : positive) : option float :=
  function ← shape_function formula;
  function (create_shape settings_ the_file representation).

(** A quantity set with one net quantity, and one with one gross quantity. *)
Definition net_volume_qtos : list (string * list (string * option string)) :=
  [("Qto_WallBaseQuantities", [("NetVolume", Some "net_get_volume")])].

Definition gross_length_qtos : list (string * list (string * option string)) :=
  [("Qto_WallBaseQuantities", [("Length", Some "gross_get_x")])].

(** A module directory that holds the two rule files; the parser reads a
    rule set without entries from any text. *)
Definition demo_fs (path : string) : option string :=
  if String.eqb path "/site/ifc5d/IFC4QtoBaseQuantities.json" then Some "{}"
  else if String.eqb path "/site/ifc5d/IFC4QtoBaseQuantitiesBlender.json"
  then Some "{}" else None.

Definition demo_json_load (text : string) : option Qto.Rules :=
  Some {| Qto.rules_calculators := [] |}.

(** An alignment kernel in which #1 is a curve segment of length 10 and
    every other entity is a horizontal alignment segment; the evaluator
    returns a translation by the distance along. *)
#[export] Instance demo_kernel : Alignment.Kernel := {|
  Alignment.piecewise_function := positive;
  Alignment.is_a := λ e,
    if bool_decide (e = 1%positive) then "IfcCurveSegment"
    else "IfcAlignmentHorizontalSegment";
  Alignment.SegmentLength := λ _, 10%float;
  Alignment.map_shape := λ _ e, e;
  Alignment.evaluate := λ _ _ d,
    [ [1; 0; 0; 0]; [0; 1; 0; 0]; [0; 0; 1; 0]; [d; 0; 0; 1] ]%float;
|}.

(** The same toolkit over a file that has no Model/Body/MODEL_VIEW
    context. *)
Definition no_context_toolkit : Toolkit := {|
  file := demo_file;
  geometry := positive * bool;
  blender_object := positive;
  schema := demo_schema;
  by_id := demo_by_id;
  is_a := demo_is_a;
  is_a_kind := demo_is_a_kind;
  rep_items := rep_items;
  swept_area := swept_area;
  x_dim := x_dim;
  y_dim := y_dim;
  depth := depth;
  get_applicable_types := get_applicable_types;
  calculate_unit_scale := calculate_unit_scale;
  get_project_unit := get_project_unit;
  unit_prefix := unit_prefix;
  unit_name := unit_name;
  unit_convert := unit_convert;
  get_context := λ _ _ _ _, None;
  get_representation := get_representation;
  get_pset := demo_get_pset;
  add_qto := demo_add_qto;
  edit_qto := demo_edit_qto;
  create_shape := create_shape;
  geom_shapes := geom_shapes;
  shape_function := shape_function;
  cpu_count := cpu_count;
  get_object := get_object;
  object_type := object_type;
  calculator_function := calculator_function;
|}.

(** The same toolkit over a file in which every body representation has
    one item, an extruded rectangle of 3 by 7 and depth 5. *)
Definition pipe_toolkit : Toolkit := {|
  file := demo_file;
  geometry := positive * bool;
  blender_object := positive;
  schema := demo_schema;
  by_id := demo_by_id;
  is_a := demo_is_a;
  is_a_kind := λ _ _ c,
    String.eqb c "IfcExtrudedAreaSolid" || String.eqb c "IfcRectangleProfileDef";
  rep_items := λ _ rep, [rep];
  swept_area := swept_area;
  x_dim := λ _ _, 3%float;
  y_dim := λ _ _, 7%float;
  depth := λ _ _, 5%float;
  get_applicable_types := get_applicable_types;
  calculate_unit_scale := calculate_unit_scale;
  get_project_unit := get_project_unit;
  unit_prefix := unit_prefix;
  unit_name := unit_name;
  unit_convert := unit_convert;
  get_context := get_context;
  get_representation := get_representation;
  get_pset := demo_get_pset;
  add_qto := demo_add_qto;
  edit_qto := demo_edit_qto;
  create_shape := create_shape;
  geom_shapes := geom_shapes;
  shape_function := shape_function;
  cpu_count := cpu_count;
  get_object := get_object;
  object_type := object_type;
  calculator_function := calculator_function;
|}.

(** A module directory that holds the first rule file only. *)
Definition half_fs (path : string) : option string :=
  if String.eqb path "/site/ifc5d/IFC4QtoBaseQuantities.json" then Some "{}"
  else None.

(** A rule set that names no class of the slab #3, one whose calculator is
    not registered, and quantity sets used below. *)
Definition wall_only_rules : Qto.Rules :=
  {| Qto.rules_calculators :=
       [ ("IfcOpenShell", [ ("IfcWall", gross_length_qtos) ]) ] |}.

Definition unknown_calculator_rules : Qto.Rules :=
  {| Qto.rules_calculators := [ ("Revit", []) ] |}.

Definition unprefixed_qtos : list (string * list (string * option string)) :=
  [("Qto_WallBaseQuantities",
    [("Width", None); ("Height", Some ""); ("NetVolume", Some "get_volume")])].

Definition bare_segment_qtos : list (string * list (string * option string)) :=
  [("Qto_PipeSegmentBaseQuantities", [("Length", Some "get_segment_length")])].

Definition segment_qtos : list (string * list (string * option string)) :=
  [("Qto_PipeSegmentBaseQuantities", [("Length", Some "gross_get_segment_length")])].

Definition slab_qtos : list (string * list (string * option string)) :=
  [("Qto_SlabBaseQuantities", [("Depth", Some "get_height")])].

(** An alignment kernel in which #5 is a gradient curve and every other
    entity a curve segment of length 10, with the same evaluator. *)
Definition curve_kernel : Alignment.Kernel := {|
  Alignment.piecewise_function := positive;
  Alignment.is_a := λ e,
    if bool_decide (e = 5%positive) then "IfcGradientCurve" else "IfcCurveSegment";
  Alignment.SegmentLength := λ _, 10%float;
  Alignment.map_shape := λ _ e, e;
  Alignment.evaluate := λ _ _ d,
    [ [1; 0; 0; 0]; [0; 1; 0; 0]; [0; 0; 1; 0]; [d; 0; 0; 1] ]%float;
|}.

(** Shapes whose vertices are the origin and the point one step along the
    X axis; the curve #9 has no vertices, and #8 cannot be turned into a
    shape. *)
#[export] Instance demo_shapes : Alignment.Shapes := {|
  Alignment.create_shape_verts := λ s curve,
    if bool_decide (curve = 8%positive) then None
    else if bool_decide (curve = 9%positive) then Some []
    else Some [0; 0; 0; default 0 (s !! "PIECEWISE_STEP_PARAM"); 0; 0]%float;
|}.

(** Every entity has a Name attribute, except #6. *)
#[export] Instance demo_attributes : Alignment.Attributes := {|
  Alignment.has_Name := λ e, negb (bool_decide (e = 6%positive));
|}.

End Demo.

(** * Properties *)

(** ** Reasoning about monadic code *)

Section MonadFacts.
Context {S : Type}.
Implicit Types s : S.

Lemma bind_run {A B} (m : M S A) (k : A → M S B) s :
  (m ≫= k) s = match m s with Ok (a, s') => k a s' | Raise e => Raise e end.
Proof. reflexivity. Qed.

Lemma bind_ok {A B} (m : M S A) (k : A → M S B) s b s' :
  (m ≫= k) s = Ok (b, s') ↔ ∃ a s1, m s = Ok (a, s1) ∧ k a s1 = Ok (b, s').
Proof.
  rewrite bind_run. split.
  - destruct (m s) as [[a s1]|e]; [eauto | discriminate].
  - intros (a & s1 & -> & Hk); exact Hk.
Qed.

Lemma returns_ret {A} (a : A) s (Q : A → Prop) : Q a → returns (mret a) s Q.
Proof. intros HQ a' s' [= <- <-]; auto. Qed.

Lemma returns_raise {A} e s (Q : A → Prop) : returns (raise e) s Q.
Proof. intros a s' [=]. Qed.

Lemma returns_read {A} (g : S → A) s (Q : A → Prop) : Q (g s) → returns (read g) s Q.
Proof. intros HQ a s' [= <- <-]; auto. Qed.

Lemma returns_from_option {A} e (o : option A) s (Q : A → Prop) :
  (∀ a, o = Some a → Q a) → returns (from_option e o) s Q.
Proof. destruct o; intros HQ a' s' [= <- <-]; auto. Qed.

Lemma returns_lift {A} (r : result A) s (Q : A → Prop) :
  (∀ a, r = Ok a → Q a) → returns (lift r) s Q.
Proof. destruct r; intros HQ a' s' [= <- <-]; auto. Qed.

Lemma returns_bind {A B} (m : M S A) (k : A → M S B) s (P : A → Prop) (Q : B → Prop) :
  returns m s P → (∀ a, P a → returns (k a) s Q) → returns (m ≫= k) s Q.
Proof.
  intros Hm Hk b s' (a & s1 & Ha & Hb)%bind_ok.
  destruct (Hm _ _ Ha) as [-> HP]. exact (Hk _ HP _ _ Hb).
Qed.

Lemma returns_weaken {A} (m : M S A) s (P Q : A → Prop) :
  returns m s P → (∀ a, P a → Q a) → returns m s Q.
Proof. intros Hm HPQ a s' Ha. destruct (Hm _ _ Ha); auto. Qed.

Lemma returns_and {A} (m : M S A) s (P Q : A → Prop) :
  returns m s P → returns m s Q → returns m s (λ a, P a ∧ Q a).
Proof. intros HP HQ a s' Ha. destruct (HP _ _ Ha), (HQ _ _ Ha); auto. Qed.

(** The loop rule: an invariant of the body holds after the loop. *)
Lemma returns_foldM {A B} (f : A → B → M S A) (l : list B) (a : A) s (I : A → Prop) :
  I a → (∀ a b, b ∈ l → I a → returns (f a b) s I) → returns (foldM f a l) s I.
Proof.
  revert a. induction l as [|b l IH]; intros a Ha Hf; simpl.
  - by apply returns_ret.
  - eapply returns_bind.
    + apply Hf; [left | done].
    + intros a' Ha'. apply IH; [done |]. intros; apply Hf; [by right | done].
Qed.

Lemma foldM_app {A B} (f : A → B → M S A) (l1 l2 : list B) (a : A) s :
  foldM f a (l1 ++ l2) s = (a' ← foldM f a l1; foldM f a' l2) s.
Proof.
  revert a s. induction l1 as [|b l1 IH]; intros a s; simpl; [done |].
  rewrite !bind_run. destruct (f a b s) as [[a' s']|e]; [| done]. apply IH.
Qed.

Lemma foldM_ext {A B} (f g : A → B → M S A) (l : list B) (a : A) s :
  (∀ a b s, b ∈ l → f a b s = g a b s) → foldM f a l s = foldM g a l s.
Proof.
  revert a s. induction l as [|b l IH]; intros a s Hfg; simpl; [done |].
  rewrite !bind_run, Hfg by left.
  destruct (g a b s) as [[a' s']|e]; [| done].
  apply IH. intros; apply Hfg; by right.
Qed.

Lemma ret_run {A} (a : A) s : (mret a : M S A) s = Ok (a, s).
Proof. reflexivity. Qed.

Lemma returns_foldM_app {A B} (g : A → B → M S A) (l1 l2 : list B) (a : A) s
    (P Q : A → Prop) :
  returns (foldM g a l1) s P →
  (∀ a', P a' → returns (foldM g a' l2) s Q) →
  returns (foldM g a (l1 ++ l2)) s Q.
Proof.
  intros H1 H2 r s'. rewrite foldM_app. revert r s'.
  by apply (returns_bind _ _ _ P).
Qed.

(** The loop rule with an invariant that sees the items already handled. *)
Lemma returns_foldM_split {A B} (g : A → B → M S A) (l : list B) (a : A) s
    (I : list B → A → Prop) :
  I [] a →
  (∀ done_ b rest a, l = done_ ++ b :: rest → I done_ a →
     returns (g a b) s (I (done_ ++ [b]))) →
  returns (foldM g a l) s (I l).
Proof.
  intros Ha Hg.
  cut (∀ rest done_ a, l = done_ ++ rest → I done_ a →
         returns (foldM g a rest) s (I l)).
  { intros Hgen. by apply (Hgen l [] a). }
  clear a Ha. intros rest. induction rest as [|b rest IH]; intros done_ a Hl Ha.
  - cbn [foldM]. apply returns_ret. by rewrite Hl, app_nil_r.
  - cbn [foldM]. eapply returns_bind; [by eapply Hg |].
    intros a' Ha'. apply (IH (done_ ++ [b])); [| done].
    by rewrite <- app_assoc.
Qed.

Lemma returns_forall {A X} (m : M S A) s (Q : X → A → Prop) :
  returns m s (λ _, True) →
  (∀ x, returns m s (Q x)) → returns m s (λ a, ∀ x, Q x a).
Proof.
  intros Hframe Hm a s' Hrun. split; [by destruct (Hframe _ _ Hrun) |].
  intros x. by destruct (Hm x _ _ Hrun).
Qed.

End MonadFacts.

(** Peels one statement off a [returns] goal. *)
Ltac step :=
  lazymatch goal with
  | |- returns (mret _) _ _ => apply returns_ret
  | |- returns (raise _) _ _ => apply returns_raise
  | |- returns (read _) _ _ => apply returns_read
  | |- returns (from_option _ _) _ _ => apply returns_from_option; intros ? ?
  | |- returns (lift _) _ _ => apply returns_lift; intros ? ?
  | |- returns (_ ≫= _) _ _ => eapply returns_bind; [| intros ? ?]
  | |- returns (if ?b then _ else _) _ _ => destruct b eqn:?
  | |- returns (match ?o with Some _ => _ | None => _ end) _ _ => destruct o eqn:?
  | |- returns (let '(_, _) := ?p in _) _ _ => destruct p eqn:?
  end.

(** Solves [returns m s (λ _, True)] for code built from state-preserving
    parts. *)
Ltac frame :=
  repeat first
    [ exact I
    | progress intros
    | lazymatch goal with
      | |- returns (foldM _ _ _) _ _ =>
          apply (returns_foldM _ _ _ _ (λ _, True)); [exact I |]
      | |- returns (_ ≫= _) _ _ => apply (returns_bind _ _ _ (λ _, True))
      | |- returns (let '(_, _) := ?p in _) _ _ => destruct p
      | |- returns (match ?x with _ => _ end) _ _ => destruct x
      end
    | step ].

Ltac frame_bind := apply (returns_bind _ _ _ (λ _, True)); [| intros ? _].

Module QtoFacts.
Import Qto.

(** *** The rule table loaded at import *)

Section RuleTable.
Variable json_load : string → option Rules.

Lemma load_step_ok cwd (rules : gmap string Rules) name_ fs r fs' :
  (let path := path_join cwd (name_ +:+ ".json") in
   text ← read (λ fs : string → option string, fs path);
   text ← from_option (FileNotFoundError path) text;
   parsed ← from_option JSONDecodeError (json_load text);
   mret (<[name_ := parsed]> rules)) fs = Ok (r, fs') ↔
  fs' = fs ∧ ∃ text parsed,
    fs (path_join cwd (name_ +:+ ".json")) = Some text
    ∧ json_load text = Some parsed ∧ r = <[name_ := parsed]> rules.
Proof.
  cbv zeta. rewrite bind_run. simpl. split.
  - destruct (fs (path_join cwd (name_ +:+ ".json"))) as [text|] eqn:Hfile; [| done].
    rewrite bind_run. simpl.
    destruct (json_load text) as [parsed|] eqn:Hparse; [| done].
    intros [= <- <-]. split; [done |]. by exists text, parsed.
  - intros (-> & text & parsed & -> & Hparse & ->).
    rewrite bind_run. simpl. by rewrite Hparse.
Qed.

(** C8: the rule table loaded at import holds exactly the two rule sets
    IFC4QtoBaseQuantities and IFC4QtoBaseQuantitiesBlender, each one the
    parsed content of the JSON file of that name in the module's
    directory; loading succeeds exactly when both files are there and
    parse. *)
Theorem load_rules_two_rule_sets cwd fs rules fs' :
  load_rules json_load cwd fs = Ok (rules, fs') ↔
  fs' = fs ∧ ∃ text1 parsed1 text2 parsed2,
    fs (path_join cwd "IFC4QtoBaseQuantities.json") = Some text1
    ∧ json_load text1 = Some parsed1
    ∧ fs (path_join cwd "IFC4QtoBaseQuantitiesBlender.json") = Some text2
    ∧ json_load text2 = Some parsed2
    ∧ rules = <["IFC4QtoBaseQuantitiesBlender" := parsed2]>
                {["IFC4QtoBaseQuantities" := parsed1]}.
Proof.
  unfold load_rules, RULE_SET. simpl. split.
  - intros Hrun.
    apply bind_ok in Hrun as (r1 & fs1 & H1 & Hrun).
    apply load_step_ok in H1 as (-> & text1 & parsed1 & Hfile1 & Hparse1 & ->).
    apply bind_ok in Hrun as (r2 & fs2 & H2 & Hrun).
    apply load_step_ok in H2 as (-> & text2 & parsed2 & Hfile2 & Hparse2 & ->).
    injection Hrun as <- <-. split; [done |].
    by exists text1, parsed1, text2, parsed2.
  - intros (-> & text1 & parsed1 & text2 & parsed2 & Hf1 & Hp1 & Hf2 & Hp2 & ->).
    apply bind_ok. exists {["IFC4QtoBaseQuantities" := parsed1]}, fs. split.
    { apply load_step_ok. split; [done |]. by exists text1, parsed1. }
    apply bind_ok. eexists _, fs. split; [| reflexivity].
    apply load_step_ok. split; [done |]. by exists text2, parsed2.
Qed.
End RuleTable.

Section WithToolkit.
Context `{Toolkit}.
Implicit Types (f : file) (els : gset positive).

(** *** Nothing in the calculators writes to the file *)

Lemma SI2ProjectUnitConverter_init_frame f :
  returns SI2ProjectUnitConverter_init f (λ _, True).
Proof. unfold SI2ProjectUnitConverter_init. frame. Qed.

Lemma get_segment_length_frame element f :
  returns (get_segment_length element) f (λ _, True).
Proof. unfold get_segment_length. frame. Qed.

Lemma process_shape_frame self element f :
  returns (process_shape self element) f (λ _, True).
Proof. unfold process_shape. frame. Qed.

Lemma next_from_frame stack self f :
  returns (next_from stack self) f (λ _, True).
Proof.
  revert self. induction stack as [|element below IH]; intros self; simpl.
  - frame.
  - apply (returns_bind _ _ _ (λ _, True)); [apply process_shape_frame |].
    intros [[] self'] _; [frame | apply IH].
Qed.

Lemma IteratorForTypes_next_frame self f :
  returns (IteratorForTypes_next self) f (λ _, True).
Proof.
  unfold IteratorForTypes_next. destruct (ift_elements self); [frame |].
  apply next_from_frame.
Qed.

Lemma initialize_frame it f : returns (initialize it) f (λ _, True).
Proof.
  destruct it; simpl; [frame |].
  apply (returns_bind _ _ _ (λ _, True)); [apply IteratorForTypes_next_frame | frame].
Qed.

Lemma next_frame it f : returns (next it) f (λ _, True).
Proof.
  destruct it; simpl; [frame |].
  apply (returns_bind _ _ _ (λ _, True)); [apply IteratorForTypes_next_frame | frame].
Qed.

Lemma current_frame it f : returns (current it) f (λ _, True).
Proof. destruct it; simpl; [unfold geom_iterator_get | unfold get_element_and_geometry]; frame. Qed.

Lemma create_iterators_frame settings_ l f :
  returns (create_iterators settings_ l) f (λ _, True).
Proof.
  unfold create_iterators, IteratorForTypes_init, geom_iterator_init. frame.
Qed.

Lemma classify_formula_frame name_ quantity formula t f :
  returns (classify_formula name_ quantity formula t) f (λ _, True).
Proof. unfold classify_formula. frame. Qed.

Lemma classify_formulas_frame qtos f :
  returns (classify_formulas qtos) f (λ _, True).
Proof.
  unfold classify_formulas. frame. apply classify_formula_frame.
Qed.

Lemma create_tasks_frame gs ns els t f :
  returns (create_tasks gs ns els t) f (λ _, True).
Proof.
  unfold create_tasks.
  apply (returns_bind _ _ _ (λ _, True)).
  - destruct (decide (gross_qtos t = ∅)); [frame |].
    apply (returns_bind _ _ _ (λ _, True)); [apply create_iterators_frame | frame].
  - intros tasks _. destruct (decide (net_qtos t = ∅)); [frame |].
    apply (returns_bind _ _ _ (λ _, True)); [apply create_iterators_frame | frame].
Qed.

Lemma store_quantity_frame cls ff element g name_ results item f :
  returns (store_quantity cls ff element g name_ results item) f (λ _, True).
Proof.
  unfold store_quantity. destruct item as [quantity formula].
  case_bool_decide.
  - apply (returns_bind _ _ _ (λ _, True)); [apply get_segment_length_frame | frame].
  - frame.
Qed.

Lemma store_quantities_frame cls ff qtos_ results item f :
  returns (store_quantities cls ff qtos_ results item) f (λ _, True).
Proof.
  unfold store_quantities. frame. apply store_quantity_frame.
Qed.

Lemma run_iterator_frame budget cls ff qtos_ it results f :
  returns (run_iterator budget cls ff qtos_ it results) f (λ _, True).
Proof.
  revert it results. induction budget as [|budget IH]; intros it results; simpl.
  - frame.
  - apply (returns_bind _ _ _ (λ _, True)); [apply current_frame |]. intros item _.
    apply (returns_bind _ _ _ (λ _, True)); [apply store_quantities_frame |]. intros results' _.
    apply (returns_bind _ _ _ (λ _, True)); [apply next_frame |]. intros [[] it'] _; [apply IH | frame].
Qed.

Lemma run_task_frame cls ff results task f :
  returns (run_task cls ff results task) f (λ _, True).
Proof.
  destruct task as [it qtos_]; unfold run_task.
  apply (returns_bind _ _ _ (λ _, True)); [apply initialize_frame |].
  intros [[] it'] _; [apply run_iterator_frame | frame].
Qed.

Lemma IfcOpenShell_calculate_frame els qtos results f :
  returns (IfcOpenShell_calculate els qtos results) f (λ _, True).
Proof.
  unfold IfcOpenShell_calculate. cbv zeta.
  frame_bind; [frame |]. frame_bind; [apply classify_formulas_frame |].
  frame_bind; [apply create_tasks_frame |].
  frame_bind; [apply SI2ProjectUnitConverter_init_frame |].
  frame. apply run_task_frame.
Qed.

Lemma Blender_quantity_frame converter obj st item f :
  returns (Blender_quantity converter obj st item) f (λ _, True).
Proof. unfold Blender_quantity. frame. Qed.

Lemma Blender_element_frame converter qtos st element f :
  returns (Blender_element converter qtos st element) f (λ _, True).
Proof.
  unfold Blender_element. destruct st as [ff results].
  destruct (get_object element); [| frame].
  case_bool_decide; [frame |].
  apply (returns_bind _ _ _ (λ _, True)); [| frame].
  apply (returns_foldM _ _ _ _ (λ _, True)); [exact I |].
  intros [ff' er] [name_ quantities] _ _.
  apply (returns_bind _ _ _ (λ _, True)); [| frame].
  apply (returns_foldM _ _ _ _ (λ _, True)); [exact I |].
  intros; apply Blender_quantity_frame.
Qed.

Lemma Blender_calculate_frame els qtos results f :
  returns (Blender_calculate els qtos results) f (λ _, True).
Proof.
  unfold Blender_calculate.
  frame_bind; [apply SI2ProjectUnitConverter_init_frame |].
  apply (returns_bind _ _ _ (λ _, True)); [| frame].
  apply (returns_foldM _ _ _ _ (λ _, True)); [exact I |].
  intros; apply Blender_element_frame.
Qed.

Lemma group_by_class_frame els f : returns (group_by_class els) f (λ _, True).
Proof. unfold group_by_class. frame. Qed.

Lemma calculators_lookup name_ calculator :
  calculators !! name_ = Some calculator →
  (name_ = "IfcOpenShell" ∧ calculator = IfcOpenShell)
  ∨ (name_ = "Blender" ∧ calculator = Blender).
Proof.
  unfold calculators. intros Hc.
  apply lookup_insert_Some in Hc as [[<- <-]|[_ Hc]]; [by left |].
  apply lookup_singleton_Some in Hc as [<- <-]. by right.
Qed.

Lemma calculate_frame name_ calculator els qtos results f :
  calculators !! name_ = Some calculator →
  returns (calculate calculator els qtos results) f (λ _, True).
Proof.
  intros [[_ ->]|[_ ->]]%calculators_lookup; simpl.
  - apply IfcOpenShell_calculate_frame.
  - apply Blender_calculate_frame.
Qed.

Lemma quantify_frame els rules f : returns (quantify els rules) f (λ _, True).
Proof.
  unfold quantify, quantify_with.
  frame_bind; [apply group_by_class_frame |].
  apply (returns_foldM _ _ _ _ (λ _, True)); [exact I |].
  intros results [name_ queries] _ _.
  apply (returns_bind _ _ _ (λ c, calculators !! name_ = Some c)); [by step |].
  intros calculator Hcalculator.
  apply (returns_foldM _ _ _ _ (λ _, True)); [exact I |].
  intros results' [ifc_class qtos] _ _.
  frame_bind; [frame |]. cbv zeta.
  destruct (decide _); [frame |]. by eapply calculate_frame.
Qed.

(** *** The grouping of the input elements by class *)

Lemma group_by_class_run els f :
  group_by_class els f = Ok (grouped f (elements els) ∅, f).
Proof.
  unfold group_by_class. generalize (∅ : gmap string (gset positive)).
  induction (elements els) as [|e l IH]; intros m; simpl; [done |].
  rewrite bind_run. simpl. apply IH.
Qed.

Lemma grouped_lookup f l start c e :
  e ∈ grouped f l start !!! c ↔ e ∈ start !!! c ∨ (e ∈ l ∧ is_a f e = c).
Proof.
  revert start. induction l as [|x l IH]; intros start; simpl.
  - rewrite elem_of_nil. tauto.
  - rewrite IH, elem_of_cons. destruct (decide (is_a f x = c)) as [<-|Hne].
    + rewrite lookup_total_insert_eq. set_solver.
    + rewrite lookup_total_insert_ne by done. set_solver.
Qed.

Lemma filter_elements_spec (m : gmap string (gset positive)) classes e :
  e ∈ filter_elements m classes ↔ ∃ c, c ∈ classes ∧ e ∈ m !!! c.
Proof.
  unfold filter_elements.
  cut (∀ acc : gset positive,
         e ∈ foldl (λ filtered c,
                      match m !! c with
                      | None => filtered
                      | Some group => filtered ∪ group
                      end) acc classes
         ↔ e ∈ acc ∨ ∃ c, c ∈ classes ∧ e ∈ m !!! c).
  { intros Hgen. rewrite Hgen. set_solver. }
  induction classes as [|c classes IH]; intros acc; simpl.
  - split; [by left |]. intros [?|(c & Hc & _)]; [done | by apply elem_of_nil in Hc].
  - rewrite IH. split.
    + intros [Hacc|(c' & Hc' & He)].
      * destruct (m !! c) as [group|] eqn:Hc; [| by left].
        apply elem_of_union in Hacc as [?|?]; [by left |].
        right. exists c. split; [left |]. by rewrite lookup_total_alt, Hc.
      * right. exists c'. split; [by right | done].
    + intros [Hacc|(c' & Hc' & He)].
      * left. destruct (m !! c); [apply elem_of_union; by left | done].
      * apply elem_of_cons in Hc' as [->|Hc']; [| right; by exists c'].
        left. rewrite lookup_total_alt in He.
        destruct (m !! c); simpl in He; [apply elem_of_union; by right |].
        by apply not_elem_of_empty in He.
Qed.

Lemma filter_elements_grouped f els ifc_class applicable :
  filter_elements (grouped f (elements els) ∅) (ifc_class :: applicable)
  = filter (λ element, is_a f element = ifc_class ∨ is_a f element ∈ applicable) els.
Proof.
  apply set_eq. intros e.
  rewrite filter_elements_spec, elem_of_filter.
  setoid_rewrite grouped_lookup. setoid_rewrite elem_of_elements.
  setoid_rewrite lookup_total_empty. setoid_rewrite elem_of_cons. split.
  - intros (c & [->|Hc] & [[]%not_elem_of_empty|[He <-]]); auto.
  - intros [[<-|Hc] He]; eauto 6.
Qed.

(** C1: for every rule entry keyed by an IFC class, [quantify] invokes the
    entry's calculator on exactly the input elements whose class is that
    class or one of its applicable types for the file's schema, and does
    not invoke it when there is no such element.  The calculator table is
    arbitrary, so the equation fixes the calls themselves. *)
Theorem quantify_dispatch_by_class els rules f :
  quantify els rules f = quantify_by_rule_entry calculators els rules f
  ∧ ∀ table,
      quantify_with table els rules f = quantify_by_rule_entry table els rules f.
Proof.
  cut (∀ table,
         quantify_with table els rules f = quantify_by_rule_entry table els rules f).
  { intros Hall. split; [apply Hall | exact Hall]. }
  intros table. unfold quantify_with, quantify_by_rule_entry.
  rewrite !bind_run, group_by_class_run. simpl.
  apply foldM_ext. intros results [calculator queries] f1 _.
  rewrite !bind_run. destruct (from_option _ _ f1) as [[c f2]|]; [| done].
  apply foldM_ext. intros results' [ifc_class qtos] f3 _.
  rewrite !bind_run. simpl.
  by rewrite filter_elements_grouped.
Qed.

(** *** The calculator table *)

Lemma foldM_ok_elem {S A B} (g : A → B → M S A) (l : list B) a s r s' b :
  foldM g a l s = Ok (r, s') → b ∈ l →
  ∃ a1 s1 a2 s2, g a1 b s1 = Ok (a2, s2).
Proof.
  revert a s. induction l as [|x l IH]; intros a s Hrun Hb; [by inversion Hb |].
  simpl in Hrun. apply bind_ok in Hrun as (a' & s1 & Hx & Hrest).
  apply elem_of_cons in Hb as [->|Hb]; eauto.
Qed.

(** C7: [quantify] returns without having modified the IFC file. *)
Theorem quantify_leaves_file_unchanged els rules f results f' :
  quantify els rules f = Ok (results, f') → f' = f.
Proof. intros Hrun. by destruct (quantify_frame els rules f _ _ Hrun). Qed.
(** *** The iterators that [create_iterators] builds *)

Lemma sorted_run f l start :
  foldM (λ (sorted : gmap bool (list positive)) element,
           k ← read (λ f, is_a_kind f element "IfcTypeProduct");
           mret (<[k := (sorted !!! k) ++ [element]]> sorted)) start l f
  = Ok (sorted f l start, f).
Proof.
  revert start. induction l as [|e l IH]; intros start; simpl; [done |].
  rewrite bind_run. simpl. apply IH.
Qed.

Lemma sorted_lookup f l start k :
  sorted f l start !! k
  = match of_kind f k l with
    | [] => start !! k
    | _ => Some ((start !!! k) ++ of_kind f k l)
    end.
Proof.
  revert start. induction l as [|e l IH]; intros start; simpl; [done |].
  rewrite IH. unfold of_kind. rewrite filter_cons.
  destruct (decide (is_a_kind f e "IfcTypeProduct" = k)) as [<-|Hne].
  - rewrite lookup_insert_eq, lookup_total_insert_eq.
    destruct (filter _ l); simpl; [done |]. by rewrite <- app_assoc.
  - rewrite lookup_insert_ne, lookup_total_insert_ne by done. done.
Qed.

Lemma sorted_empty f l k :
  sorted f l ∅ !! k
  = match of_kind f k l with [] => None | _ => Some (of_kind f k l) end.
Proof.
  rewrite sorted_lookup, lookup_empty, lookup_total_empty.
  by destruct (of_kind f k l).
Qed.

Lemma geom_iterator_init_run settings_ num_threads include f :
  geom_iterator_init settings_ num_threads include f
  = if forallb (λ inst, is_a_kind f inst "IfcProduct") include
    then Ok ({| gi_settings := settings_; gi_num_threads := num_threads;
                gi_include := include;
                gi_pending := geom_shapes settings_ f num_threads include |}, f)
    else Raise ValueError.
Proof.
  unfold geom_iterator_init. rewrite bind_run. unfold read at 1. cbv beta iota.
  by destruct (forallb _ include).
Qed.

(** What [create_iterators] returns: an [IteratorForTypes] over the type
    products when there is one, then a geometry iterator over the whole
    list when some element is not a type product. *)
Lemma create_iterators_run settings_ l f its f' :
  create_iterators settings_ l f = Ok (its, f') →
  f' = f
  ∧ ∃ for_types,
      its = for_types
            ++ match of_kind f false l with
               | [] => []
               | _ => [Geom {| gi_settings := settings_;
                               gi_num_threads := cpu_count;
                               gi_include := l;
                               gi_pending := geom_shapes settings_ f cpu_count l |}]
               end
      ∧ match of_kind f true l with
        | [] => for_types = []
        | types =>
            ∃ model, get_context f "Model" "Body" "MODEL_VIEW" = Some model
              ∧ for_types = [ForTypes {| ift_settings := settings_;
                                         ift_elements := types;
                                         ift_element := None;
                                         ift_shape := None;
                                         ift_context := model |}]
        end.
Proof.
  unfold create_iterators. rewrite bind_run, sorted_run, !sorted_empty.
  intros Hrun. apply bind_ok in Hrun as (for_types & f1 & Htypes & Hrun).
  assert (f1 = f ∧ match of_kind f true l with
        | [] => for_types = []
        | types =>
            ∃ model, get_context f "Model" "Body" "MODEL_VIEW" = Some model
              ∧ for_types = [ForTypes {| ift_settings := settings_;
                                         ift_elements := types;
                                         ift_element := None;
                                         ift_shape := None;
                                         ift_context := model |}]
        end) as [-> Hfor].
  { destruct (of_kind f true l) as [|e types]; [by injection Htypes as <- <- |].
    unfold IteratorForTypes_init in Htypes. rewrite !bind_run in Htypes.
    simpl in Htypes.
    destruct (get_context f "Model" "Body" "MODEL_VIEW") as [model|]; [| done].
    simpl in Htypes. injection Htypes as <- <-. eauto. }
  destruct (of_kind f false l) as [|e products].
  - injection Hrun as <- <-. split; [done |]. exists for_types.
    by rewrite app_nil_r.
  - rewrite bind_run, geom_iterator_init_run in Hrun.
    destruct (forallb _ l); [| done].
    injection Hrun as <- <-. split; [done |]. by exists for_types.
Qed.

(** [create_iterators] case by case: the assertion of [IteratorForTypes]
    comes first, then the check of the geometry iterator. *)
Lemma create_iterators_cases settings_ l f :
  create_iterators settings_ l f
  = let geom :=
      Geom {| gi_settings := settings_; gi_num_threads := cpu_count;
              gi_include := l;
              gi_pending := geom_shapes settings_ f cpu_count l |} in
    let with_geom for_types :=
      match of_kind f false l with
      | [] => Ok (for_types, f)
      | _ => if forallb (λ inst, is_a_kind f inst "IfcProduct") l
             then Ok (for_types ++ [geom], f) else Raise ValueError
      end in
    match of_kind f true l with
    | [] => with_geom []
    | types =>
        match get_context f "Model" "Body" "MODEL_VIEW" with
        | None => Raise AssertionError
        | Some model =>
            with_geom [ForTypes {| ift_settings := settings_;
                                   ift_elements := types;
                                   ift_element := None;
                                   ift_shape := None;
                                   ift_context := model |}]
        end
    end.
Proof.
  cbv zeta. unfold create_iterators. rewrite bind_run, sorted_run, !sorted_empty.
  destruct (of_kind f true l) as [|e types].
  - rewrite bind_run, ret_run.
    destruct (of_kind f false l); [done |].
    rewrite bind_run, geom_iterator_init_run. by destruct (forallb _ l).
  - unfold IteratorForTypes_init. rewrite !bind_run. unfold read at 1.
    cbv beta iota.
    destruct (get_context f "Model" "Body" "MODEL_VIEW") as [model|]; [| done].
    cbn [from_option]. rewrite ?bind_run. unfold ret at 1. cbv beta iota.
    rewrite ?ret_run. cbv beta iota.
    destruct (of_kind f false l); [done |].
    rewrite bind_run, geom_iterator_init_run. by destruct (forallb _ l).
Qed.

(** *** The keys of the results *)

Lemma process_shape_within self element f :
  returns (process_shape self element) f
    (λ r, ift_elements r.2 = ift_elements self
          ∧ (ift_element r.2 = ift_element self ∨ ift_element r.2 = Some element)).
Proof.
  unfold process_shape.
  apply (returns_bind _ _ _ (λ _, True)); [by step |]. intros [rep|] _.
  - apply (returns_bind _ _ _ (λ _, True)); [by step |]. intros shape _.
    step. simpl. auto.
  - step. simpl. auto.
Qed.

Lemma next_from_within stack self f D :
  (∀ e, e ∈ stack → e ∈ D) → (∀ e, ift_element self = Some e → e ∈ D) →
  returns (next_from stack self) f (λ r, iterator_within f D (ForTypes r.2)).
Proof.
  revert self. induction stack as [|element below IH]; intros self Hstack Hself; simpl.
  - step. simpl. split; [by intros e ?%elem_of_nil | done].
  - eapply returns_bind; [apply process_shape_within |].
    intros [found self'] [Hels Hel]. simpl in Hels, Hel.
    assert (∀ e, ift_element self' = Some e → e ∈ D) as Hself'.
    { intros e He. destruct Hel as [Hel|Hel]; rewrite Hel in He.
      - by apply Hself.
      - injection He as <-. apply Hstack. left. }
    destruct found.
    + step. simpl. split; [| done]. intros e. rewrite Hels. simpl.
      rewrite elem_of_reverse. intros. apply Hstack. by right.
    + apply IH; [| done]. intros e ?. apply Hstack. by right.
Qed.

Lemma IteratorForTypes_next_within self f D :
  iterator_within f D (ForTypes self) →
  returns (IteratorForTypes_next self) f (λ r, iterator_within f D (ForTypes r.2)).
Proof.
  intros [Hels Hel]. unfold IteratorForTypes_next.
  destruct (ift_elements self) as [|e l] eqn:Hl.
  - step. simpl. rewrite Hl. split; [by intros e ?%elem_of_nil | done].
  - apply next_from_within; [| done]. intros x. rewrite elem_of_reverse. apply Hels.
Qed.

Lemma geom_next_within g f D :
  iterator_within f D (Geom g) →
  iterator_within f D (Geom (geom_iterator_next g).2).
Proof.
  simpl. intros Hg id geo e Hin. apply (Hg id geo e).
  destruct (gi_pending g); [done | by right].
Qed.

Lemma initialize_within it f D :
  iterator_within f D it →
  returns (initialize it) f (λ r, iterator_within f D r.2).
Proof.
  intros Hit. destruct it as [g|t]; simpl initialize.
  - by step.
  - eapply returns_bind; [by apply IteratorForTypes_next_within |].
    intros [b t'] Ht'. by step.
Qed.

Lemma next_within it f D :
  iterator_within f D it → returns (next it) f (λ r, iterator_within f D r.2).
Proof.
  intros Hit. destruct it as [g|t]; simpl next.
  - step. by apply geom_next_within.
  - eapply returns_bind; [by apply IteratorForTypes_next_within |].
    intros [b t'] Ht'. by step.
Qed.

Lemma current_within it f D :
  iterator_within f D it → returns (current it) f (λ r, r.1 ∈ D).
Proof.
  intros Hit. destruct it as [g|t]; simpl current.
  - unfold geom_iterator_get.
    apply (returns_bind _ _ _ (λ r, r ∈ gi_pending g)).
    { step. destruct (gi_pending g); simplify_eq/=. left. }
    intros [id geo] Hin.
    apply (returns_bind _ _ _ (λ r, r = by_id f id)); [by step |].
    intros o ->. apply (returns_bind _ _ _ (λ e, by_id f id = Some e)); [by step |].
    intros e He. step. simpl. by eapply Hit.
  - unfold get_element_and_geometry. destruct Hit as [_ Hel].
    destruct (ift_element t) as [e|]; [| step].
    destruct (ift_shape t); step. simpl. by apply Hel.
Qed.

Lemma dom_setdefault_element element (results : ResultsDict) :
  dom (setdefault_element element results) = {[element]} ∪ dom results.
Proof.
  unfold setdefault_element. destruct (results !! element) eqn:He.
  - apply elem_of_dom_2 in He. set_solver.
  - by rewrite dom_insert_L.
Qed.

Lemma dom_setdefault_name element name_ (results : ResultsDict) :
  dom (setdefault_name element name_ results) ⊆ {[element]} ∪ dom results.
Proof.
  unfold setdefault_name. destruct (_ !! name_); [set_solver |].
  rewrite dom_insert_L. set_solver.
Qed.

Lemma dom_set_quantity element name_ quantity value (results : ResultsDict) :
  dom (set_quantity element name_ quantity value results) = {[element]} ∪ dom results.
Proof. unfold set_quantity. by rewrite dom_insert_L. Qed.

Lemma store_quantity_keys cls ff element g name_ results item f D :
  element ∈ D → dom results ⊆ D →
  returns (store_quantity cls ff element g name_ results item) f (λ r, dom r ⊆ D).
Proof.
  intros He Hr. unfold store_quantity. destruct item as [quantity formula].
  case_bool_decide.
  - apply (returns_bind _ _ _ (λ _, True)); [apply get_segment_length_frame |].
    intros v _. step. rewrite dom_set_quantity. set_solver.
  - apply (returns_bind _ _ _ (λ _, True)); [by step |]. intros fn _.
    apply (returns_bind _ _ _ (λ _, True)); [by step |]. intros raw _.
    apply (returns_bind _ _ _ (λ _, True)); [by step |]. intros func _.
    apply (returns_bind _ _ _ (λ _, True)); [by step |]. intros v _.
    step. rewrite dom_set_quantity. set_solver.
Qed.

Lemma store_quantities_keys cls ff qtos_ results item f D :
  item.1 ∈ D → dom results ⊆ D →
  returns (store_quantities cls ff qtos_ results item) f (λ r, dom r ⊆ D).
Proof.
  intros He Hr. unfold store_quantities. destruct item as [element g]. simpl in He.
  apply (returns_foldM _ _ _ _ (λ r : ResultsDict, dom r ⊆ D)).
  { rewrite dom_setdefault_element. set_solver. }
  intros r [name_ quantities] _ Hr'.
  apply (returns_foldM _ _ _ _ (λ r : ResultsDict, dom r ⊆ D)).
  { pose proof (dom_setdefault_name element name_ r). set_solver. }
  intros r' item _ Hr''. by apply store_quantity_keys.
Qed.

Lemma run_iterator_keys budget cls ff qtos_ it results f D :
  iterator_within f D it → dom results ⊆ D →
  returns (run_iterator budget cls ff qtos_ it results) f (λ r, dom r ⊆ D).
Proof.
  revert it results. induction budget as [|budget IH]; intros it results Hit Hr; simpl.
  - step.
  - eapply returns_bind; [by apply current_within |]. intros item Hitem. cbv beta in Hitem.
    eapply returns_bind; [by apply store_quantities_keys |]. intros r Hr'.
    eapply returns_bind; [by apply next_within |]. intros [[] it'] Hit'; cbv beta in *.
    + by apply IH.
    + by step.
Qed.

Lemma run_task_keys cls ff results task f D :
  iterator_within f D task.1 → dom results ⊆ D →
  returns (run_task cls ff results task) f (λ r, dom r ⊆ D).
Proof.
  destruct task as [it qtos_]. intros Hit Hr. unfold run_task.
  eapply returns_bind; [by apply initialize_within |]. intros [[] it'] Hit'; cbv beta in *.
  - by apply run_iterator_keys.
  - by step.
Qed.
Lemma of_kind_elem f k l e : e ∈ of_kind f k l → e ∈ l.
Proof. unfold of_kind. by intros [_ ?]%list_elem_of_filter. Qed.

Lemma create_iterators_settings settings_ l f its f' it :
  create_iterators settings_ l f = Ok (its, f') → it ∈ its →
  iterator_settings it = settings_.
Proof.
  intros (_ & for_types & -> & Htypes)%create_iterators_run Hit.
  apply elem_of_app in Hit as [Hit|Hit].
  - destruct (of_kind f true l); [subst; by inversion Hit |].
    destruct Htypes as (model & _ & ->). by apply list_elem_of_singleton in Hit as ->.
  - destruct (of_kind f false l); [by inversion Hit |].
    by apply list_elem_of_singleton in Hit as ->.
Qed.

Lemma create_iterators_within settings_ l f its f' it :
  include_respected →
  create_iterators settings_ l f = Ok (its, f') → it ∈ its →
  iterator_within f (list_to_set l) it.
Proof.
  intros Hgeom (_ & for_types & -> & Htypes)%create_iterators_run Hit.
  apply elem_of_app in Hit as [Hit|Hit].
  - destruct (of_kind f true l) as [|e types] eqn:Hkind; [subst; by inversion Hit |].
    destruct Htypes as (model & _ & ->). apply list_elem_of_singleton in Hit as ->.
    simpl. split; [| done]. intros x Hx. apply elem_of_list_to_set.
    apply (of_kind_elem f true). by rewrite Hkind.
  - destruct (of_kind f false l); [by inversion Hit |].
    apply list_elem_of_singleton in Hit as ->. simpl.
    intros id geo e Hin He. apply elem_of_list_to_set. by eapply Hgeom.
Qed.

(** The tasks of [calculate]: the iterators for the gross table, when it
    is not empty, then the same iterators again for the net table, when
    that is not empty. *)
Lemma create_tasks_run gs ns els t f tasks f' :
  create_tasks gs ns els t f = Ok (tasks, f') →
  f' = f
  ∧ ∃ its,
      (gross_qtos t = ∅ ∧ net_qtos t = ∅
       ∨ create_iterators gs (elements els) f = Ok (its, f))
      ∧ tasks = (if decide (gross_qtos t = ∅) then []
                 else (λ it, (it, gross_qtos t)) <$> its)
                ++ (if decide (net_qtos t = ∅) then []
                    else (λ it, (it, net_qtos t)) <$> its).
Proof.
  unfold create_tasks. intros Hrun.
  apply bind_ok in Hrun as (tasks1 & f1 & Hgross & Hrun).
  destruct (decide (gross_qtos t = ∅)) as [Hg|Hg].
  - injection Hgross as <- <-.
    destruct (decide (net_qtos t = ∅)) as [Hn|Hn].
    + injection Hrun as <- <-. split; [done |]. exists []. auto.
    + apply bind_ok in Hrun as (its & f2 & Hits & Hrun).
      injection Hrun as <- <-.
      destruct (create_iterators_frame _ _ _ _ _ Hits) as [-> _]. eauto.
  - apply bind_ok in Hgross as (its & f2 & Hits & Hgross).
    injection Hgross as <- <-.
    destruct (create_iterators_frame _ _ _ _ _ Hits) as [-> _].
    destruct (decide (net_qtos t = ∅)) as [Hn|Hn].
    + injection Hrun as <- <-. split; [done |]. exists its.
      rewrite app_nil_r. auto.
    + apply bind_ok in Hrun as (its' & f2 & Hits' & Hrun).
      rewrite Hits in Hits'. injection Hits' as <- <-.
      injection Hrun as <- <-. eauto.
Qed.

Lemma create_tasks_iterators gs ns els t f tasks f' task :
  create_tasks gs ns els t f = Ok (tasks, f') → task ∈ tasks →
  ∃ its, create_iterators gs (elements els) f = Ok (its, f) ∧ task.1 ∈ its
         ∧ (task.2 = gross_qtos t ∧ gross_qtos t ≠ ∅
            ∨ task.2 = net_qtos t ∧ net_qtos t ≠ ∅).
Proof.
  intros (_ & its & Hits & ->)%create_tasks_run Htask. exists its.
  apply elem_of_app in Htask as [Htask|Htask].
  - destruct (decide (gross_qtos t = ∅)) as [Hg|Hg]; [by inversion Htask |].
    destruct Hits as [[? _]|Hits]; [done |].
    apply list_elem_of_fmap in Htask as (it & -> & Hit). auto.
  - destruct (decide (net_qtos t = ∅)) as [Hn|Hn]; [by inversion Htask |].
    destruct Hits as [[_ ?]|Hits]; [done |].
    apply list_elem_of_fmap in Htask as (it & -> & Hit). auto.
Qed.

(** Every task, for the net table as for the gross table, iterates with
    the first settings argument, [cls.gross_settings]. *)
Lemma create_tasks_settings gs ns els t f tasks f' task :
  create_tasks gs ns els t f = Ok (tasks, f') → task ∈ tasks →
  iterator_settings task.1 = gs.
Proof.
  intros Hrun Htask.
  destruct (create_tasks_iterators _ _ _ _ _ _ _ _ Hrun Htask) as (its & Hits & Hit & _).
  by eapply create_iterators_settings.
Qed.

Lemma IfcOpenShell_calculate_keys els qtos results f :
  include_respected →
  returns (IfcOpenShell_calculate els qtos results) f
    (λ r, dom r ⊆ dom results ∪ els).
Proof.
  intros Hgeom. unfold IfcOpenShell_calculate. cbv zeta.
  frame_bind; [frame |]. frame_bind; [apply classify_formulas_frame |].
  set (gs := <["disable-opening-subtractions":=true]> ∅).
  apply (returns_bind _ _ _
           (λ tasks, ∀ task, task ∈ tasks → iterator_within f els task.1)).
  { intros tasks f' Htasks.
    destruct (create_tasks_frame _ _ _ _ _ _ _ Htasks) as [-> _]. split; [done |].
    intros task Htask.
    destruct (create_tasks_iterators _ _ _ _ _ _ _ _ Htasks Htask)
      as (its & Hits & Hit & _).
    pose proof (create_iterators_within _ _ _ _ _ _ Hgeom Hits Hit) as Hin.
    by rewrite list_to_set_elements_L in Hin. }
  intros tasks Htasks.
  frame_bind; [apply SI2ProjectUnitConverter_init_frame |].
  apply (returns_foldM _ _ _ _ (λ r : ResultsDict, dom r ⊆ dom results ∪ els));
    [set_solver |].
  intros r task Htask Hr. apply run_task_keys; [| done].
  destruct task as [[g|t] q]; simpl.
  - intros id geo e Hin He. apply elem_of_union. right.
    by apply (Htasks _ Htask id geo e).
  - destruct (Htasks _ Htask) as [H1 H2]. set_solver.
Qed.

Lemma Blender_element_keys converter qtos st element f D :
  element ∈ D → dom st.2 ⊆ D →
  returns (Blender_element converter qtos st element) f (λ r, dom r.2 ⊆ D).
Proof.
  intros He Hst. pose proof (Blender_element_frame converter qtos st element f) as Hframe.
  intros [ff r] f' Hrun. destruct (Hframe _ _ Hrun) as [-> _]. split; [done |].
  unfold Blender_element in Hrun. destruct st as [ff0 results]. simpl in *.
  destruct (get_object element); [| by injection Hrun as <- <-].
  case_bool_decide; [by injection Hrun as <- <- |].
  apply bind_ok in Hrun as ([ff1 element_results] & f1 & _ & Hrun).
  destruct (decide (element_results = ∅)); injection Hrun as <- <- <-; [done |].
  rewrite dom_insert_L. set_solver.
Qed.

Lemma Blender_calculate_keys els qtos results f :
  returns (Blender_calculate els qtos results) f (λ r, dom r ⊆ dom results ∪ els).
Proof.
  unfold Blender_calculate.
  frame_bind; [apply SI2ProjectUnitConverter_init_frame |].
  apply (returns_bind _ _ _ (λ r, dom r.2 ⊆ dom results ∪ els)).
  - apply (returns_foldM _ _ _ _
             (λ r : gmap string (blender_object → option float) * ResultsDict,
                dom r.2 ⊆ dom results ∪ els)); [simpl; set_solver |].
    intros st element Hel Hst. apply Blender_element_keys; [| done].
    apply elem_of_elements in Hel. set_solver.
  - intros [ff r] Hr. by step.
Qed.

Lemma quantify_keys els rules f :
  include_respected → returns (quantify els rules) f (λ r, dom r ⊆ els).
Proof.
  intros Hgeom. unfold quantify, quantify_with.
  apply (returns_bind _ _ _ (λ m, m = grouped f (elements els) ∅)).
  { intros m f'. rewrite group_by_class_run. by intros [= <- <-]. }
  intros m ->.
  apply (returns_foldM _ _ _ _ (λ r : ResultsDict, dom r ⊆ els)); [set_solver |].
  intros results [group queries] _ Hr.
  apply (returns_bind _ _ _ (λ c, calculators !! group = Some c)); [by step |].
  intros calculator Hcalculator.
  apply (returns_foldM _ _ _ _ (λ r : ResultsDict, dom r ⊆ els)); [done |].
  intros results' [ifc_class qtos] _ Hr'.
  apply (returns_bind _ _ _ (λ sch, sch = schema f)); [by step |]. intros ? ->.
  cbv zeta. rewrite filter_elements_grouped.
  destruct (decide _); [by step |].
  eapply returns_weaken.
  - apply calculators_lookup in Hcalculator as [[_ ->]|[_ ->]]; simpl.
    + by apply IfcOpenShell_calculate_keys.
    + apply Blender_calculate_keys.
  - simpl. intros r Hdom. set_solver.
Qed.

(** C6: when the geometry iterator yields shapes of included elements
    only, every key of the results that [quantify] returns is one of the
    input elements, and neither calculator adds a key outside the
    elements it was asked for. *)
Theorem results_keys_are_requested_elements :
  include_respected →
  (∀ els rules f results f',
     quantify els rules f = Ok (results, f') → dom results ⊆ els)
  ∧ (∀ els qtos results0 f results f',
       IfcOpenShell_calculate els qtos results0 f = Ok (results, f') →
       dom results ⊆ dom results0 ∪ els)
  ∧ (∀ els qtos results0 f results f',
       Blender_calculate els qtos results0 f = Ok (results, f') →
       dom results ⊆ dom results0 ∪ els).
Proof.
  intros Hgeom. split; [| split].
  - intros els rules f results f' Hrun.
    by destruct (quantify_keys els rules f Hgeom _ _ Hrun).
  - intros els qtos results0 f results f' Hrun.
    by destruct (IfcOpenShell_calculate_keys els qtos results0 f Hgeom _ _ Hrun).
  - intros els qtos results0 f results f' Hrun.
    by destruct (Blender_calculate_keys els qtos results0 f _ _ Hrun).
Qed.
(** *** Unit conversion of the stored values *)

Lemma SI2ProjectUnitConverter_init_run f :
  ∃ converter,
    SI2ProjectUnitConverter_init f = Ok (converter, f)
    ∧ ∀ value measure_,
        convert converter value measure_ = Ok (in_project_unit f measure_ value).
Proof.
  eexists. split; [reflexivity |]. intros value measure_.
  unfold convert, in_project_unit, unit_types, measure_units. simpl.
  rewrite lookup_fmap, !lookup_insert, !lookup_empty.
  repeat case_decide; simplify_eq/=; try done;
    by destruct (get_project_unit _ _).
Qed.

Lemma get_set_quantity e n q x n' q' v (r : ResultsDict) :
  get_quantity e n q (set_quantity x n' q' v r)
  = if decide (e = x ∧ n = n' ∧ q = q') then Some v else get_quantity e n q r.
Proof.
  unfold get_quantity, set_quantity.
  destruct (decide (e = x)) as [->|Hne].
  - rewrite lookup_insert_eq. simpl.
    destruct (decide (n = n')) as [->|Hn].
    + rewrite lookup_insert_eq. simpl.
      destruct (decide (q = q')) as [->|Hq].
      * rewrite lookup_insert_eq. by rewrite decide_True.
      * rewrite lookup_insert_ne by done. rewrite decide_False by tauto.
        rewrite !lookup_total_alt.
        destruct (r !! x) as [qtos|]; simpl; [| done].
        by destruct (qtos !! n').
    + rewrite lookup_insert_ne by done. rewrite decide_False by tauto.
      rewrite lookup_total_alt. by destruct (r !! x).
  - rewrite lookup_insert_ne by done. by rewrite decide_False by tauto.
Qed.

Lemma get_setdefault_element e n q x (r : ResultsDict) :
  get_quantity e n q (setdefault_element x r) = get_quantity e n q r.
Proof.
  unfold get_quantity, setdefault_element.
  destruct (r !! x) eqn:Hx; [done |].
  destruct (decide (e = x)) as [->|Hne].
  - by rewrite lookup_insert_eq, Hx.
  - by rewrite lookup_insert_ne.
Qed.

Lemma get_setdefault_name e n q x n' (r : ResultsDict) :
  get_quantity e n q (setdefault_name x n' r) = get_quantity e n q r.
Proof.
  unfold get_quantity, setdefault_name.
  destruct ((r !!! x) !! n') eqn:Hn; [done |].
  rewrite lookup_total_alt in Hn.
  destruct (decide (e = x)) as [->|Hne].
  - rewrite lookup_insert_eq. simpl. rewrite lookup_total_alt.
    destruct (decide (n = n')) as [->|Hn'].
    + rewrite lookup_insert_eq. simpl.
      destruct (r !! x) as [qtos|]; simpl in *; [by rewrite Hn | done].
    + rewrite lookup_insert_ne by done. by destruct (r !! x).
  - by rewrite lookup_insert_ne.
Qed.

Lemma classify_formula_functions name_ quantity formula t f :
  (∀ k fn, formula_functions t !! k = Some fn → shape_function k = Some fn) →
  returns (classify_formula name_ quantity formula t) f
    (λ t', ∀ k fn, formula_functions t' !! k = Some fn → shape_function k = Some fn).
Proof.
  intros Ht. unfold classify_formula.
  destruct formula as [formula|]; [| by step].
  case_bool_decide; [by step |]. cbv zeta.
  destruct (endswith formula "get_segment_length").
  { step. by destruct (startswith formula "gross_"). }
  destruct (_ || _); [| by step].
  apply (returns_bind _ _ _
           (λ fn, shape_function (partition_tail "_" formula) = Some fn));
    [by step |].
  intros fn Hfn. step. simpl. intros k fn'.
  rewrite lookup_insert. case_decide as Hk.
  - intros [= <-]. by rewrite <- Hk.
  - destruct (startswith formula "gross_"); apply Ht.
Qed.

Lemma classify_formulas_functions qtos f :
  returns (classify_formulas qtos) f
    (λ t, ∀ k fn, formula_functions t !! k = Some fn → shape_function k = Some fn).
Proof.
  unfold classify_formulas.
  apply (returns_foldM _ _ _ _
    (λ t, ∀ k fn, formula_functions t !! k = Some fn → shape_function k = Some fn)).
  { simpl. intros k fn. by rewrite lookup_empty. }
  intros t [name_ quantities] _ Ht.
  apply (returns_foldM _ _ _ _
    (λ t, ∀ k fn, formula_functions t !! k = Some fn → shape_function k = Some fn));
    [done |].
  intros t' [quantity formula] _ Ht'. by apply classify_formula_functions.
Qed.

(** *** The loop over an iterator is a loop over what it yields *)

Lemma frame_run {A} (m : M file A) f :
  returns m f (λ _, True) →
  m f = match m f with Ok (a, _) => Ok (a, f) | Raise e => Raise e end.
Proof.
  intros Hm. destruct (m f) as [[a f']|e] eqn:Hrun; [| done].
  by destruct (Hm _ _ Hrun) as [-> _].
Qed.

Lemma next_from_yields stack t f :
  ∃ b t',
    next_from stack t f = Ok ((b, t'), f)
    ∧ ift_settings t' = ift_settings t ∧ ift_context t' = ift_context t
    ∧ match omap (type_shape f (ift_settings t) (ift_context t)) stack with
      | [] => b = false
      | shape :: rest =>
          b = true
          ∧ ift_element t' = shape.1 ∧ ift_shape t' = Some shape.2
          ∧ omap (type_shape f (ift_settings t) (ift_context t))
                 (reverse (ift_elements t')) = rest
          ∧ length (ift_elements t') < length stack
      end.
Proof.
  revert t. induction stack as [|element below IH]; intros t.
  - by exists false, (with_elements t []).
  - change (omap ?g (element :: below))
      with (match g element with Some y => y :: omap g below | None => omap g below end).
    cbn [next_from]. rewrite bind_run. unfold process_shape. rewrite bind_run.
    unfold type_shape at 1. cbn [read with_elements ift_context ift_settings].
    destruct (get_representation f element (ByContext (ift_context t)))
      as [representation|]; cbn [mbind option_bind].
    + eexists true, _. split; [reflexivity |].
      cbn [ift_settings ift_context ift_element ift_shape ift_elements fst snd length
           with_elements].
      rewrite reverse_involutive, length_reverse. repeat split; lia.
    + destruct (IH (with_elements t (reverse below))) as (b & t' & Hrun & Hs & Hc & Hrest).
      exists b, t'. cbn in Hs, Hc, Hrest. split; [exact Hrun |].
      split; [done |]. split; [done |].
      destruct (omap _ below); [done |].
      destruct Hrest as (? & ? & ? & ? & ?). repeat split; try done. cbn [length]. lia.
Qed.

Lemma IteratorForTypes_next_yields t f :
  ∃ b t',
    IteratorForTypes_next t f = Ok ((b, t'), f)
    ∧ ift_settings t' = ift_settings t ∧ ift_context t' = ift_context t
    ∧ match yields f (ForTypes t) with
      | [] => b = false
      | shape :: rest =>
          b = true
          ∧ ift_element t' = shape.1 ∧ ift_shape t' = Some shape.2
          ∧ yields f (ForTypes t') = rest
          ∧ length (ift_elements t') < length (ift_elements t)
      end.
Proof.
  unfold IteratorForTypes_next. simpl.
  destruct (ift_elements t) as [|e l] eqn:Hl.
  - by exists false, t.
  - destruct (next_from_yields (reverse (e :: l)) t f) as (b & t' & Hrun & Hs & Hc & Hrest).
    exists b, t'. rewrite Hs, Hc. rewrite length_reverse in Hrest. done.
Qed.

Lemma types_yields_some t f shape :
  shape ∈ yields f (ForTypes t) → is_Some shape.1.
Proof.
  simpl. intros (e & _ & He)%list_elem_of_omap. unfold type_shape in He.
  destruct (get_representation _ _ _); simplify_eq/=. eauto.
Qed.

Lemma store_shape_some cls ff qtos_ results e g f :
  store_shape cls ff qtos_ results (Some e, g) f
  = store_quantities cls ff qtos_ results (e, g) f.
Proof. done. Qed.

Lemma run_iterator_types budget cls ff qtos_ t results f e g :
  ift_element t = Some e → ift_shape t = Some g →
  length (ift_elements t) < budget →
  run_iterator budget cls ff qtos_ (ForTypes t) results f
  = foldM (store_shape cls ff qtos_) results
          ((Some e, g) :: yields f (ForTypes t)) f.
Proof.
  revert t results e g. induction budget as [|budget IH];
    intros t results e g He Hg Hlen; [lia |].
  cbn [run_iterator foldM current]. rewrite !bind_run.
  unfold get_element_and_geometry. rewrite He, Hg.
  rewrite ret_run.
  rewrite store_shape_some, !bind_run.
  rewrite (frame_run _ _ (store_quantities_frame cls ff qtos_ results (e, g) f)).
  destruct (store_quantities cls ff qtos_ results (e, g) f) as [[results' f']|err];
    [| done].
  cbn [next]. rewrite !bind_run.
  destruct (IteratorForTypes_next_yields t f) as (b & t' & -> & Hs & Hc & Hrest).
  rewrite ret_run.
  pose proof (types_yields_some t f) as Hsome.
  destruct (yields f (ForTypes t)) as [|[oe g'] rest].
  - by subst b.
  - destruct Hrest as (-> & Hel & Hsh & <- & Hlt). cbn [fst snd] in Hel, Hsh.
    destruct oe as [e'|];
      [| destruct (Hsome (None, g')) as [? Hnone]; [left | discriminate Hnone]].
    apply IH; [done | done | lia].
Qed.

Lemma current_geom g f :
  current (Geom g) f
  = match gi_pending g with
    | [] => Raise RuntimeError
    | shape :: _ =>
        match by_id f shape.1 with
        | Some e => Ok ((e, shape.2), f)
        | None => Raise RuntimeError
        end
    end.
Proof.
  cbn [current]. unfold geom_iterator_get. rewrite bind_run.
  destruct (gi_pending g) as [|[id geo] rest]; [done |].
  cbn [head from_option]. unfold ret. cbv beta iota.
  rewrite bind_run. unfold read. cbn [fst snd]. by destruct (by_id f id).
Qed.

Lemma store_shape_run cls ff qtos_ results shape f :
  store_shape cls ff qtos_ results shape f
  = match shape.1 with
    | Some e => store_quantities cls ff qtos_ results (e, shape.2) f
    | None => Raise RuntimeError
    end.
Proof. unfold store_shape. rewrite bind_run. by destruct shape.1. Qed.

Lemma run_iterator_geom budget cls ff qtos_ g results f shape rest :
  gi_pending g = shape :: rest → length rest < budget →
  run_iterator budget cls ff qtos_ (Geom g) results f
  = foldM (store_shape cls ff qtos_) results (yields f (Geom g)) f.
Proof.
  revert g results shape rest. induction budget as [|budget IH];
    intros g results shape rest Hg Hlen; [lia |].
  cbn [run_iterator yields]. rewrite Hg. cbn [fmap list_fmap foldM].
  rewrite !bind_run, current_geom, store_shape_run, Hg. cbn [fst snd].
  destruct (by_id f shape.1) as [e|]; [| done].
  rewrite bind_run.
  rewrite (frame_run _ _ (store_quantities_frame cls ff qtos_ results (e, shape.2) f)).
  destruct (store_quantities cls ff qtos_ results (e, shape.2) f)
    as [[results' f']|err]; [| done].
  rewrite bind_run. cbn [next]. unfold geom_iterator_next. rewrite Hg. cbn [tail].
  rewrite ret_run. cbv beta iota.
  destruct rest as [|shape' rest'].
  - by rewrite bool_decide_false by (by intros []).
  - rewrite bool_decide_true by done.
    rewrite (IH _ _ shape' rest'); [done | done | cbn [length] in Hlen; lia].
Qed.

(** One task stores the quantities of every shape its iterator yields, in
    the order of the iterator; the loop budget is never used up. *)
Lemma run_task_yields cls ff results it qtos_ f :
  run_task cls ff results (it, qtos_) f
  = foldM (store_shape cls ff qtos_) results (yields f it) f.
Proof.
  unfold run_task. rewrite bind_run. destruct it as [g|t]; cbn [initialize].
  - rewrite ret_run. cbv beta iota. unfold geom_iterator_initialize.
    destruct (gi_pending g) as [|shape rest] eqn:Hg.
    + rewrite bool_decide_false by (by intros []). cbn [yields]. by rewrite Hg.
    + rewrite bool_decide_true by done.
      apply (run_iterator_geom _ _ _ _ _ _ _ shape rest); [done |].
      cbn [remaining]. rewrite Hg. cbn [length]. lia.
  - rewrite bind_run. unfold IteratorForTypes_initialize.
    destruct (IteratorForTypes_next_yields t f) as (b & t' & -> & Hs & Hc & Hrest).
    rewrite ret_run. cbv beta iota. pose proof (types_yields_some t f) as Hsome.
    destruct (yields f (ForTypes t)) as [|[oe g'] rest].
    + by subst b.
    + destruct Hrest as (-> & Hel & Hsh & <- & Hlt). cbn [fst snd] in Hel, Hsh.
      destruct oe as [e'|];
        [| destruct (Hsome (None, g')) as [? Hnone]; [left | discriminate Hnone]].
      apply run_iterator_types; [done | done | cbn [remaining]; lia].
Qed.

(** *** What storing the quantities of one shape changes *)

Lemma store_quantity_other cls ff e g n (r : ResultsDict) item f e0 n0 q0 :
  e0 ≠ e ∨ n0 ≠ n ∨ q0 ≠ item.1 →
  returns (store_quantity cls ff e g n r item) f
    (λ r', get_quantity e0 n0 q0 r' = get_quantity e0 n0 q0 r).
Proof.
  intros Hkey. unfold store_quantity. destruct item as [q F]. simpl in Hkey.
  assert (∀ v, get_quantity e0 n0 q0 (set_quantity e n q v r)
               = get_quantity e0 n0 q0 r) as Hset.
  { intros v. rewrite get_set_quantity. apply decide_False. tauto. }
  case_bool_decide.
  - frame_bind; [apply get_segment_length_frame |]. by step.
  - frame_bind; [by step |]. frame_bind; [by step |]. frame_bind; [by step |].
    frame_bind; [by step |]. by step.
Qed.

Lemma store_quantity_target cls ff e g n (r : ResultsDict) q F fn func f :
  ff !! F = Some fn → raw_functions !! F = Some func →
  F ≠ "get_segment_length" →
  (∀ value m, convert (unit_converter cls) value m = Ok (in_project_unit f m value)) →
  returns (store_quantity cls ff e g n r (q, F)) f
    (λ r', measurement f fn func g (get_quantity e n q r')).
Proof.
  intros Hfn Hfunc Hne Hconvert. unfold store_quantity.
  rewrite bool_decide_false by done.
  apply (returns_bind _ _ _ (λ x, x = fn)); [step; congruence |]. intros ? ->.
  apply (returns_bind _ _ _ (λ raw, fn g = Some raw)); [by step |].
  intros raw Hraw.
  apply (returns_bind _ _ _ (λ x, x = func)); [step; congruence |]. intros ? ->.
  rewrite Hconvert.
  apply (returns_bind _ _ _ (λ v, v = in_project_unit f (measure func) raw)).
  { apply returns_lift. by intros ? [= <-]. }
  intros ? ->. step. exists raw. split; [done |].
  rewrite get_set_quantity. by apply decide_True.
Qed.

Lemma store_inner_other cls ff e g n (r : ResultsDict) (qs : gmap string string)
    f e0 n0 q0 :
  e0 ≠ e ∨ n0 ≠ n ∨ qs !! q0 = None →
  returns (foldM (store_quantity cls ff e g n) r (map_to_list qs)) f
    (λ r', get_quantity e0 n0 q0 r' = get_quantity e0 n0 q0 r).
Proof.
  intros Hkey.
  apply (returns_foldM _ _ _ _
           (λ r', get_quantity e0 n0 q0 r' = get_quantity e0 n0 q0 r)); [done |].
  intros r1 [q F] Hin Hr1. rewrite <- Hr1. apply store_quantity_other.
  apply elem_of_map_to_list in Hin. simpl.
  destruct Hkey as [?|[?|Hnone]]; [tauto | tauto |].
  right. right. intros ->. congruence.
Qed.

Lemma alist_split {V} (l : list (string * V)) k v :
  NoDup l.*1 → (k, v) ∈ l →
  ∃ l1 l2, l = l1 ++ (k, v) :: l2
           ∧ (∀ item, item ∈ l1 ++ l2 → item.1 ≠ k ∧ item ∈ l).
Proof.
  intros Hnodup Hin.
  apply list_elem_of_split in Hin as (l1 & l2 & ->). exists l1, l2. split; [done |].
  rewrite fmap_app, fmap_cons in Hnodup. simpl in Hnodup.
  apply NoDup_app in Hnodup as (_ & Hdisj & Hnd2). apply NoDup_cons in Hnd2 as [Hnot2 _].
  intros [k' v'] Hitem. simpl. split.
  - intros ->. apply elem_of_app in Hitem as [Hitem|Hitem].
    + apply (Hdisj k); [by apply (list_elem_of_fmap_2 fst _ (k, v')) | left].
    + apply Hnot2. by apply (list_elem_of_fmap_2 fst _ (k, v')).
  - apply elem_of_app in Hitem as [?|?]; apply elem_of_app; [by left |].
    right. by right.
Qed.

Lemma map_to_list_split {V} (m : gmap string V) k v :
  m !! k = Some v →
  ∃ l1 l2, map_to_list m = l1 ++ (k, v) :: l2
           ∧ (∀ item, item ∈ l1 ++ l2 → item.1 ≠ k ∧ m !! item.1 = Some item.2).
Proof.
  intros Hk. apply elem_of_map_to_list in Hk.
  destruct (alist_split _ k v (NoDup_fst_map_to_list m) Hk) as (l1 & l2 & Hsplit & Hrest).
  exists l1, l2. split; [done |]. intros [k' v'] Hitem.
  destruct (Hrest _ Hitem) as [Hne Hin]. split; [done |].
  by apply elem_of_map_to_list.
Qed.

Lemma store_inner_target cls ff e g n (r : ResultsDict) (qs : gmap string string)
    q F fn func f :
  qs !! q = Some F →
  ff !! F = Some fn → raw_functions !! F = Some func →
  F ≠ "get_segment_length" →
  (∀ value m, convert (unit_converter cls) value m = Ok (in_project_unit f m value)) →
  returns (foldM (store_quantity cls ff e g n) r (map_to_list qs)) f
    (λ r', measurement f fn func g (get_quantity e n q r')).
Proof.
  intros Hq Hfn Hfunc Hne Hconvert.
  destruct (map_to_list_split qs q F Hq) as (l1 & l2 & -> & Hrest).
  apply (returns_foldM_app _ _ _ _ _ (λ _, True)).
  { apply (returns_foldM _ _ _ _ (λ _, True)); [done |].
    intros. apply store_quantity_frame. }
  intros r1 _. cbn [foldM].
  eapply returns_bind; [by eapply store_quantity_target |].
  intros r2 Hr2.
  apply (returns_foldM _ _ _ _
           (λ r', measurement f fn func g (get_quantity e n q r')));
    [done |].
  intros r3 item Hitem Hr3.
  eapply returns_weaken; [apply (store_quantity_other _ _ _ _ _ _ _ _ e n q) |].
  - right. right. intros Heq.
    destruct (Hrest item) as [Hk _]; [apply elem_of_app; by right | done].
  - by intros r' ->.
Qed.

Lemma store_quantities_other cls ff (qtos_ : QtosFormulas) (r : ResultsDict)
    e g f e0 n0 q0 :
  e0 ≠ e ∨ entry qtos_ n0 q0 = None →
  returns (store_quantities cls ff qtos_ r (e, g)) f
    (λ r', get_quantity e0 n0 q0 r' = get_quantity e0 n0 q0 r).
Proof.
  intros Hkey. unfold store_quantities.
  apply (returns_foldM _ _ _ _
           (λ r', get_quantity e0 n0 q0 r' = get_quantity e0 n0 q0 r)).
  { apply get_setdefault_element. }
  intros r1 [n qs] Hin Hr1. rewrite <- Hr1.
  eapply returns_weaken; [apply (store_inner_other _ _ _ _ _ _ _ _ e0 n0 q0) |].
  - destruct Hkey as [?|Hentry]; [by left |].
    destruct (decide (n0 = n)) as [->|?]; [| tauto].
    right. right. apply elem_of_map_to_list in Hin.
    unfold entry in Hentry. by rewrite Hin in Hentry.
  - intros r' ->. apply get_setdefault_name.
Qed.

Lemma store_quantities_target cls ff (qtos_ : QtosFormulas) (r : ResultsDict)
    e g n q F fn func f :
  entry qtos_ n q = Some F →
  ff !! F = Some fn → raw_functions !! F = Some func →
  F ≠ "get_segment_length" →
  (∀ value m, convert (unit_converter cls) value m = Ok (in_project_unit f m value)) →
  returns (store_quantities cls ff qtos_ r (e, g)) f
    (λ r', measurement f fn func g (get_quantity e n q r')).
Proof.
  intros Hentry Hfn Hfunc Hne Hconvert. unfold store_quantities, entry in *.
  destruct (qtos_ !! n) as [qs|] eqn:Hn; [| done]. simpl in Hentry.
  destruct (map_to_list_split qtos_ n qs Hn) as (l1 & l2 & -> & Hrest).
  apply (returns_foldM_app _ _ _ _ _ (λ _, True)).
  { apply (returns_foldM _ _ _ _ (λ _, True)); [done |].
    intros r1 [n1 qs1] _ _.
    apply (returns_foldM _ _ _ _ (λ _, True)); [done |].
    intros. apply store_quantity_frame. }
  intros r1 _. cbn [foldM].
  eapply returns_bind; [by eapply store_inner_target |].
  intros r2 Hr2.
  apply (returns_foldM _ _ _ _
           (λ r', measurement f fn func g (get_quantity e n q r')));
    [done |].
  intros r3 [n3 qs3] Hitem Hr3.
  eapply returns_weaken; [apply (store_inner_other _ _ _ _ _ _ _ _ e n q) |].
  - right. left. intros ->.
    destruct (Hrest (n3, qs3)) as [Hk _]; [apply elem_of_app; by right | done].
  - intros r' ->. by rewrite get_setdefault_name.
Qed.

(** *** The classification of the configured formulas *)

Lemma entry_setdefault_set n' q' v (table : QtosFormulas) n q :
  entry (setdefault_set n' q' v table) n q
  = if decide (n = n' ∧ q = q') then Some v else entry table n q.
Proof.
  unfold entry, setdefault_set.
  destruct (decide (n = n')) as [->|Hn].
  - rewrite lookup_insert_eq. simpl. destruct (decide (q = q')) as [->|Hq].
    + rewrite lookup_insert_eq. by rewrite decide_True.
    + rewrite lookup_insert_ne by done. rewrite decide_False by tauto.
      rewrite lookup_total_alt. by destruct (table !! n').
  - rewrite lookup_insert_ne by done. by rewrite decide_False by tauto.
Qed.

Lemma classify_formula_other n' q' formula t f n q :
  n' ≠ n ∨ q' ≠ q →
  returns (classify_formula n' q' formula t) f
    (λ t', entry (gross_qtos t') n q = entry (gross_qtos t) n q
           ∧ entry (net_qtos t') n q = entry (net_qtos t) n q
           ∧ ∀ k, is_Some (formula_functions t !! k) →
                  is_Some (formula_functions t' !! k)).
Proof.
  intros Hkey. unfold classify_formula.
  destruct formula as [formula|]; [| by step].
  case_bool_decide; [by step |]. cbv zeta.
  assert (∀ v table, entry (setdefault_set n' q' v table) n q = entry table n q)
    as Hset.
  { intros v table. rewrite entry_setdefault_set. apply decide_False.
    intros [-> ->]. tauto. }
  destruct (endswith formula "get_segment_length").
  { step. destruct (startswith formula "gross_"); simpl; by rewrite Hset. }
  destruct (_ || _); [| by step].
  frame_bind; [by step |]. step.
  destruct (startswith formula "gross_"); simpl; rewrite Hset;
    (repeat split; [done..|]); intros k Hk;
    (destruct (decide (partition_tail "_" formula = k)) as [<-|?];
      [by rewrite lookup_insert_eq | by rewrite lookup_insert_ne]).
Qed.

Lemma classify_formula_keeps n' q' formula t f n q (P : formula_tables → Prop) :
  n' ≠ n ∨ q' ≠ q →
  (∀ t', entry (gross_qtos t') n q = entry (gross_qtos t) n q →
         entry (net_qtos t') n q = entry (net_qtos t) n q →
         (∀ k, is_Some (formula_functions t !! k) →
               is_Some (formula_functions t' !! k)) → P t') →
  returns (classify_formula n' q' formula t) f P.
Proof.
  intros Hkey HP. eapply returns_weaken; [by apply classify_formula_other |].
  intros t' (? & ? & ?). by apply HP.
Qed.

Lemma classified_keeps gross n q F t t' :
  classified gross n q F t →
  entry (gross_qtos t') n q = entry (gross_qtos t) n q →
  entry (net_qtos t') n q = entry (net_qtos t) n q →
  (∀ k, is_Some (formula_functions t !! k) → is_Some (formula_functions t' !! k)) →
  classified gross n q F t'.
Proof.
  intros (Hside & Hother & Hfn) Hg Hn Hff. unfold classified.
  destruct gross; simpl in *; rewrite Hg, Hn; auto.
Qed.

Lemma classify_formula_target n q prefix F t f gross :
  prefix = "gross_" ∧ gross = true ∨ prefix = "net_" ∧ gross = false →
  endswith (prefix +:+ F) "get_segment_length" = false →
  entry (gross_qtos t) n q = None → entry (net_qtos t) n q = None →
  returns (classify_formula n q (Some (prefix +:+ F)) t) f (classified gross n q F).
Proof.
  intros Hprefix Hends Hg Hn. unfold classify_formula.
  assert (prefix +:+ F ≠ "") as Hnonempty
    by (destruct Hprefix as [[-> _]|[-> _]]; discriminate).
  case_bool_decide; [done |].
  cbv zeta. rewrite Hends.
  assert (startswith (prefix +:+ F) "gross_" = gross
          ∧ partition_tail "_" (prefix +:+ F) = F
          ∧ startswith (prefix +:+ F) "gross_" || startswith (prefix +:+ F) "net_"
            = true) as (-> & -> & ->).
  { destruct Hprefix as [[-> ->]|[-> ->]]; repeat split; simpl;
      unfold startswith; simpl; try done; by destruct F. }
  frame_bind; [by step |]. step. unfold classified.
  destruct gross; simpl; rewrite entry_setdefault_set, decide_True by done;
    rewrite lookup_insert_eq; eauto.
Qed.

Lemma classify_inner_keeps n' quantities t f n q (P : formula_tables → Prop) :
  (∀ item, item ∈ quantities → n' ≠ n ∨ item.1 ≠ q) →
  P t →
  (∀ t1 t2, P t1 →
     entry (gross_qtos t2) n q = entry (gross_qtos t1) n q →
     entry (net_qtos t2) n q = entry (net_qtos t1) n q →
     (∀ k, is_Some (formula_functions t1 !! k) →
           is_Some (formula_functions t2 !! k)) → P t2) →
  returns (foldM (λ t '(quantity, formula),
                    classify_formula n' quantity formula t) t quantities) f P.
Proof.
  intros Hkeys Ht HP. apply returns_foldM; [done |].
  intros t1 [q' formula] Hin Ht1. apply (classify_formula_keeps _ _ _ _ _ n q).
  - apply (Hkeys _ Hin).
  - intros t2. by apply HP.
Qed.

Lemma classify_formulas_target qtos f n quantities q prefix F gross :
  NoDup qtos.*1 → (∀ n' qs, (n', qs) ∈ qtos → NoDup qs.*1) →
  (n, quantities) ∈ qtos → (q, Some (prefix +:+ F)) ∈ quantities →
  prefix = "gross_" ∧ gross = true ∨ prefix = "net_" ∧ gross = false →
  endswith (prefix +:+ F) "get_segment_length" = false →
  returns (classify_formulas qtos) f (classified gross n q F).
Proof.
  intros Hnodup Hinner Hn Hq Hprefix Hends. unfold classify_formulas.
  destruct (alist_split _ _ _ Hnodup Hn) as (l1 & l2 & -> & Hl).
  destruct (alist_split _ _ _ (Hinner _ _ Hn) Hq) as (m1 & m2 & -> & Hm).
  set (blank := λ t : formula_tables,
         entry (gross_qtos t) n q = None ∧ entry (net_qtos t) n q = None).
  assert (∀ t1 t2, blank t1 →
     entry (gross_qtos t2) n q = entry (gross_qtos t1) n q →
     entry (net_qtos t2) n q = entry (net_qtos t1) n q →
     (∀ k, is_Some (formula_functions t1 !! k) →
           is_Some (formula_functions t2 !! k)) → blank t2) as Hblank.
  { intros t1 t2 [? ?] Hg' Hn' _. unfold blank. by rewrite Hg', Hn'. }
  assert (∀ t1 t2, classified gross n q F t1 →
     entry (gross_qtos t2) n q = entry (gross_qtos t1) n q →
     entry (net_qtos t2) n q = entry (net_qtos t1) n q →
     (∀ k, is_Some (formula_functions t1 !! k) →
           is_Some (formula_functions t2 !! k)) → classified gross n q F t2)
    as Hclassified.
  { intros t1 t2 ?. by apply classified_keeps. }
  apply (returns_foldM_app _ _ _ _ _ blank).
  { apply returns_foldM; [done |]. intros t1 [n' qs] Hin Ht1.
    apply (classify_inner_keeps _ _ _ _ n q); [| done | done].
    intros item _. left. apply (Hl (n', qs)). apply elem_of_app. by left. }
  intros t1 Ht1. cbn [foldM].
  apply (returns_bind _ _ _ (classified gross n q F)).
  - apply (returns_foldM_app _ _ _ _ _ blank).
    { apply (classify_inner_keeps _ _ _ _ n q); [| done | done].
      intros item Hin. right. apply (Hm item). apply elem_of_app. by left. }
    intros t2 [Hg2 Hn2]. cbn [foldM].
    eapply returns_bind; [by apply (classify_formula_target _ _ _ _ _ _ gross) |].
    intros t3 Ht3.
    apply (classify_inner_keeps _ _ _ _ n q); [| done | done].
    intros item Hin. right. apply (Hm item). apply elem_of_app. by right.
  - intros t2 Ht2. apply returns_foldM; [done |]. intros t3 [n' qs] Hin Ht3.
    apply (classify_inner_keeps _ _ _ _ n q); [| done | done].
    intros item _. left. apply (Hl (n', qs)). apply elem_of_app. by right.
Qed.

(** *** Every yielded shape gets the quantity of a prefixed formula *)

Lemma raw_function_not_segment F func prefix :
  raw_functions !! F = Some func → F ≠ "get_segment_length" →
  prefix = "gross_" ∨ prefix = "net_" →
  endswith (prefix +:+ F) "get_segment_length" = false.
Proof.
  intros Hfunc Hne Hprefix. unfold raw_functions in Hfunc.
  apply elem_of_list_to_map_2 in Hfunc. unfold raw_function_items in Hfunc.
  repeat (apply elem_of_cons in Hfunc as [[= -> _]|Hfunc];
          [by destruct Hprefix as [->| ->] |]).
  by apply elem_of_nil in Hfunc.
Qed.

Section Prefixed.
Variables (f : file) (els : gset positive) (gs : settings).
Variables (cls : IfcOpenShell_cls) (ff : gmap string (geometry → option float)).
Variables (n q F : string) (fn : geometry → option float) (func : Function).
Hypothesis Hfn : ff !! F = Some fn.
Hypothesis Hfunc : raw_functions !! F = Some func.
Hypothesis Hne : F ≠ "get_segment_length".
Hypothesis Hconvert :
  ∀ value m, convert (unit_converter cls) value m = Ok (in_project_unit f m value).

Local Abbreviation measured_on_shape := (measured_on_shape f gs els n q fn func).

Lemma store_shapes_target (table : QtosFormulas) (r : ResultsDict) shapes :
  entry table n q = Some F →
  (∀ e g, (Some e, g) ∈ shapes → shape_yielded f gs els e g) →
  returns (foldM (store_shape cls ff table) r shapes) f
    (λ r', (∀ e, measured_on_shape e r → measured_on_shape e r')
           ∧ ∀ e g, (Some e, g) ∈ shapes → measured_on_shape e r').
Proof using Hfn Hfunc Hne Hconvert.
  intros Hentry Hshapes.
  apply (returns_weaken _ _
           (λ r', (∀ e, measured_on_shape e r → measured_on_shape e r')
                  ∧ ∀ e g, (Some e, g) ∈ shapes → measured_on_shape e r')); [| done].
  apply (returns_foldM_split _ _ _ _
           (λ done_ r', (∀ e, measured_on_shape e r → measured_on_shape e r')
                        ∧ ∀ e g, (Some e, g) ∈ done_ → measured_on_shape e r')).
  { split; [done |]. intros e g Hin. by apply elem_of_nil in Hin. }
  intros done_ [oe g] rest r1 Hsplit [Hkeep Hdone].
  intros r2 f2. rewrite store_shape_run. cbn [fst snd].
  destruct oe as [e1|]; [| done]. revert r2 f2.
  apply (returns_weaken _ _
           (λ r2, measurement f fn func g (get_quantity e1 n q r2)
                  ∧ ∀ e0, e0 ≠ e1 →
                      get_quantity e0 n q r2 = get_quantity e0 n q r1)).
  { apply returns_and.
    - by eapply store_quantities_target.
    - apply returns_forall; [apply store_quantities_frame |]. intros e0.
      intros r2 f2 Hrun. destruct (store_quantities_frame _ _ _ _ _ _ _ _ Hrun) as [-> _].
      split; [done |]. intros Hne0.
      by destruct (store_quantities_other cls ff table r1 e1 g f e0 n q
                     (or_introl Hne0) _ _ Hrun). }
  intros r2 [(raw & Hraw & Hnew) Hold].
  assert (measured_on_shape e1 r2) as Hmeasured.
  { exists g, raw. split_and!; [| done | done]. apply Hshapes. rewrite Hsplit.
    apply elem_of_app. right. left. }
  assert (∀ e, measured_on_shape e r1 → measured_on_shape e r2) as Hstep.
  { intros e (g0 & raw0 & Hyield & Hraw0 & Hval).
    destruct (decide (e = e1)) as [->|Hne1]; [done |].
    exists g0, raw0. split_and!; [done | done |]. by rewrite Hold. }
  split; [intros e He; by apply Hstep, Hkeep |].
  intros e g0 [Hin|Hin]%elem_of_app.
  - apply Hstep. by eapply Hdone.
  - apply list_elem_of_singleton in Hin. by injection Hin as -> ->.
Qed.

Lemma store_shapes_other (table : QtosFormulas) (r : ResultsDict) shapes :
  entry table n q = None →
  returns (foldM (store_shape cls ff table) r shapes) f
    (λ r', ∀ e, measured_on_shape e r → measured_on_shape e r').
Proof using Type.
  intros Hentry.
  apply (returns_weaken _ _
           (λ r', ∀ e, get_quantity e n q r' = get_quantity e n q r)).
  { apply (returns_foldM _ _ _ _
             (λ r', ∀ e, get_quantity e n q r' = get_quantity e n q r)); [done |].
    intros r1 [oe g] _ Hr1. intros r2 f2. rewrite store_shape_run. cbn [fst snd].
    destruct oe as [e1|]; [| done]. intros Hrun.
    destruct (store_quantities_frame _ _ _ _ _ _ _ _ Hrun) as [-> _].
    split; [done |]. intros e. rewrite <- Hr1.
    by destruct (store_quantities_other cls ff table r1 e1 g f e n q
                   (or_intror Hentry) _ _ Hrun). }
  intros r' Hsame e (g & raw & Hyield & Hraw & Hval). exists g, raw.
  by rewrite Hsame.
Qed.
End Prefixed.

Lemma entry_empty n q : entry ∅ n q = None.
Proof. unfold entry. by rewrite lookup_empty. Qed.

Lemma prefixed_formula_measured
    els qtos results0 f results f' n quantities q prefix F func :
  IfcOpenShell_calculate els qtos results0 f = Ok (results, f') →
  NoDup qtos.*1 → (∀ n' qs, (n', qs) ∈ qtos → NoDup qs.*1) →
  (n, quantities) ∈ qtos → (q, Some (prefix +:+ F)) ∈ quantities →
  prefix = "gross_" ∨ prefix = "net_" →
  raw_functions !! F = Some func → F ≠ "get_segment_length" →
  ∃ function,
    shape_function F = Some function
    ∧ ∀ e g,
        shape_yielded f (<["disable-opening-subtractions" := true]> ∅) els e g →
        measured_on_shape f (<["disable-opening-subtractions" := true]> ∅) els
                          n q function func e results.
Proof.
  intros Hrun Hnodup Hinner Hn Hq Hprefix Hfunc Hne.
  set (gs := <["disable-opening-subtractions" := true]> ∅ : settings).
  pose proof (raw_function_not_segment _ _ _ Hfunc Hne Hprefix) as Hends.
  assert (∃ gross, prefix = "gross_" ∧ gross = true
                   ∨ prefix = "net_" ∧ gross = false) as [gross Hgross].
  { destruct Hprefix as [->| ->]; [exists true | exists false]; auto. }
  unfold IfcOpenShell_calculate in Hrun. cbv zeta in Hrun.
  apply bind_ok in Hrun as (us & f1 & [= <- <-] & Hrun).
  apply bind_ok in Hrun as (t & f1 & Ht & Hrun).
  destruct (classify_formulas_target _ _ _ _ _ _ _ gross Hnodup Hinner Hn Hq Hgross
              Hends _ _ Ht) as [-> (Hside & Hother & [fn Hfn])].
  destruct (classify_formulas_functions _ _ _ _ Ht) as [_ Hsound].
  apply bind_ok in Hrun as (tasks & f1 & Htasks & Hrun).
  destruct (SI2ProjectUnitConverter_init_run f) as (converter & Hinit & Hconvert).
  apply bind_ok in Hrun as (c & f2 & Hc & Hrun).
  pose proof (λ task, create_tasks_iterators _ _ _ _ _ _ _ task Htasks) as Hmember.
  apply create_tasks_run in Htasks as (-> & its & Hits & Htasks).
  rewrite Hinit in Hc. injection Hc as <- <-.
  exists fn. split; [by apply Hsound |].
  assert (side_table gross t ≠ ∅) as Hnonempty.
  { intros Hempty. by rewrite Hempty, entry_empty in Hside. }
  assert (create_iterators gs (elements els) f = Ok (its, f)) as Hcreated.
  { destruct Hits as [[Hg0 Hn0]|?]; [| done]. by destruct gross. }
  assert (∀ it, it ∈ its → (it, side_table gross t) ∈ tasks) as Hall.
  { intros it Hit. rewrite Htasks. apply elem_of_app.
    destruct gross; simpl in *; [left | right]; rewrite decide_False by done;
      by apply (list_elem_of_fmap_2 (λ it, (it, _))). }
  set (cls := mkCls gs ∅ (calculate_unit_scale f) converter) in *.
  cut (∀ it, (it, side_table gross t) ∈ tasks →
         ∀ e g, (Some e, g) ∈ yields f it →
           measured_on_shape f gs els n q fn func e results).
  { intros Hdone e g (its' & f'' & it & Hits' & Hit & Hyield).
    pose proof (eq_trans (eq_sym Hits') Hcreated) as Heq. injection Heq as -> ->.
    eapply Hdone; [apply Hall; exact Hit | exact Hyield]. }
  cut (returns (foldM (run_task cls (formula_functions t)) results0 tasks) f
         (λ r, ∀ it, (it, side_table gross t) ∈ tasks →
                 ∀ e g, (Some e, g) ∈ yields f it →
                   measured_on_shape f gs els n q fn func e r)).
  { intros Hloop. by destruct (Hloop _ _ Hrun). }
  clear Hrun.
  apply (returns_foldM_split _ _ _ _
    (λ done_ r, ∀ it, (it, side_table gross t) ∈ done_ →
                  ∀ e g, (Some e, g) ∈ yields f it →
                    measured_on_shape f gs els n q fn func e r)).
  { intros it Hin. by apply elem_of_nil in Hin. }
  intros done_ [it table] rest r1 Hsplit Hdone.
  destruct (Hmember (it, table)) as (its' & Hits' & Hit & Htable).
  { rewrite Hsplit. apply elem_of_app. right. left. }
  pose proof (eq_trans (eq_sym Hits') Hcreated) as Heq. injection Heq as ->.
  cbn [fst snd] in Hit, Htable.
  assert (∀ e g, (Some e, g) ∈ yields f it → shape_yielded f gs els e g) as Hyields.
  { intros e g Hin. by exists its, f, it. }
  intros r2 f2. rewrite run_task_yields. revert r2 f2.
  assert (entry table n q = Some F ∧ table = side_table gross t
          ∨ entry table n q = None ∧ table ≠ side_table gross t) as [[He ->]|[He Hdiff]].
  { destruct gross; simpl in *; destruct Htable as [[-> _]|[-> _]]; auto;
      right; (split; [done |]); intros Heq; rewrite Heq in *; congruence. }
  - eapply returns_weaken;
      [by apply (store_shapes_target f els gs cls (formula_functions t) n q F fn func) |].
    intros r2 [Hkeep Hnew] it' [Hin|Hin]%elem_of_app e g Hyield.
    + apply Hkeep. by eapply Hdone.
    + apply list_elem_of_singleton in Hin. injection Hin as ->. by eapply Hnew.
  - eapply returns_weaken;
      [by apply (store_shapes_other f els gs cls (formula_functions t) n q fn func) |].
    intros r2 Hkeep it' [Hin|Hin]%elem_of_app e g Hyield.
    + apply Hkeep. by eapply Hdone.
    + apply list_elem_of_singleton in Hin. injection Hin as _ Heq. by destruct Hdiff.
Qed.

(** C4: for a configured formula gross_F or net_F, with F a raw function
    other than get_segment_length, [IfcOpenShell.calculate] looks up the
    function named F, the prefix stripped, in ifcopenshell.util.shape, and
    every element for which an iterator yields a shape gets, as that
    quantity, the function applied to one of its yielded geometries, in the
    project's unit. *)
Theorem prefixed_formula_applies_shape_function
    els qtos results0 f results f' n quantities q prefix F func :
  IfcOpenShell_calculate els qtos results0 f = Ok (results, f') →
  NoDup qtos.*1 → (∀ n' qs, (n', qs) ∈ qtos → NoDup qs.*1) →
  (n, quantities) ∈ qtos → (q, Some (prefix +:+ F)) ∈ quantities →
  prefix = "gross_" ∨ prefix = "net_" →
  raw_functions !! F = Some func → F ≠ "get_segment_length" →
  ∃ function,
    shape_function F = Some function
    ∧ ∀ e g,
        shape_yielded f (<["disable-opening-subtractions" := true]> ∅) els e g →
        measured_on_shape f (<["disable-opening-subtractions" := true]> ∅) els
                          n q function func e results.
Proof. apply prefixed_formula_measured. Qed.

End WithToolkit.
End QtoFacts.

Module AlignmentFacts.
Import Alignment.

Section WithKernel.
Context `{Kernel}.

Lemma is_curve_segment_by_name segment :
  is_a segment = "IfcCurveSegment" → is_curve_segment segment.
Proof. unfold is_curve_segment. by intros ->. Qed.

(** C9: [evaluate_segment] raises NotImplementedError whenever the entity
    is not an IfcCurveSegment; it raises ValueError whenever, the entity
    being an IfcCurveSegment, [dist_along] exceeds the SegmentLength; and it
    returns the transposed transform evaluated at [dist_along] exactly
    when neither holds.  The guards are read in the order of the claim: the
    check of the length is reached by curve segments only. *)
Theorem evaluate_segment_cases segment dist_along :
  (¬ is_curve_segment segment →
     evaluate_segment segment dist_along = Raise NotImplementedError)
  ∧ (is_curve_segment segment → beyond_end segment dist_along →
     evaluate_segment segment dist_along = Raise ValueError)
  ∧ (is_curve_segment segment → ¬ beyond_end segment dist_along →
     evaluate_segment segment dist_along
     = Ok (transpose (evaluate (map_shape ∅ segment) ∅ dist_along)))
  ∧ (∀ m, evaluate_segment segment dist_along = Ok m →
     is_curve_segment segment ∧ ¬ beyond_end segment dist_along).
Proof.
  unfold evaluate_segment, is_curve_segment, beyond_end.
  case_bool_decide as Hin; simpl.
  - apply list_elem_of_singleton in Hin.
    destruct (PrimFloat.ltb (SegmentLength segment) dist_along) eqn:Hlt.
    + repeat split; try done; naive_solver.
    + repeat split; try done; naive_solver.
  - assert (upper (is_a segment) ≠ "IFCCURVESEGMENT") as Hne.
    { intros Heq. apply Hin. rewrite Heq. by left. }
    repeat split; try done.
Qed.

End WithKernel.

Import Demo.

Lemma evaluate_segment_cases_witness :
  evaluate_segment 2%positive 20%float = Raise NotImplementedError
  ∧ evaluate_segment 1%positive 20%float = Raise ValueError
  ∧ evaluate_segment 1%positive 4%float
    = Ok [ [1; 0; 0; 4]; [0; 1; 0; 0]; [0; 0; 1; 0]; [0; 0; 0; 1] ]%float.
Proof.
  destruct (evaluate_segment_cases 2%positive 20%float) as (Hnot & _).
  destruct (evaluate_segment_cases 1%positive 20%float) as (_ & Hbeyond & _).
  destruct (evaluate_segment_cases 1%positive 4%float) as (_ & _ & Hin & _).
  split; [| split].
  - apply Hnot. vm_compute. discriminate.
  - apply Hbeyond; reflexivity.
  - rewrite Hin; [reflexivity | reflexivity | vm_compute; discriminate].
Defined.

End AlignmentFacts.

(** ** The properties on the concrete toolkit *)

Module QtoExamples.
Import Qto QtoFacts Demo.

Lemma demo_include_respected : include_respected.
Proof.
  intros s f n include id geo e Hin Hid. simpl in *.
  apply list_elem_of_fmap in Hin as (x & [= -> ->] & Hx).
  unfold demo_by_id in Hid. case_bool_decide; [| done]. by injection Hid as <-.
Qed.

Lemma demo_type_products_are_no_products f : type_products_are_no_products f.
Proof.
  intros e Htype. cbn in Htype |- *. unfold demo_is_a_kind in *.
  cbn in Htype |- *. rewrite Htype. apply andb_false_r.
Qed.

Lemma demo_quantify_ok : is_ok (quantify products wall_rules the_file) = true.
Proof. vm_compute. reflexivity. Qed.

Lemma demo_length_value :
  quantity_after (IfcOpenShell_calculate {[1%positive]} gross_length_qtos ∅ the_file)
                 1 "Qto_WallBaseQuantities" "Length"
  = Some (Some 2000%float).
Proof. vm_compute. reflexivity. Qed.

Lemma quantify_leaves_file_unchanged_witness :
  ∃ results, quantify products wall_rules the_file = Ok (results, the_file).
Proof.
  destruct (quantify products wall_rules the_file) as [[results f']|e] eqn:Hrun.
  - exists results.
    by rewrite (quantify_leaves_file_unchanged _ _ _ _ _ Hrun).
  - pose proof demo_quantify_ok as Hok. rewrite Hrun in Hok. discriminate.
Defined.

(** [edit_qtos] is the operation that writes: applied to the results of
    [quantify], it leaves two quantity sets in the file. *)
Lemma edit_qtos_writes :
  ∃ f', (results ← quantify products wall_rules; edit_qtos results) the_file
        = Ok ((), f')
        ∧ size (demo_qsets the_file) = 0 ∧ size (demo_qsets f') = 2.
Proof. eexists. split; [vm_compute; reflexivity |]. by vm_compute. Qed.

Lemma results_keys_are_requested_elements_witness :
  ∃ results,
    quantify products wall_rules the_file = Ok (results, the_file)
    ∧ dom results ⊆ products.
Proof.
  destruct (results_keys_are_requested_elements demo_include_respected)
    as (Hquantify & _ & _).
  destruct (quantify products wall_rules the_file) as [[results f']|e] eqn:Hrun.
  - exists results. split.
    + by destruct (quantify_frame _ _ _ _ _ Hrun) as [-> _].
    + exact (Hquantify _ _ _ _ _ Hrun).
  - pose proof demo_quantify_ok as Hok. rewrite Hrun in Hok. discriminate.
Defined.

Lemma load_rules_two_rule_sets_witness :
  load_rules demo_json_load "/site/ifc5d" demo_fs
  = Ok (<["IFC4QtoBaseQuantitiesBlender" := mkRules []]>
          {["IFC4QtoBaseQuantities" := mkRules []]}, demo_fs).
Proof.
  apply load_rules_two_rule_sets. split; [reflexivity |].
  exists "{}", (mkRules []), "{}", (mkRules []).
  repeat split; reflexivity.
Defined.

(** C3, on the concrete toolkit: a wall whose volume is 1 with the
    openings subtracted and 2 without gets 2 stored as the quantity of the
    formula net_get_volume, because the geometry of the net task was
    created with opening subtractions disabled. *)
Theorem net_quantity_measured_without_subtractions :
  measured "get_volume" ∅ 1 = Some 1%float
  ∧ measured "get_volume" (<["disable-opening-subtractions" := true]> ∅) 1
    = Some 2%float
  ∧ quantity_after
      (IfcOpenShell_calculate {[1%positive]} net_volume_qtos ∅ the_file)
      1 "Qto_WallBaseQuantities" "NetVolume"
    = Some (Some 2%float).
Proof. repeat split; vm_compute; reflexivity. Qed.

Lemma demo_length_ok :
  is_ok (IfcOpenShell_calculate {[1%positive]} gross_length_qtos ∅ the_file) = true.
Proof. vm_compute. reflexivity. Qed.

Lemma demo_wall_shape_computed :
  match create_iterators (<["disable-opening-subtractions" := true]> ∅)
                         (elements ({[1%positive]} : gset positive)) the_file with
  | Ok (its, _) =>
      bool_decide ((Some 1%positive, (1%positive, true))
                     ∈ mjoin (yields the_file <$> its))
  | Raise _ => false
  end = true.
Proof. vm_compute. reflexivity. Qed.

(** The geometry iterator yields a shape for the wall. *)
Lemma demo_wall_shape_yielded :
  shape_yielded the_file (<["disable-opening-subtractions" := true]> ∅)
                {[1%positive]} 1%positive (1%positive, true).
Proof.
  pose proof demo_wall_shape_computed as Hcomputed. unfold shape_yielded.
  destruct (create_iterators _ _ the_file) as [[its f']|e]; [| discriminate].
  apply bool_decide_eq_true in Hcomputed.
  apply list_elem_of_join in Hcomputed as (shapes & Hin & Hshapes).
  apply list_elem_of_fmap in Hshapes as (it & -> & Hit).
  by exists its, f', it.
Qed.

Lemma prefixed_formula_applies_shape_function_witness :
  ∃ results function,
    IfcOpenShell_calculate {[1%positive]} gross_length_qtos ∅ the_file
    = Ok (results, the_file)
    ∧ shape_function "get_x" = Some function
    ∧ measured_on_shape the_file (<["disable-opening-subtractions" := true]> ∅)
        {[1%positive]} "Qto_WallBaseQuantities" "Length" function
        (mkFunction "IfcLengthMeasure" "X" "Calculates the length along the local X axis")
        1%positive results.
Proof.
  destruct (IfcOpenShell_calculate {[1%positive]} gross_length_qtos ∅ the_file)
    as [[results f']|e] eqn:Hrun.
  2: { pose proof demo_length_ok as Hok. rewrite Hrun in Hok. discriminate. }
  destruct (prefixed_formula_applies_shape_function
              {[1%positive]} gross_length_qtos ∅ the_file results f'
              "Qto_WallBaseQuantities" [("Length", Some "gross_get_x")] "Length"
              "gross_" "get_x"
              (mkFunction "IfcLengthMeasure" "X"
                          "Calculates the length along the local X axis") Hrun)
    as (function & Hfunction & Hall).
  - apply NoDup_singleton.
  - intros n' qs Hin. apply list_elem_of_singleton in Hin. injection Hin as _ ->.
    apply NoDup_singleton.
  - left.
  - left.
  - by left.
  - reflexivity.
  - discriminate.
  - exists results, function. split; [| split].
    + by destruct (IfcOpenShell_calculate_frame _ _ _ _ _ _ Hrun) as [-> _].
    + exact Hfunction.
    + exact (Hall _ _ demo_wall_shape_yielded).
Defined.

End QtoExamples.

(** * Further properties

    ** The exceptions a computation can raise *)

Section ExceptionFacts.
Context {S : Type} (E : exception → Prop).

Lemma raises_only_ret {A} (a : A) : raises_only E (mret a : M S A).
Proof. by intros s e. Qed.

Lemma raises_only_read {A} (g : S → A) : raises_only E (read g).
Proof. by intros s e. Qed.

Lemma raises_only_write {A} (g : S → A * S) : raises_only E (write g).
Proof. by intros s e. Qed.

Lemma raises_only_raise {A} e : E e → raises_only E (raise e : M S A).
Proof. by intros He s e' [= <-]. Qed.

Lemma raises_only_from_option {A} e (o : option A) :
  E e → raises_only E (from_option e o : M S A).
Proof. intros He s e'. destruct o; [done |]. by intros [= <-]. Qed.

Lemma raises_only_lift {A} (r : result A) :
  (∀ e, r = Raise e → E e) → raises_only E (lift r : M S A).
Proof. intros Hr s e. destruct r as [a|e']; [done |]. intros [= <-]. by apply Hr. Qed.

Lemma raises_only_bind {A B} (m : M S A) (k : A → M S B) :
  raises_only E m → (∀ a, raises_only E (k a)) → raises_only E (m ≫= k).
Proof.
  intros Hm Hk s e. rewrite bind_run. specialize (Hm s).
  destruct (m s) as [[a s']|e']; [apply Hk |]. intros [= <-]. by apply Hm.
Qed.

Lemma raises_only_bind_from_option {A B} e (o : option A) (k : A → M S B) :
  E e → (∀ a, o = Some a → raises_only E (k a)) →
  raises_only E (from_option e o ≫= k).
Proof.
  intros He Hk s e'. rewrite bind_run. destruct o as [a|]; [by apply Hk |].
  by intros [= <-].
Qed.

Lemma raises_only_foldM {A B} (g : A → B → M S A) (l : list B) (a : A) :
  (∀ a b, raises_only E (g a b)) → raises_only E (foldM g a l).
Proof.
  intros Hg. revert a. induction l as [|b l IH]; intros a; cbn [foldM].
  - apply raises_only_ret.
  - apply raises_only_bind; [apply Hg | apply IH].
Qed.

End ExceptionFacts.

(** Peels the statements off a [raises_only] goal; what is left are the
    calls of other functions. *)
Ltac exceptions :=
  repeat first
    [ lazymatch goal with
      | |- raises_only _ (mret _) => apply raises_only_ret
      | |- raises_only _ (read _) => apply raises_only_read
      | |- raises_only _ (write _) => apply raises_only_write
      | |- raises_only _ (_ ≫= _) => apply raises_only_bind
      | |- raises_only _ (foldM _ _ _) => apply raises_only_foldM
      | |- raises_only _ (raise _) => apply raises_only_raise; exact I
      | |- raises_only _ (from_option _ _) =>
          apply raises_only_from_option; exact I
      | |- raises_only _ (let '(_, _) := ?p in _) => destruct p
      | |- raises_only _ (match ?x with _ => _ end) => destruct x
      | |- ∀ _, _ => intro
      end ].

(** ** ifc5d/qto.py: edge cases, exceptions and what is kept *)

Module QtoMoreFacts.
Import Qto QtoFacts.

Section WithToolkit.
Context `{Toolkit}.
Implicit Types (f : file) (els : gset positive).

(** *** The exceptions of the calculators *)

Lemma get_segment_length_raises element :
  raises_only calculator_error (get_segment_length element).
Proof. unfold get_segment_length. exceptions. Qed.

Lemma convert_raises converter value measure_ e :
  convert converter value measure_ = Raise e → calculator_error e.
Proof. unfold convert. repeat case_match; try done. by intros [= <-]. Qed.

Lemma store_quantities_raises cls ff qtos_ results item :
  raises_only calculator_error (store_quantities cls ff qtos_ results item).
Proof.
  unfold store_quantities, store_quantity. exceptions.
  - apply get_segment_length_raises.
  - apply raises_only_lift, convert_raises.
Qed.

Lemma run_task_raises cls ff results task :
  raises_only calculator_error (run_task cls ff results task).
Proof.
  destruct task as [it qtos_]. intros f. rewrite run_task_yields.
  apply raises_only_foldM. intros r shape.
  unfold store_shape. exceptions. apply store_quantities_raises.
Qed.

Lemma create_iterators_raises settings_ l :
  raises_only calculator_error (create_iterators settings_ l).
Proof.
  unfold create_iterators, IteratorForTypes_init, geom_iterator_init. exceptions.
Qed.

Lemma IfcOpenShell_calculate_raises els qtos results :
  raises_only calculator_error (IfcOpenShell_calculate els qtos results).
Proof.
  unfold IfcOpenShell_calculate. cbv zeta.
  apply raises_only_bind; [exceptions |]. intros us.
  apply raises_only_bind.
  { unfold classify_formulas, classify_formula. exceptions. }
  intros t. apply raises_only_bind.
  { unfold create_tasks. exceptions; apply create_iterators_raises. }
  intros tasks. apply raises_only_bind.
  { unfold SI2ProjectUnitConverter_init. exceptions. }
  intros c. apply raises_only_foldM. intros. apply run_task_raises.
Qed.

Lemma Blender_quantity_raises converter obj st item :
  raises_only calculator_error (Blender_quantity converter obj st item).
Proof.
  destruct st as [functions_ qto_results], item as [quantity formula].
  unfold Blender_quantity. exceptions. apply raises_only_lift, convert_raises.
Qed.

Lemma Blender_element_raises converter qtos st element :
  raises_only calculator_error (Blender_element converter qtos st element).
Proof.
  destruct st as [functions_ results]. unfold Blender_element.
  destruct (get_object element) as [obj|]; [| exceptions].
  case_bool_decide; [exceptions |].
  apply raises_only_bind; [| exceptions].
  apply raises_only_foldM. intros [fs er] [n qs].
  apply raises_only_bind; [| exceptions].
  apply raises_only_foldM. intros. apply Blender_quantity_raises.
Qed.

Lemma Blender_calculate_raises els qtos results :
  raises_only calculator_error (Blender_calculate els qtos results).
Proof.
  unfold Blender_calculate.
  apply raises_only_bind; [unfold SI2ProjectUnitConverter_init; exceptions |].
  intros converter. apply raises_only_bind; [| exceptions].
  apply raises_only_foldM. intros. apply Blender_element_raises.
Qed.

Lemma quantify_raises els rules : raises_only calculator_error (quantify els rules).
Proof.
  unfold quantify, quantify_with, group_by_class.
  apply raises_only_bind; [exceptions |]. intros m.
  apply raises_only_foldM. intros results [group queries].
  apply raises_only_bind_from_option; [done |]. intros calculator_ Hc.
  apply raises_only_foldM. intros results' [ifc_class qtos].
  apply raises_only_bind; [exceptions |]. intros schema_. cbv zeta.
  destruct (decide _); [exceptions |].
  apply calculators_lookup in Hc as [[_ ->]|[_ ->]]; cbn [calculate].
  - apply IfcOpenShell_calculate_raises.
  - apply Blender_calculate_raises.
Qed.

(** X11: The [while True] loop of [IfcOpenShell.calculate] ends for every
    iterator: a task stores the quantities of each shape its iterator
    yields, once and in the iterator's order, so that the loop never runs
    out of budget, in a calculator or in [quantify]. *)
Theorem task_loop_runs_once_per_shape :
  (∀ cls ff results it qtos_ f,
     run_task cls ff results (it, qtos_) f
     = foldM (store_shape cls ff qtos_) results (yields f it) f)
  ∧ (∀ els qtos results f,
       IfcOpenShell_calculate els qtos results f ≠ Raise LoopBudget)
  ∧ (∀ els rules f, quantify els rules f ≠ Raise LoopBudget).
Proof.
  split_and!.
  - apply run_task_yields.
  - intros els qtos results f Hrun.
    apply (IfcOpenShell_calculate_raises els qtos results f _ Hrun).
  - intros els rules f Hrun. apply (quantify_raises els rules f _ Hrun).
Qed.

(** *** The unit converter *)

(** X3: [SI2ProjectUnitConverter.convert] cannot raise: [__init__] gives
    [si_names] a name for every measure that can have a project unit.  A
    value of a measure outside the five known ones, or of a measure whose
    unit the project does not declare, is returned as it is; any other
    value goes through [ifcopenshell.util.unit.convert], from the SI unit
    to the project unit's prefix and name. *)
Theorem converter_never_raises f :
  ∃ converter,
    SI2ProjectUnitConverter_init f = Ok (converter, f)
    ∧ ∀ value measure_,
        (∃ converted, convert converter value measure_ = Ok converted)
        ∧ (measure_ ∉ measure_units.*1 →
           convert converter value measure_ = Ok value)
        ∧ (∀ unit_type si_name,
             (measure_, (unit_type, si_name)) ∈ measure_units →
             match get_project_unit f unit_type with
             | None => convert converter value measure_ = Ok value
             | Some unit =>
                 convert converter value measure_
                 = Ok (unit_convert value None si_name
                         (prefix_and_name f unit).1 (prefix_and_name f unit).2)
             end).
Proof.
  destruct (SI2ProjectUnitConverter_init_run f) as (converter & Hinit & Hconvert).
  exists converter. split; [done |]. intros value measure_.
  rewrite Hconvert. split_and!.
  - eauto.
  - intros Hout. unfold in_project_unit.
    by rewrite (not_elem_of_list_to_map_1 _ _ Hout).
  - intros unit_type si_name Hin. unfold in_project_unit.
    assert (list_to_map (M := gmap string (string * string)) measure_units
              !! measure_ = Some (unit_type, si_name)) as ->.
    { apply elem_of_list_to_map; [compute_done | done]. }
    by destruct (get_project_unit f unit_type).
Qed.

(** *** The iterators *)

Lemma of_kind_nonempty f k l :
  of_kind f k l ≠ [] ↔ ∃ e, e ∈ l ∧ is_a_kind f e "IfcTypeProduct" = k.
Proof.
  unfold of_kind. split.
  - intros Hne. destruct (filter _ l) as [|e rest] eqn:Hfilter; [done |].
    exists e. apply and_comm.
    apply (list_elem_of_filter (λ e, is_a_kind f e "IfcTypeProduct" = k)).
    rewrite Hfilter. left.
  - intros (e & He & Hk) Hnil.
    assert (e ∈ filter (λ e, is_a_kind f e "IfcTypeProduct" = k) l) as Hin
      by (by apply list_elem_of_filter).
    rewrite Hnil in Hin. by apply elem_of_nil in Hin.
Qed.

Lemma forallb_false {A} (p : A → bool) (l : list A) :
  forallb p l = false ↔ ∃ x, x ∈ l ∧ p x = false.
Proof.
  induction l as [|a l IH]; cbn [forallb].
  - split; [done |]. intros (x & Hx & _). by apply elem_of_nil in Hx.
  - rewrite andb_false_iff, IH. split.
    + intros [Ha|(x & Hx & Hp)].
      * exists a. split; [left | done].
      * exists x. split; [by right | done].
    + intros (x & [->|Hx]%elem_of_cons & Hp); [by left |]. right. eauto.
Qed.

(** X5: [create_iterators] fails in two cases only.  It raises the
    AssertionError of [IteratorForTypes] exactly when some element is a type
    product and the file has no Model/Body/MODEL_VIEW context.  Otherwise it
    raises the ValueError of the geometry iterator exactly when some
    element is not a type product, so that the iterator is constructed, and
    some element of the list, which is passed whole as [include], is not an
    IfcProduct.  It creates no iterator for an empty list, and an iterator
    over type products comes before the geometry iterator. *)
Theorem create_iterators_needs_body_context settings_ l f :
  (create_iterators settings_ l f = Raise AssertionError ↔
   (∃ e, e ∈ l ∧ is_a_kind f e "IfcTypeProduct" = true)
   ∧ get_context f "Model" "Body" "MODEL_VIEW" = None)
  ∧ (create_iterators settings_ l f = Raise ValueError ↔
     ((∃ e, e ∈ l ∧ is_a_kind f e "IfcTypeProduct" = true) →
      is_Some (get_context f "Model" "Body" "MODEL_VIEW"))
     ∧ (∃ e, e ∈ l ∧ is_a_kind f e "IfcTypeProduct" = false)
     ∧ (∃ e, e ∈ l ∧ is_a_kind f e "IfcProduct" = false))
  ∧ (∀ err, create_iterators settings_ l f = Raise err →
       err = AssertionError ∨ err = ValueError)
  ∧ (l = [] → create_iterators settings_ l f = Ok ([], f))
  ∧ (∀ its f', create_iterators settings_ l f = Ok (its, f') →
       ∀ i j t g, its !! i = Some (ForTypes t) → its !! j = Some (Geom g) →
                  i = 0 ∧ j = 1).
Proof.
  pose proof (create_iterators_cases settings_ l f) as Hcases. cbv zeta in Hcases.
  split_and!.
  - rewrite Hcases, <- (of_kind_nonempty f true l).
    repeat case_match; split; try done; intros [? ?]; done.
  - rewrite Hcases, <- (of_kind_nonempty f true l), <- (of_kind_nonempty f false l).
    rewrite <- (forallb_false (λ inst, is_a_kind f inst "IfcProduct") l).
    repeat case_match; split; try done;
      try (intros (Hcontext & Hother & Hproducts); try done;
           by destruct Hcontext as [? [=]]).
  - intros err. rewrite Hcases.
    repeat case_match; intros [= <-]; auto.
  - by intros ->.
  - intros its f' Hok i j t g Hi Hj.
    apply create_iterators_run in Hok as (-> & for_types & -> & Hfor).
    destruct (of_kind f true l) as [|e types].
    + subst for_types. cbn [app] in Hi.
      destruct (of_kind f false l); [done |]. by destruct i as [|[|]].
    + destruct Hfor as (model & _ & ->). cbn [app] in Hi, Hj.
      destruct (of_kind f false l).
      * by destruct j as [|[|]].
      * destruct i as [|[|[|]]], j as [|[|[|]]]; done.
Qed.

Lemma no_type_products f l :
  type_products_are_no_products f →
  forallb (λ inst, is_a_kind f inst "IfcProduct") l = true →
  of_kind f true l = [].
Proof.
  intros Hschema Hall.
  destruct (of_kind f true l) as [|e types] eqn:Hkind; [done |].
  assert (e ∈ of_kind f true l) as Hin by (rewrite Hkind; left).
  apply list_elem_of_filter in Hin as [Htype He].
  apply Hschema in Htype.
  assert (forallb (λ inst, is_a_kind f inst "IfcProduct") l = false) as Hfalse
    by (apply forallb_false; eauto).
  congruence.
Qed.

Lemma of_kind_whole f k l : of_kind f (negb k) l = [] → of_kind f k l = l.
Proof.
  unfold of_kind. induction l as [|e l IH]; [done |].
  rewrite !filter_cons.
  destruct (decide (is_a_kind f e "IfcTypeProduct" = negb k)) as [Hk|Hk]; [done |].
  intros Hnone. rewrite decide_True, IH; [done | done |].
  destruct (is_a_kind f e "IfcTypeProduct"), k; done.
Qed.

Lemma create_iterators_mixed settings_ l f e1 e2 :
  type_products_are_no_products f →
  e1 ∈ l → e2 ∈ l →
  is_a_kind f e1 "IfcTypeProduct" = true →
  is_a_kind f e2 "IfcTypeProduct" = false →
  create_iterators settings_ l f
  = Raise (match get_context f "Model" "Body" "MODEL_VIEW" with
           | Some _ => ValueError
           | None => AssertionError
           end).
Proof.
  intros Hschema H1 H2 Ht1 Ht2. rewrite create_iterators_cases. cbv zeta.
  pose proof (no_type_products f l Hschema) as Hproducts.
  assert (of_kind f true l ≠ []) as Htrue by (apply of_kind_nonempty; eauto).
  assert (of_kind f false l ≠ []) as Hfalse by (apply of_kind_nonempty; eauto).
  destruct (of_kind f true l) as [|e types] eqn:Hkind; [done |].
  destruct (get_context f "Model" "Body" "MODEL_VIEW") as [model|]; [| done].
  destruct (of_kind f false l) as [|e' others]; [done |].
  destruct (forallb _ l) eqn:Hall; [| done].
  by specialize (Hproducts eq_refl).
Qed.

(** C10: the only iterator with workers is the geometry iterator.  When
    [create_iterators] returns, every iterator it built is the module's own
    sequential [IteratorForTypes] or the geometry iterator, built with one
    worker per CPU core exactly when some element is not a type product.
    But the include list of the geometry iterator is the whole element
    list, not the elements that are no type products: the call returns
    only for a list without type products or of type products only.  For
    a list that holds both, the geometry iterator, which supports products
    only, raises ValueError; the AssertionError of [IteratorForTypes] comes
    first in a file without body context. *)
Theorem create_iterators_includes_whole_list settings_ l f :
  type_products_are_no_products f →
  (∀ its f',
     create_iterators settings_ l f = Ok (its, f') →
     (∀ it, it ∈ its →
        match it with
        | Geom g =>
            gi_num_threads g = cpu_count ∧ gi_include g = l
            ∧ of_kind f false l = l
        | ForTypes t => ift_elements t = l ∧ of_kind f true l = l
        end)
     ∧ ((∃ g, Geom g ∈ its) ↔ ∃ e, e ∈ l ∧ is_a_kind f e "IfcTypeProduct" = false))
  ∧ (∀ e1 e2,
       e1 ∈ l → e2 ∈ l →
       is_a_kind f e1 "IfcTypeProduct" = true →
       is_a_kind f e2 "IfcTypeProduct" = false →
       create_iterators settings_ l f
       = Raise (match get_context f "Model" "Body" "MODEL_VIEW" with
                | Some _ => ValueError
                | None => AssertionError
                end)).
Proof.
  intros Hschema.
  pose proof (create_iterators_cases settings_ l f) as Hcases. cbv zeta in Hcases.
  pose proof (no_type_products f l Hschema) as Hproducts.
  split.
  - intros its f' Hrun. rewrite Hcases in Hrun.
    rewrite <- (of_kind_nonempty f false l).
    destruct (of_kind f true l) as [|e types] eqn:Htrue.
    + destruct (of_kind f false l) as [|e' others] eqn:Hfalse.
      * injection Hrun as <- <-.
        split; [intros it Hit; by apply elem_of_nil in Hit |].
        split; [intros [g Hg]; by apply elem_of_nil in Hg | done].
      * destruct (forallb _ l) eqn:Hall; [| done]. injection Hrun as <- <-.
        split.
        -- intros it Hit. apply list_elem_of_singleton in Hit as ->.
           cbn [gi_num_threads gi_include]. split_and!; [done | done |].
           rewrite <- Hfalse. by apply (of_kind_whole f false l).
        -- split; [done |]. intros _. eexists. left.
    + destruct (get_context f "Model" "Body" "MODEL_VIEW") as [model|]; [| done].
      destruct (of_kind f false l) as [|e' others] eqn:Hfalse.
      * injection Hrun as <- <-. split.
        -- intros it Hit. apply list_elem_of_singleton in Hit as ->.
           cbn [ift_elements].
           pose proof (of_kind_whole f true l Hfalse) as Hwhole.
           rewrite Htrue in Hwhole. by rewrite Hwhole.
        -- split; [| done]. intros [g Hg].
           apply list_elem_of_singleton in Hg. discriminate Hg.
      * destruct (forallb _ l) eqn:Hall; [| done].
        by specialize (Hproducts eq_refl).
  - intros e1 e2 H1 H2 Ht1 Ht2. by apply (create_iterators_mixed _ _ _ e1 e2).
Qed.

(** *** The choice of the calculator *)

Lemma calculate_by_name_lookup group :
  calculate <$> calculators !! group = calculate_by_name group.
Proof.
  unfold calculators, calculate_by_name.
  destruct (String.eqb_spec group "IfcOpenShell") as [->|Hshell]; [done |].
  rewrite lookup_insert_ne by done.
  destruct (String.eqb_spec group "Blender") as [->|Hblender]; [done |].
  by rewrite lookup_singleton_ne.
Qed.

(** C5: [quantify] is the dispatch that sends a rule group named
    IfcOpenShell to [IfcOpenShell.calculate] and a rule group named Blender
    to [Blender.calculate], and that raises KeyError at a group of any other
    name; the calculator table holds these two calculators under these two
    names, and no other entry. *)
Theorem quantify_dispatches_to_two_calculators :
  (∀ els rules f,
     quantify els rules f = quantify_by_two_calculators els rules f)
  ∧ (∀ group, calculate <$> calculators !! group = calculate_by_name group)
  ∧ dom calculators = {["Blender"; "IfcOpenShell"]}.
Proof.
  split_and!.
  - intros els rules f. unfold quantify, quantify_with, quantify_by_two_calculators.
    rewrite !bind_run. destruct (group_by_class els f) as [[m f1]|]; [| done].
    apply foldM_ext. intros results [group queries] f2 _.
    rewrite !bind_run. rewrite <- calculate_by_name_lookup.
    destruct (calculators !! group) as [c|]; [| done]. cbn [fmap option_fmap option_map from_option].
    done.
  - apply calculate_by_name_lookup.
  - unfold calculators. rewrite dom_insert_L, dom_singleton_L. set_solver.
Qed.


(** *** Formulas that take no part *)

Lemma classify_formula_unfiled n q formula t f :
  filed_formula formula = false →
  classify_formula n q formula t f = Ok (t, f).
Proof.
  unfold filed_formula, classify_formula. destruct formula as [formula|]; [| done].
  case_bool_decide; [done |]. cbn [negb andb]. cbv zeta.
  destruct (endswith formula "get_segment_length"); [done |].
  cbn [orb]. by intros ->.
Qed.

Lemma classify_formulas_unfiled qtos f :
  (∀ n quantities q formula,
     (n, quantities) ∈ qtos → (q, formula) ∈ quantities →
     filed_formula formula = false) →
  classify_formulas qtos f = Ok (mkTables ∅ ∅ ∅, f).
Proof.
  unfold classify_formulas. generalize (mkTables ∅ ∅ ∅).
  induction qtos as [|[n quantities] qtos IH]; intros t Hall; [done |].
  cbn [foldM]. rewrite bind_run.
  assert (foldM (λ t '(quantity, formula), classify_formula n quantity formula t)
                t quantities f = Ok (t, f)) as ->.
  { assert (∀ q formula, (q, formula) ∈ quantities → filed_formula formula = false)
      as Hq by (intros q formula ?; apply (Hall n quantities q formula); [left | done]).
    clear Hall IH. induction quantities as [|[q formula] quantities IHq]; [done |].
    cbn [foldM]. rewrite bind_run, classify_formula_unfiled.
    - apply IHq. intros q' formula' ?. apply (Hq q' formula'). by right.
    - apply (Hq q formula). left. }
  apply IH. intros n' quantities' q formula ? ?.
  apply (Hall n' quantities' q formula); [by right | done].
Qed.

(** X6: A quantity whose formula is None, empty, or neither ends with
    get_segment_length nor starts with gross_ or net_ is passed over
    without any error: when no formula of the quantity sets takes part,
    [IfcOpenShell.calculate] creates no iterator and returns the results it
    was given. *)
Theorem calculate_skips_unprefixed_formulas els qtos results f :
  (∀ n quantities q formula,
     (n, quantities) ∈ qtos → (q, formula) ∈ quantities →
     filed_formula formula = false) →
  IfcOpenShell_calculate els qtos results f = Ok (results, f)
  ∧ ∀ gs ns, ∃ t,
      classify_formulas qtos f = Ok (t, f)
      ∧ create_tasks gs ns els t f = Ok ([], f).
Proof.
  intros Hall. pose proof (classify_formulas_unfiled qtos f Hall) as Hclassify.
  assert (∀ gs ns, create_tasks gs ns els (mkTables ∅ ∅ ∅) f = Ok ([], f))
    as Htasks.
  { intros gs ns. unfold create_tasks. cbn [gross_qtos net_qtos].
    rewrite bind_run, !decide_True by done. by rewrite ret_run. }
  split; [| by eauto].
  unfold IfcOpenShell_calculate. cbv zeta.
  rewrite bind_run. unfold read at 1. cbv beta iota.
  rewrite bind_run, Hclassify. rewrite bind_run, Htasks.
  destruct (SI2ProjectUnitConverter_init_run f) as (converter & Hinit & _).
  by rewrite bind_run, Hinit.
Qed.

(** *** What a task keeps *)

Lemma foldM_ok_elem_frame {A B} (g : A → B → M file A) (l : list B) a f r f' b :
  (∀ a b, returns (g a b) f (λ _, True)) →
  foldM g a l f = Ok (r, f') → b ∈ l →
  ∃ a1 a2, g a1 b f = Ok (a2, f).
Proof.
  intros Hframe. revert a. induction l as [|b' l IH]; intros a Hrun Hin.
  - by apply elem_of_nil in Hin.
  - cbn [foldM] in Hrun. apply bind_ok in Hrun as (a' & f1 & Hstep & Hrun).
    destruct (Hframe _ _ _ _ Hstep) as [-> _].
    apply elem_of_cons in Hin as [->|Hin]; [eauto | by eapply IH].
Qed.

Lemma run_task_invariant cls ff results it qtos_ f (I : ResultsDict → Prop) :
  (∀ r e g, (Some e, g) ∈ yields f it → I r →
     returns (store_quantities cls ff qtos_ r (e, g)) f I) →
  I results → returns (run_task cls ff results (it, qtos_)) f I.
Proof.
  intros Hstep Hstart r f'. rewrite run_task_yields. revert r f'.
  apply returns_foldM; [done |]. intros r [oe g] Hin Hr r' f'.
  rewrite store_shape_run. cbn [fst snd]. destruct oe as [e|]; [| done].
  by apply Hstep.
Qed.

Lemma run_tasks_invariant cls ff tasks results f (I : ResultsDict → Prop) :
  (∀ it table r e g, (it, table) ∈ tasks → (Some e, g) ∈ yields f it → I r →
     returns (store_quantities cls ff table r (e, g)) f I) →
  I results → returns (foldM (run_task cls ff) results tasks) f I.
Proof.
  intros Hstep Hstart. apply returns_foldM; [done |].
  intros r [it table] Htask Hr. apply run_task_invariant; [| done].
  intros r1 e g. by apply Hstep.
Qed.

Lemma yields_within f D it e g :
  iterator_within f D it → (Some e, g) ∈ yields f it → e ∈ D.
Proof.
  destruct it as [gi|t]; cbn [iterator_within yields].
  - intros Hwithin Hin. apply list_elem_of_fmap in Hin as ([id geo] & [= He ->] & Hin).
    by apply (Hwithin id geo e).
  - intros [Hwithin _] Hin.
    apply list_elem_of_omap in Hin as (x & Hx & Hshape).
    unfold type_shape in Hshape.
    destruct (get_representation f x _); [| done]. injection Hshape as -> _.
    apply Hwithin. by apply elem_of_reverse.
Qed.

Lemma lookup_set_quantity_ne e0 e n q v (r : ResultsDict) :
  e0 ≠ e → set_quantity e n q v r !! e0 = r !! e0.
Proof. intros Hne. unfold set_quantity. by rewrite lookup_insert_ne. Qed.

Lemma lookup_setdefault_name_ne e0 e n (r : ResultsDict) :
  e0 ≠ e → setdefault_name e n r !! e0 = r !! e0.
Proof.
  intros Hne. unfold setdefault_name. destruct (_ !! n); [done |].
  by rewrite lookup_insert_ne.
Qed.

Lemma lookup_setdefault_element_ne e0 e (r : ResultsDict) :
  e0 ≠ e → setdefault_element e r !! e0 = r !! e0.
Proof.
  intros Hne. unfold setdefault_element. destruct (r !! e); [done |].
  by rewrite lookup_insert_ne.
Qed.

Lemma store_quantities_lookup_other cls ff qtos_ (r : ResultsDict) e g f e0 :
  e0 ≠ e →
  returns (store_quantities cls ff qtos_ r (e, g)) f (λ r', r' !! e0 = r !! e0).
Proof.
  intros Hne. unfold store_quantities.
  apply (returns_foldM _ _ _ _ (λ r', r' !! e0 = r !! e0)).
  { by apply lookup_setdefault_element_ne. }
  intros r1 [n qs] _ Hr1.
  apply (returns_foldM _ _ _ _ (λ r', r' !! e0 = r !! e0)).
  { by rewrite lookup_setdefault_name_ne. }
  intros r2 [q F] _ Hr2. unfold store_quantity.
  assert (∀ v, set_quantity e n q v r2 !! e0 = r !! e0) as Hset
    by (intros v; by rewrite lookup_set_quantity_ne).
  case_bool_decide.
  - frame_bind; [apply get_segment_length_frame |]. by step.
  - frame_bind; [by step |]. frame_bind; [by step |]. frame_bind; [by step |].
    frame_bind; [by step |]. by step.
Qed.

Lemma Blender_element_lookup_other converter qtos st element f e0 :
  e0 ≠ element →
  returns (Blender_element converter qtos st element) f
    (λ st', st'.2 !! e0 = st.2 !! e0).
Proof.
  intros Hne [ff' r'] f' Hrun.
  destruct (Blender_element_frame _ _ _ _ _ _ _ Hrun) as [-> _]. split; [done |].
  unfold Blender_element in Hrun. destruct st as [ff0 r0]. cbn [snd].
  destruct (get_object element); [| by injection Hrun as <- <-].
  case_bool_decide; [by injection Hrun as <- <- |].
  apply bind_ok in Hrun as ([ff1 element_results] & f1 & _ & Hrun).
  destruct (decide (element_results = ∅)); injection Hrun as <- <- <-; [done |].
  by rewrite lookup_insert_ne.
Qed.

(** X10: Neither calculator touches the results of an element outside the set
    it was given (for [IfcOpenShell], when the geometry iterator yields
    shapes of included elements only). *)
Theorem calculators_leave_other_elements :
  (include_respected →
   ∀ els qtos results0 f results f',
     IfcOpenShell_calculate els qtos results0 f = Ok (results, f') →
     ∀ e, e ∉ els → results !! e = results0 !! e)
  ∧ (∀ els qtos results0 f results f',
       Blender_calculate els qtos results0 f = Ok (results, f') →
       ∀ e, e ∉ els → results !! e = results0 !! e).
Proof.
  split.
  - intros Hgeom els qtos results0 f results f' Hrun e He.
    unfold IfcOpenShell_calculate in Hrun. cbv zeta in Hrun.
    apply bind_ok in Hrun as (us & f1 & [= <- <-] & Hrun).
    apply bind_ok in Hrun as (t & f1 & Ht & Hrun).
    destruct (classify_formulas_frame _ _ _ _ Ht) as [-> _].
    apply bind_ok in Hrun as (tasks & f1 & Htasks & Hrun).
    apply bind_ok in Hrun as (c & f2 & Hc & Hrun).
    destruct (SI2ProjectUnitConverter_init_frame _ _ _ Hc) as [-> _].
    pose proof (λ task, create_tasks_iterators _ _ _ _ _ _ _ task Htasks) as Hmember.
    destruct (create_tasks_frame _ _ _ _ _ _ _ Htasks) as [-> _].
    refine (proj2 (run_tasks_invariant _ _ _ _ _
                     (λ r : ResultsDict, r !! e = results0 !! e) _ _ _ _ Hrun));
      [| done].
    intros it table r1 e1 g1 Htask Hyield Hr1.
    destruct (Hmember _ Htask) as (its & Hits & Hit & _). cbn [fst] in Hit.
    pose proof (create_iterators_within _ _ _ _ _ _ Hgeom Hits Hit) as Hwithin.
    rewrite list_to_set_elements_L in Hwithin.
    rewrite <- Hr1. apply store_quantities_lookup_other. intros ->.
    apply He. by eapply yields_within.
  - intros els qtos results0 f results f' Hrun e He.
    unfold Blender_calculate in Hrun.
    apply bind_ok in Hrun as (c & f1 & Hc & Hrun).
    destruct (SI2ProjectUnitConverter_init_frame _ _ _ Hc) as [-> _].
    apply bind_ok in Hrun as ([ff r] & f1 & Hloop & [= <- <-]).
    cut (returns (foldM (Blender_element c qtos) (∅, results0) (elements els)) f
           (λ st, st.2 !! e = results0 !! e)).
    { intros Hinv. by destruct (Hinv _ _ Hloop). }
    apply (returns_foldM _ _ _ _
             (λ st : gmap string (blender_object → option float) * ResultsDict,
                st.2 !! e = results0 !! e)); [done |].
    intros st element Hel Hst. rewrite <- Hst.
    apply Blender_element_lookup_other. intros ->.
    apply He. by apply elem_of_elements.
Qed.

(** *** What [IfcOpenShell.calculate] keeps *)

Lemma dom_setdefault_name_keeps element name_ (results : ResultsDict) :
  dom results ⊆ dom (setdefault_name element name_ results).
Proof.
  unfold setdefault_name. destruct (_ !! name_); [done |].
  rewrite dom_insert_L. set_solver.
Qed.

Lemma store_quantities_keeps cls ff qtos_ (r0 r : ResultsDict) item f :
  (dom r0 ⊆ dom r
   ∧ ∀ e n q, is_Some (get_quantity e n q r0) → is_Some (get_quantity e n q r)) →
  returns (store_quantities cls ff qtos_ r item) f
    (λ r', dom r0 ⊆ dom r'
           ∧ ∀ e n q, is_Some (get_quantity e n q r0) →
                      is_Some (get_quantity e n q r')).
Proof.
  intros [Hdom Hkeep]. destruct item as [element g]. unfold store_quantities.
  apply returns_foldM.
  { rewrite dom_setdefault_element. split; [set_solver |].
    intros e n q. rewrite get_setdefault_element. apply Hkeep. }
  intros r1 [n1 qs] _ [Hdom1 Hkeep1].
  apply returns_foldM.
  { split; [etrans; [done | apply dom_setdefault_name_keeps] |].
    intros e n q. rewrite get_setdefault_name. apply Hkeep1. }
  intros r2 [q2 F] _ [Hdom2 Hkeep2]. unfold store_quantity.
  assert (∀ v, dom r0 ⊆ dom (set_quantity element n1 q2 v r2)
               ∧ ∀ e n q, is_Some (get_quantity e n q r0) →
                   is_Some (get_quantity e n q (set_quantity element n1 q2 v r2)))
    as Hset.
  { intros v. rewrite dom_set_quantity. split; [set_solver |].
    intros e n q Hsome. rewrite get_set_quantity.
    destruct (decide _); [done | by apply Hkeep2]. }
  case_bool_decide.
  - frame_bind; [apply get_segment_length_frame |]. by step.
  - frame_bind; [by step |]. frame_bind; [by step |]. frame_bind; [by step |].
    frame_bind; [by step |]. by step.
Qed.

(** X9: [IfcOpenShell.calculate] only adds to the results it is given or
    overwrites them: every element that was a key is still one, and every
    quantity that was stored is still stored, possibly with a new value. *)
Theorem calculate_keeps_stored_quantities els qtos results0 f results f' :
  IfcOpenShell_calculate els qtos results0 f = Ok (results, f') →
  dom results0 ⊆ dom results
  ∧ ∀ e n q, is_Some (get_quantity e n q results0) →
             is_Some (get_quantity e n q results).
Proof.
  intros Hrun. unfold IfcOpenShell_calculate in Hrun. cbv zeta in Hrun.
  apply bind_ok in Hrun as (us & f1 & [= <- <-] & Hrun).
  apply bind_ok in Hrun as (t & f1 & Ht & Hrun).
  destruct (classify_formulas_frame _ _ _ _ Ht) as [-> _].
  apply bind_ok in Hrun as (tasks & f1 & Htasks & Hrun).
  apply bind_ok in Hrun as (c & f2 & Hc & Hrun).
  destruct (SI2ProjectUnitConverter_init_frame _ _ _ Hc) as [-> _].
  destruct (create_tasks_frame _ _ _ _ _ _ _ Htasks) as [-> _].
  refine (proj2 (run_tasks_invariant _ _ _ _ _
                   (λ r : ResultsDict,
                      dom results0 ⊆ dom r
                      ∧ ∀ e n q, is_Some (get_quantity e n q results0) →
                                 is_Some (get_quantity e n q r)) _ _ _ _ Hrun));
    [| done].
  intros it table r1 e1 g1 _ _ Hr1. by apply store_quantities_keeps.
Qed.

(** *** Where a filed formula ends up *)

Lemma classify_formula_filed n q formula t f :
  filed_formula (Some formula) = true →
  entry (gross_qtos t) n q = None → entry (net_qtos t) n q = None →
  returns (classify_formula n q (Some formula) t) f
    (λ t', entry (side_table (startswith formula "gross_") t') n q
           = Some (partition_tail "_" formula)
           ∧ entry (side_table (negb (startswith formula "gross_")) t') n q = None).
Proof.
  intros Hfiled Hg Hn. unfold classify_formula. unfold filed_formula in Hfiled.
  case_bool_decide; [done |]. cbn [negb andb] in Hfiled. cbv zeta.
  destruct (endswith formula "get_segment_length").
  - step. destruct (startswith formula "gross_"); cbn;
      by rewrite entry_setdefault_set, decide_True by done.
  - cbn [orb] in Hfiled. rewrite Hfiled. frame_bind; [by step |]. step.
    destruct (startswith formula "gross_"); cbn;
      by rewrite entry_setdefault_set, decide_True by done.
Qed.

Lemma classify_formulas_at qtos f n quantities q formula (T : formula_tables → Prop) :
  NoDup qtos.*1 → (∀ n' qs, (n', qs) ∈ qtos → NoDup qs.*1) →
  (n, quantities) ∈ qtos → (q, formula) ∈ quantities →
  (∀ t, entry (gross_qtos t) n q = None → entry (net_qtos t) n q = None →
        returns (classify_formula n q formula t) f T) →
  (∀ t1 t2, T t1 →
     entry (gross_qtos t2) n q = entry (gross_qtos t1) n q →
     entry (net_qtos t2) n q = entry (net_qtos t1) n q → T t2) →
  returns (classify_formulas qtos) f T.
Proof.
  intros Hnodup Hinner Hn Hq Htarget Hkeeps. unfold classify_formulas.
  destruct (alist_split _ _ _ Hnodup Hn) as (l1 & l2 & -> & Hl).
  destruct (alist_split _ _ _ (Hinner _ _ Hn) Hq) as (m1 & m2 & -> & Hm).
  set (blank := λ t : formula_tables,
         entry (gross_qtos t) n q = None ∧ entry (net_qtos t) n q = None).
  assert (∀ t1 t2, blank t1 →
     entry (gross_qtos t2) n q = entry (gross_qtos t1) n q →
     entry (net_qtos t2) n q = entry (net_qtos t1) n q →
     (∀ k, is_Some (formula_functions t1 !! k) →
           is_Some (formula_functions t2 !! k)) → blank t2) as Hblank.
  { intros t1 t2 [? ?] Hg' Hn' _. unfold blank. by rewrite Hg', Hn'. }
  assert (∀ t1 t2, T t1 →
     entry (gross_qtos t2) n q = entry (gross_qtos t1) n q →
     entry (net_qtos t2) n q = entry (net_qtos t1) n q →
     (∀ k, is_Some (formula_functions t1 !! k) →
           is_Some (formula_functions t2 !! k)) → T t2) as HT.
  { intros t1 t2 ? ? ? _. by eapply Hkeeps. }
  apply (returns_foldM_app _ _ _ _ _ blank).
  { apply returns_foldM; [done |]. intros t1 [n' qs] Hin Ht1.
    apply (classify_inner_keeps _ _ _ _ n q); [| done | done].
    intros item _. left. apply (Hl (n', qs)). apply elem_of_app. by left. }
  intros t1 Ht1. cbn [foldM].
  apply (returns_bind _ _ _ T).
  - apply (returns_foldM_app _ _ _ _ _ blank).
    { apply (classify_inner_keeps _ _ _ _ n q); [| done | done].
      intros item Hin. right. apply (Hm item). apply elem_of_app. by left. }
    intros t2 [Hg2 Hn2]. cbn [foldM].
    eapply returns_bind; [by apply Htarget |].
    intros t3 Ht3.
    apply (classify_inner_keeps _ _ _ _ n q); [| done | done].
    intros item Hin. right. apply (Hm item). apply elem_of_app. by right.
  - intros t2 Ht2. apply returns_foldM; [done |]. intros t3 [n' qs] Hin Ht3.
    apply (classify_inner_keeps _ _ _ _ n q); [| done | done].
    intros item _. left. apply (Hl (n', qs)). apply elem_of_app. by right.
Qed.

Lemma classify_formulas_filed qtos f n quantities q formula :
  NoDup qtos.*1 → (∀ n' qs, (n', qs) ∈ qtos → NoDup qs.*1) →
  (n, quantities) ∈ qtos → (q, Some formula) ∈ quantities →
  filed_formula (Some formula) = true →
  returns (classify_formulas qtos) f
    (λ t, entry (side_table (startswith formula "gross_") t) n q
          = Some (partition_tail "_" formula)
          ∧ entry (side_table (negb (startswith formula "gross_")) t) n q = None).
Proof.
  intros Hnodup Hinner Hn Hq Hfiled.
  apply (classify_formulas_at _ _ n quantities q (Some formula)); try done.
  - intros t. by apply classify_formula_filed.
  - intros t1 t2 [H1 H2] Hg Hnet.
    destruct (startswith formula "gross_"); cbn in *; by rewrite Hg, Hnet.
Qed.

(** The tasks of a table with an entry run over every iterator. *)
Lemma tasks_of_table gs ns els t f tasks its f' gross n q F :
  create_tasks gs ns els t f = Ok (tasks, f) →
  create_iterators gs (elements els) f = Ok (its, f') →
  entry (side_table gross t) n q = Some F →
  ∀ it, it ∈ its → (it, side_table gross t) ∈ tasks.
Proof.
  intros Htasks Hits Hentry it Hit.
  assert (side_table gross t ≠ ∅) as Hnonempty.
  { intros Hempty. by rewrite Hempty, entry_empty in Hentry. }
  apply create_tasks_run in Htasks as (_ & its' & Hits' & ->).
  assert (its' = its) as ->.
  { destruct Hits' as [[Hg0 Hn0]|Hits']; [by destruct gross |].
    rewrite Hits in Hits'. by injection Hits' as ->. }
  apply elem_of_app.
  destruct gross; cbn in *; [left | right]; rewrite decide_False by done;
    by apply (list_elem_of_fmap_2 (λ it, (it, _))).
Qed.

(** *** Where the stored values come from *)

Lemma classify_formula_configured qtos n quantities q formula t f :
  (n, quantities) ∈ qtos → (q, formula) ∈ quantities →
  (∀ gross n' q' F, entry (side_table gross t) n' q' = Some F →
                    configured qtos n' q' F) →
  returns (classify_formula n q formula t) f
    (λ t', ∀ gross n' q' F, entry (side_table gross t') n' q' = Some F →
                            configured qtos n' q' F).
Proof.
  intros Hn Hq Ht. unfold classify_formula.
  destruct formula as [formula|]; [| by step].
  case_bool_decide as Hempty; [by step |]. cbv zeta.
  assert (filed_formula (Some formula) = true →
          ∀ t', (∀ gross n' q' F,
                   entry (side_table gross t') n' q' = Some F →
                   (gross = startswith formula "gross_" ∧ n' = n ∧ q' = q
                    ∧ F = partition_tail "_" formula)
                   ∨ entry (side_table gross t) n' q' = Some F) →
                ∀ gross n' q' F, entry (side_table gross t') n' q' = Some F →
                                 configured qtos n' q' F) as Hstored.
  { intros Hfiled t' Ht' gross n' q' F Hentry.
    destruct (Ht' _ _ _ _ Hentry) as [(_ & -> & -> & ->)|Hold]; [| by eapply Ht].
    by exists quantities, formula. }
  assert (∀ gross n' q' F,
            entry (side_table gross
                     (if startswith formula "gross_"
                      then mkTables (setdefault_set n q (partition_tail "_" formula)
                                       (gross_qtos t)) (net_qtos t)
                                    (formula_functions t)
                      else mkTables (gross_qtos t)
                                    (setdefault_set n q (partition_tail "_" formula)
                                       (net_qtos t))
                                    (formula_functions t))) n' q' = Some F →
            (gross = startswith formula "gross_" ∧ n' = n ∧ q' = q
             ∧ F = partition_tail "_" formula)
            ∨ entry (side_table gross t) n' q' = Some F) as Hset.
  { intros gross n' q' F.
    destruct (startswith formula "gross_"), gross; cbn [side_table gross_qtos net_qtos];
      rewrite ?entry_setdefault_set; try (by right);
      (case_decide as Hkey; [| by right]); destruct Hkey as [-> ->];
      intros [= <-]; by left. }
  destruct (endswith formula "get_segment_length") eqn:Hends.
  { step. apply Hstored; [| exact Hset].
    unfold filed_formula. by rewrite bool_decide_false, Hends by done. }
  destruct (startswith formula "gross_" || startswith formula "net_") eqn:Hprefix;
    [| by step].
  frame_bind; [by step |]. step. apply Hstored.
  { unfold filed_formula. rewrite bool_decide_false, Hends by done.
    cbn [negb andb orb]. exact Hprefix. }
  intros gross n' q' F Hentry. apply Hset.
  by destruct (startswith formula "gross_"), gross.
Qed.

Lemma classify_formulas_configured qtos f :
  returns (classify_formulas qtos) f
    (λ t, ∀ gross n q F, entry (side_table gross t) n q = Some F →
                         configured qtos n q F).
Proof.
  unfold classify_formulas.
  apply (returns_foldM _ _ _ _
    (λ t, ∀ gross n q F, entry (side_table gross t) n q = Some F →
                         configured qtos n q F)).
  { intros [] n q F; cbn [side_table gross_qtos net_qtos];
      by rewrite entry_empty. }
  intros t [n quantities] Hn Ht.
  apply (returns_foldM _ _ _ _
    (λ t, ∀ gross n q F, entry (side_table gross t) n q = Some F →
                         configured qtos n q F)); [done |].
  intros t' [q formula] Hq Ht'. by eapply classify_formula_configured.
Qed.

Section Computed.
Variables (f : file) (els : gset positive) (gs : settings) (qtos : Qtos).
Variables (cls : IfcOpenShell_cls) (ff : gmap string (geometry → option float)).
Variable results0 : ResultsDict.
Hypothesis Hff : ∀ k fn, ff !! k = Some fn → shape_function k = Some fn.
Hypothesis Hconvert :
  ∀ value m, convert (unit_converter cls) value m = Ok (in_project_unit f m value).

Local Abbreviation all_computed := (all_computed f gs els qtos results0).

Lemma store_quantity_computed e g n (r : ResultsDict) q F :
  shape_yielded f gs els e g → configured qtos n q F →
  all_computed r →
  returns (store_quantity cls ff e g n r (q, F)) f all_computed.
Proof using Hff Hconvert.
  intros Hyield Hconfigured Hr. unfold store_quantity.
  case_bool_decide as Hsegment.
  - apply (returns_bind _ _ _ (λ v, get_segment_length e f = Ok (v, f))).
    { intros v f' Hv. by destruct (get_segment_length_frame _ _ _ _ Hv) as [-> _]. }
    intros v Hv. step. intros e' n' q' value. rewrite get_set_quantity.
    case_decide as Hkey; [| apply Hr].
    destruct Hkey as (-> & -> & ->). intros [= <-]. right.
    exists F. split; [done |]. by rewrite bool_decide_true.
  - apply (returns_bind _ _ _ (λ fn, ff !! F = Some fn)); [by step |].
    intros fn Hfn.
    apply (returns_bind _ _ _ (λ raw, fn g = Some raw)); [by step |].
    intros raw Hraw.
    apply (returns_bind _ _ _ (λ func, raw_functions !! F = Some func));
      [by step |].
    intros func Hfunc. rewrite Hconvert.
    apply (returns_bind _ _ _ (λ v, v = in_project_unit f (measure func) raw)).
    { apply returns_lift. by intros ? [= <-]. }
    intros ? ->. step. intros e' n' q' value. rewrite get_set_quantity.
    case_decide as Hkey; [| apply Hr].
    destruct Hkey as (-> & -> & ->). intros [= <-]. right.
    exists F. split; [done |]. rewrite bool_decide_false by done.
    exists fn, func, g, raw. split_and!; [by apply Hff | done..].
Qed.

Lemma store_quantities_computed (table : QtosFormulas) e g (r : ResultsDict) :
  shape_yielded f gs els e g →
  (∀ n q F, entry table n q = Some F → configured qtos n q F) →
  all_computed r →
  returns (store_quantities cls ff table r (e, g)) f all_computed.
Proof using Hff Hconvert.
  intros Hyield Htable Hr. unfold store_quantities.
  apply (returns_foldM _ _ _ _ all_computed).
  { intros e' n' q' value. rewrite get_setdefault_element. apply Hr. }
  intros r1 [n quantities] Hn Hr1. apply elem_of_map_to_list in Hn.
  apply (returns_foldM _ _ _ _ all_computed).
  { intros e' n' q' value. rewrite get_setdefault_name. apply Hr1. }
  intros r2 [q F] Hq Hr2. apply elem_of_map_to_list in Hq.
  apply store_quantity_computed; [done | | done].
  apply Htable. unfold entry. by rewrite Hn.
Qed.

End Computed.

Lemma IfcOpenShell_calculate_computed els qtos results0 f :
  returns (IfcOpenShell_calculate els qtos results0) f
    (all_computed f (<["disable-opening-subtractions" := true]> ∅) els qtos
                  results0).
Proof.
  unfold IfcOpenShell_calculate. cbv zeta.
  set (gs := <["disable-opening-subtractions" := true]> ∅ : settings).
  frame_bind; [frame |].
  apply (returns_bind _ _ _
           (λ t, (∀ k fn, formula_functions t !! k = Some fn →
                          shape_function k = Some fn)
                 ∧ ∀ gross n q F, entry (side_table gross t) n q = Some F →
                                  configured qtos n q F)).
  { apply returns_and;
      [apply classify_formulas_functions | apply classify_formulas_configured]. }
  intros t [Hff Htables].
  intros results f'. rewrite bind_run.
  destruct (create_tasks gs ∅ els t f) as [[tasks f1]|] eqn:Htasks; [| done].
  destruct (create_tasks_frame _ _ _ _ _ _ _ Htasks) as [-> _].
  revert results f'.
  destruct (SI2ProjectUnitConverter_init_run f) as (converter & Hinit & Hconvert).
  apply (returns_bind _ _ _ (λ c, c = converter)).
  { intros c f'. rewrite Hinit. by intros [= <- <-]. }
  intros ? ->.
  apply run_tasks_invariant; [| intros e n q value ?; by left].
  intros it table r e g Htask Hyield Hr.
  destruct (create_tasks_iterators _ _ _ _ _ _ _ _ Htasks Htask)
    as (its & Hits & Hit & Htable).
  cbn [fst snd] in Hit, Htable.
  apply (store_quantities_computed f els gs qtos); [done | done | | | done].
  - by exists its, f, it.
  - intros n q F Hentry.
    destruct Htable as [[-> _]|[-> _]];
      [apply (Htables true) | apply (Htables false)]; done.
Qed.

Lemma raw_function_measures F func :
  raw_functions !! F = Some func → measure func ∈ measure_units.*1.
Proof.
  intros Hfunc. unfold raw_functions in Hfunc.
  apply elem_of_list_to_map_2 in Hfunc. unfold raw_function_items in Hfunc.
  repeat (apply elem_of_cons in Hfunc as [[= -> ->]|Hfunc];
          [cbn; set_solver |]).
  by apply elem_of_nil in Hfunc.
Qed.

Lemma in_project_unit_declared f measure_ unit_type si_name raw :
  (measure_, (unit_type, si_name)) ∈ measure_units →
  in_project_unit f measure_ raw
  = match get_project_unit f unit_type with
    | Some unit =>
        unit_convert raw None si_name
                     (prefix_and_name f unit).1 (prefix_and_name f unit).2
    | None => raw
    end.
Proof.
  intros Hin. unfold in_project_unit.
  assert (list_to_map (M := gmap string (string * string)) measure_units
            !! measure_ = Some (unit_type, si_name)) as ->.
  { apply elem_of_list_to_map; [compute_done | done]. }
  done.
Qed.

(** C2: every value that [IfcOpenShell.calculate] computes with a shape
    function is stored converted.  For a configured formula gross_F or
    net_F, with F a raw function other than get_segment_length, every
    element for which an iterator yields a shape has, as that quantity, what
    F measures on one of its yielded geometries, converted to the
    project's unit of the measure of F.  Nothing else is stored: a value
    found after the run was in the results before, or is the segment length
    of its element, read from the IFC attributes, or is such a converted
    measurement, for a formula configured for its quantity and a geometry
    yielded for its element.  The measure of a raw function is one of the
    five measures of [SI2ProjectUnitConverter], and the value in the
    project's unit is [ifcopenshell.util.unit.convert] from the SI unit of
    the measure to the prefix and name of the unit that the project
    declares for it, the value itself when the project declares none. *)
Theorem computed_values_are_stored_in_project_units
    els qtos results0 f results f' :
  IfcOpenShell_calculate els qtos results0 f = Ok (results, f') →
  let gs : settings := <["disable-opening-subtractions" := true]> ∅ in
  (NoDup qtos.*1 → (∀ n qs, (n, qs) ∈ qtos → NoDup qs.*1) →
   ∀ n quantities q prefix F func e g,
     (n, quantities) ∈ qtos → (q, Some (prefix +:+ F)) ∈ quantities →
     prefix = "gross_" ∨ prefix = "net_" →
     raw_functions !! F = Some func → F ≠ "get_segment_length" →
     shape_yielded f gs els e g →
     ∃ function g' raw,
       shape_function F = Some function
       ∧ shape_yielded f gs els e g'
       ∧ function g' = Some raw
       ∧ get_quantity e n q results
         = Some (Some (in_project_unit f (measure func) raw)))
  ∧ (∀ e n q value,
       get_quantity e n q results = Some value →
       get_quantity e n q results0 = Some value
       ∨ computed f gs els qtos e n q value)
  ∧ (∀ F func, raw_functions !! F = Some func →
               measure func ∈ measure_units.*1)
  ∧ (∀ measure_ unit_type si_name raw,
       (measure_, (unit_type, si_name)) ∈ measure_units →
       in_project_unit f measure_ raw
       = match get_project_unit f unit_type with
         | Some unit =>
             unit_convert raw None si_name
                          (prefix_and_name f unit).1 (prefix_and_name f unit).2
         | None => raw
         end).
Proof.
  intros Hrun gs. split_and!.
  - intros Hnodup Hinner n quantities q prefix F func e g Hn Hq Hprefix Hfunc Hne Hyield.
    destruct (prefixed_formula_measured els qtos results0 f results f' n quantities
                q prefix F func Hrun Hnodup Hinner Hn Hq Hprefix Hfunc Hne)
      as (function & Hfunction & Hall).
    destruct (Hall e g Hyield) as (g' & raw & Hyield' & Hraw & Hstored).
    by exists function, g', raw.
  - by destruct (IfcOpenShell_calculate_computed els qtos results0 f _ _ Hrun).
  - apply raw_function_measures.
  - intros measure_ unit_type si_name raw. apply in_project_unit_declared.
Qed.

(** *** Elements of both kinds *)

Lemma setdefault_set_nonempty {V} k k2 (v : V) d : setdefault_set k k2 v d ≠ ∅.
Proof. unfold setdefault_set. apply insert_non_empty. Qed.

Lemma classify_formula_some_filed n q formula t f :
  some_filed t ∨ filed_formula formula = true →
  returns (classify_formula n q formula t) f some_filed.
Proof.
  intros Hbefore. unfold classify_formula, filed_formula in *.
  destruct formula as [formula|]; [| step; by destruct Hbefore].
  case_bool_decide; [step; by destruct Hbefore |]. cbv zeta.
  assert (some_filed
            (if startswith formula "gross_"
             then mkTables (setdefault_set n q (partition_tail "_" formula)
                              (gross_qtos t)) (net_qtos t) (formula_functions t)
             else mkTables (gross_qtos t)
                           (setdefault_set n q (partition_tail "_" formula)
                              (net_qtos t)) (formula_functions t))) as Hstored.
  { destruct (startswith formula "gross_"); [left | right];
      apply setdefault_set_nonempty. }
  destruct (endswith formula "get_segment_length"); [by step |].
  destruct (startswith formula "gross_" || startswith formula "net_") eqn:Hprefix.
  - frame_bind; [by step |]. step.
    destruct Hstored as [Hg|Hn]; [left | right];
      by destruct (startswith formula "gross_").
  - step. destruct Hbefore as [?|Hfiled]; [done |].
    cbn in Hfiled. by rewrite Hprefix in Hfiled.
Qed.

Lemma classify_formulas_some_filed qtos f n quantities q formula :
  (n, quantities) ∈ qtos → (q, formula) ∈ quantities →
  filed_formula formula = true →
  returns (classify_formulas qtos) f some_filed.
Proof.
  intros Hn Hq Hfiled. unfold classify_formulas.
  apply list_elem_of_split in Hn as (l1 & l2 & ->).
  apply list_elem_of_split in Hq as (m1 & m2 & ->).
  assert (∀ (l : list (string * list (string * option string))) t,
            some_filed t →
            returns (foldM (λ t '(name, quantities),
                              foldM (λ t '(quantity, formula),
                                       classify_formula name quantity formula t)
                                    t quantities) t l) f some_filed) as Hkeeps.
  { intros l t Ht. apply returns_foldM; [done |].
    intros t1 [n1 qs1] _ Ht1. apply returns_foldM; [done |].
    intros t2 [q2 formula2] _ Ht2. apply classify_formula_some_filed. by left. }
  apply (returns_foldM_app _ _ _ _ _ (λ _, True)).
  { apply returns_foldM; [done |]. intros t1 [n1 qs1] _ _.
    apply returns_foldM; [done |]. intros t2 [q2 formula2] _ _.
    apply classify_formula_frame. }
  intros t1 _. cbn [foldM].
  apply (returns_bind _ _ _ some_filed); [| intros t2 Ht2; by apply Hkeeps].
  apply (returns_foldM_app _ _ _ _ _ (λ _, True)).
  { apply returns_foldM; [done |]. intros t2 [q2 formula2] _ _.
    apply classify_formula_frame. }
  intros t2 _. cbn [foldM].
  apply (returns_bind _ _ _ some_filed).
  { apply classify_formula_some_filed. by right. }
  intros t3 Ht3. apply returns_foldM; [done |].
  intros t4 [q4 formula4] _ Ht4. apply classify_formula_some_filed. by left.
Qed.

Lemma create_tasks_raises_with gs ns els t f err :
  some_filed t →
  create_iterators gs (elements els) f = Raise err →
  create_tasks gs ns els t f = Raise err.
Proof.
  intros Hfiled Hraise. unfold create_tasks. rewrite bind_run.
  destruct (decide (gross_qtos t = ∅)) as [Hg|Hg].
  - rewrite ret_run. destruct (decide (net_qtos t = ∅)) as [Hn|Hn].
    + by destruct Hfiled.
    + by rewrite bind_run, Hraise.
  - by rewrite bind_run, Hraise.
Qed.

Lemma calculate_of_mixed_elements els qtos results f :
  type_products_are_no_products f →
  (∃ n quantities q formula,
     (n, quantities) ∈ qtos ∧ (q, Some formula) ∈ quantities
     ∧ filed_formula (Some formula) = true) →
  (∃ e, e ∈ els ∧ is_a_kind f e "IfcTypeProduct" = true) →
  (∃ e, e ∈ els ∧ is_a_kind f e "IfcTypeProduct" = false) →
  (∃ err, IfcOpenShell_calculate els qtos results f = Raise err)
  ∧ (∀ t, classify_formulas qtos f = Ok (t, f) →
          IfcOpenShell_calculate els qtos results f
          = Raise (match get_context f "Model" "Body" "MODEL_VIEW" with
                   | Some _ => ValueError
                   | None => AssertionError
                   end)).
Proof.
  intros Hschema (n & quantities & q & formula & Hn & Hq & Hfiled)
         (e1 & He1 & Ht1) (e2 & He2 & Ht2).
  assert (∀ t f1, classify_formulas qtos f = Ok (t, f1) →
            IfcOpenShell_calculate els qtos results f
            = Raise (match get_context f "Model" "Body" "MODEL_VIEW" with
                     | Some _ => ValueError
                     | None => AssertionError
                     end)) as Hraise.
  { intros t f1 Ht.
    destruct (classify_formulas_some_filed qtos f n quantities q (Some formula)
                Hn Hq Hfiled _ _ Ht) as [-> Hsome].
    unfold IfcOpenShell_calculate. cbv zeta.
    rewrite bind_run. unfold read at 1. cbv beta iota.
    rewrite bind_run, Ht. rewrite bind_run.
    erewrite (create_tasks_raises_with _ _ _ _ _ _ Hsome); [done |].
    apply (create_iterators_mixed _ _ _ e1 e2); [done | | | done | done];
      by apply elem_of_elements. }
  split; [| intros t; apply Hraise].
  destruct (classify_formulas qtos f) as [[t f1]|err] eqn:Ht.
  - eexists. by eapply Hraise.
  - exists err. unfold IfcOpenShell_calculate. cbv zeta.
    rewrite bind_run. unfold read at 1. cbv beta iota.
    by rewrite bind_run, Ht.
Qed.

(** X2: The take-off of a set that mixes the two kinds of elements fails.
    When the elements hold a type product and an element that is none, and
    some formula of the quantity sets takes part in the classification,
    [IfcOpenShell.calculate] never returns: once the formulas are
    classified, the first call of [create_iterators] raises ValueError, or
    AssertionError in a file without body context.  [quantify] fails
    likewise when its first rule entry, of the IfcOpenShell calculator,
    selects such elements, as an entry for IfcWall does with the walls and
    the wall types. *)
Theorem take_off_of_mixed_elements_fails els qtos f :
  type_products_are_no_products f →
  (∃ n quantities q formula,
     (n, quantities) ∈ qtos ∧ (q, Some formula) ∈ quantities
     ∧ filed_formula (Some formula) = true) →
  (∃ e, e ∈ els ∧ is_a_kind f e "IfcTypeProduct" = true) →
  (∃ e, e ∈ els ∧ is_a_kind f e "IfcTypeProduct" = false) →
  (∀ results, ∃ err, IfcOpenShell_calculate els qtos results f = Raise err)
  ∧ (∀ results t,
       classify_formulas qtos f = Ok (t, f) →
       IfcOpenShell_calculate els qtos results f
       = Raise (match get_context f "Model" "Body" "MODEL_VIEW" with
                | Some _ => ValueError
                | None => AssertionError
                end))
  ∧ (∀ all_elements ifc_class queries groups,
       els = filter (λ e, is_a f e = ifc_class
                          ∨ is_a f e ∈ get_applicable_types ifc_class (schema f))
                    all_elements →
       ∃ err,
         quantify all_elements
                  (mkRules (("IfcOpenShell", (ifc_class, qtos) :: queries) :: groups))
                  f
         = Raise err).
Proof.
  intros Hschema Hfiled Htype Hother.
  pose proof (λ results,
                calculate_of_mixed_elements els qtos results f
                  Hschema Hfiled Htype Hother) as Hcalculate.
  split_and!.
  - intros results. apply Hcalculate.
  - intros results. apply Hcalculate.
  - intros all_elements ifc_class queries groups Hels.
    destruct (Hcalculate ∅) as [[err Herr] _]. exists err.
    unfold quantify, quantify_with. rewrite bind_run, group_by_class_run.
    cbn [rules_calculators foldM]. rewrite bind_run.
    rewrite bind_run. unfold calculators.
    rewrite lookup_insert_eq. cbn [from_option]. unfold ret at 1. cbv beta iota.
    rewrite bind_run. rewrite bind_run. unfold read at 1.
    cbv beta iota zeta. rewrite filter_elements_grouped, <- Hels.
    rewrite decide_False.
    + cbn [calculate IfcOpenShell]. by rewrite Herr.
    + destruct Htype as (e & He & _). intros Hempty. rewrite Hempty in He.
      by apply elem_of_empty in He.
Qed.

(** *** A formula name that is no raw function *)

Lemma store_quantities_unknown cls ff (table : QtosFormulas) (r : ResultsDict)
    e g f n q F r' f' :
  entry table n q = Some F → F ≠ "get_segment_length" →
  raw_functions !! F = None →
  store_quantities cls ff table r (e, g) f ≠ Ok (r', f').
Proof.
  intros Hentry Hne Hraw Hrun. unfold store_quantities in Hrun.
  unfold entry in Hentry.
  destruct (table !! n) as [qs|] eqn:Hn; [| discriminate Hentry].
  cbn in Hentry. apply elem_of_map_to_list in Hn.
  destruct (foldM_ok_elem _ _ _ _ _ _ (n, qs) Hrun Hn) as (a1 & s1 & a2 & s2 & Hinner).
  cbn beta iota in Hinner. apply elem_of_map_to_list in Hentry.
  destruct (foldM_ok_elem _ _ _ _ _ _ (q, F) Hinner Hentry)
    as (b1 & s3 & b2 & s4 & Hstore).
  unfold store_quantity in Hstore. rewrite bool_decide_false in Hstore by done.
  apply bind_ok in Hstore as (fn & s5 & _ & Hstore).
  apply bind_ok in Hstore as (raw & s6 & _ & Hstore).
  by rewrite Hraw in Hstore.
Qed.

(** X7: A formula that takes part in the classification but whose name after
    the first underscore is neither get_segment_length nor a key of
    [raw_functions] makes [IfcOpenShell.calculate] raise as soon as an
    iterator yields a shape; a bare get_segment_length, filed as
    segment_length, is such a formula. *)
Theorem formula_outside_raw_functions_raises
    els qtos results0 f n quantities q formula e g :
  NoDup qtos.*1 → (∀ n' qs, (n', qs) ∈ qtos → NoDup qs.*1) →
  (n, quantities) ∈ qtos → (q, Some formula) ∈ quantities →
  filed_formula (Some formula) = true →
  partition_tail "_" formula ≠ "get_segment_length" →
  raw_functions !! partition_tail "_" formula = None →
  shape_yielded f (<["disable-opening-subtractions" := true]> ∅) els e g →
  ∃ err, IfcOpenShell_calculate els qtos results0 f = Raise err.
Proof.
  intros Hnodup Hinner Hn Hq Hfiled Hne Hraw (its & f0 & it & Hits & Hit & Hyield).
  destruct (IfcOpenShell_calculate els qtos results0 f) as [[results f']|err] eqn:Hrun;
    [exfalso | by eexists].
  unfold IfcOpenShell_calculate in Hrun. cbv zeta in Hrun.
  apply bind_ok in Hrun as (us & f1 & [= <- <-] & Hrun).
  apply bind_ok in Hrun as (t & f1 & Ht & Hrun).
  destruct (classify_formulas_filed _ _ _ _ _ _ Hnodup Hinner Hn Hq Hfiled _ _ Ht)
    as [-> [Hside _]].
  apply bind_ok in Hrun as (tasks & f1 & Htasks & Hrun).
  destruct (create_tasks_frame _ _ _ _ _ _ _ Htasks) as [-> _].
  apply bind_ok in Hrun as (c & f2 & Hc & Hrun).
  destruct (SI2ProjectUnitConverter_init_frame _ _ _ Hc) as [-> _].
  pose proof (tasks_of_table _ _ _ _ _ _ _ _ _ _ _ _ Htasks Hits Hside it Hit)
    as Htask.
  destruct (foldM_ok_elem_frame _ _ _ _ _ _ _
              (λ a b, run_task_frame _ _ a b f) Hrun Htask) as (r1 & r2 & Hone).
  rewrite run_task_yields in Hone.
  destruct (foldM_ok_elem _ _ _ _ _ _ _ Hone Hyield) as (r3 & f3 & r4 & f4 & Hshape).
  rewrite store_shape_run in Hshape. cbn [fst snd] in Hshape.
  by eapply store_quantities_unknown.
Qed.

(** *** The segment length formula *)

Lemma get_segment_length_total element f :
  ∃ value, get_segment_length element f = Ok (value, f).
Proof.
  unfold get_segment_length.
  repeat first
    [ rewrite bind_run; unfold read at 1; cbv beta iota
    | rewrite ret_run
    | lazymatch goal with
      | |- ∃ _, match ?x with _ => _ end _ = _ => destruct x
      | |- ∃ _, (if ?x then _ else _) _ = _ => destruct x
      end ];
    by eexists.
Qed.

Section SegmentLength.
Variables (f : file) (cls : IfcOpenShell_cls) (ff : gmap string (geometry → option float)).
Variables (n q : string).

Local Abbreviation has_length := (has_segment_length f n q).

Lemma store_quantity_segment e g (r : ResultsDict) :
  returns (store_quantity cls ff e g n r (q, "get_segment_length")) f (has_length e).
Proof.
  unfold store_quantity. rewrite bool_decide_true by done.
  apply (returns_bind _ _ _ (λ v, get_segment_length e f = Ok (v, f))).
  { intros v f' Hrun.
    destruct (get_segment_length_frame _ _ _ _ Hrun) as [-> _]. done. }
  intros v Hv. step. exists v. split; [done |].
  rewrite get_set_quantity. by apply decide_True.
Qed.

Lemma has_length_same e (r r' : ResultsDict) :
  get_quantity e n q r' = get_quantity e n q r → has_length e r → has_length e r'.
Proof. intros Heq (v & Hv & Hq). exists v. by rewrite Heq. Qed.

Lemma store_inner_segment e g (r : ResultsDict) (qs : gmap string string) :
  qs !! q = Some "get_segment_length" →
  returns (foldM (store_quantity cls ff e g n) r (map_to_list qs)) f (has_length e).
Proof.
  intros Hq.
  destruct (map_to_list_split qs q _ Hq) as (l1 & l2 & -> & Hrest).
  apply (returns_foldM_app _ _ _ _ _ (λ _, True)).
  { apply (returns_foldM _ _ _ _ (λ _, True)); [done |].
    intros. apply store_quantity_frame. }
  intros r1 _. cbn [foldM].
  eapply returns_bind; [apply store_quantity_segment |].
  intros r2 Hr2. apply (returns_foldM _ _ _ _ (has_length e)); [done |].
  intros r3 item Hitem Hr3.
  eapply returns_weaken; [apply (store_quantity_other _ _ _ _ _ _ _ _ e n q) |].
  - right. right. intros Heq.
    destruct (Hrest item) as [Hk _]; [apply elem_of_app; by right | done].
  - intros r' Hsame. by apply (has_length_same e r3).
Qed.

Lemma store_quantities_segment (table : QtosFormulas) (r : ResultsDict) e g :
  entry table n q = Some "get_segment_length" →
  returns (store_quantities cls ff table r (e, g)) f (has_length e).
Proof.
  intros Hentry. unfold store_quantities, entry in *.
  destruct (table !! n) as [qs|] eqn:Hn; [| done]. simpl in Hentry.
  destruct (map_to_list_split table n qs Hn) as (l1 & l2 & -> & Hrest).
  apply (returns_foldM_app _ _ _ _ _ (λ _, True)).
  { apply (returns_foldM _ _ _ _ (λ _, True)); [done |].
    intros r1 [n1 qs1] _ _.
    apply (returns_foldM _ _ _ _ (λ _, True)); [done |].
    intros. apply store_quantity_frame. }
  intros r1 _. cbn [foldM].
  eapply returns_bind; [by apply store_inner_segment |].
  intros r2 Hr2. apply (returns_foldM _ _ _ _ (has_length e)); [done |].
  intros r3 [n3 qs3] Hitem Hr3.
  eapply returns_weaken; [apply (store_inner_other _ _ _ _ _ _ _ _ e n q) |].
  - right. left. intros ->.
    destruct (Hrest (n3, qs3)) as [Hk _]; [apply elem_of_app; by right | done].
  - intros r' Hsame. apply (has_length_same e r3); [| done].
    rewrite Hsame. apply get_setdefault_name.
Qed.

Lemma store_shapes_segment (table : QtosFormulas) (r : ResultsDict) shapes :
  entry table n q = Some "get_segment_length" →
  returns (foldM (store_shape cls ff table) r shapes) f
    (λ r', (∀ e, has_length e r → has_length e r')
           ∧ ∀ e g, (Some e, g) ∈ shapes → has_length e r').
Proof.
  intros Hentry.
  apply (returns_foldM_split _ _ _ _
           (λ done_ r', (∀ e, has_length e r → has_length e r')
                        ∧ ∀ e g, (Some e, g) ∈ done_ → has_length e r')).
  { split; [done |]. intros e g Hin. by apply elem_of_nil in Hin. }
  intros done_ [oe g] rest r1 Hsplit [Hkeep Hdone].
  intros r2 f2. rewrite store_shape_run. cbn [fst snd].
  destruct oe as [e1|]; [| done]. revert r2 f2.
  apply (returns_weaken _ _
           (λ r2, has_length e1 r2
                  ∧ ∀ e0, e0 ≠ e1 →
                      get_quantity e0 n q r2 = get_quantity e0 n q r1)).
  { apply returns_and.
    - by apply store_quantities_segment.
    - apply returns_forall; [apply store_quantities_frame |]. intros e0.
      intros r2 f2 Hrun. destruct (store_quantities_frame _ _ _ _ _ _ _ _ Hrun) as [-> _].
      split; [done |]. intros Hne0.
      by destruct (store_quantities_other cls ff table r1 e1 g f e0 n q
                     (or_introl Hne0) _ _ Hrun). }
  intros r2 [Hnew Hold].
  assert (∀ e, has_length e r1 → has_length e r2) as Hstep.
  { intros e He. destruct (decide (e = e1)) as [->|Hne1]; [done |].
    apply (has_length_same e r1); [by apply Hold | done]. }
  split; [intros e He; by apply Hstep, Hkeep |].
  intros e g0 [Hin|Hin]%elem_of_app.
  - apply Hstep. by eapply Hdone.
  - apply list_elem_of_singleton in Hin. by injection Hin as -> ->.
Qed.

Lemma store_shapes_segment_other (table : QtosFormulas) (r : ResultsDict) shapes :
  entry table n q = None →
  returns (foldM (store_shape cls ff table) r shapes) f
    (λ r', ∀ e, has_length e r → has_length e r').
Proof.
  intros Hentry.
  apply (returns_weaken _ _
           (λ r', ∀ e, get_quantity e n q r' = get_quantity e n q r)).
  { apply (returns_foldM _ _ _ _
             (λ r', ∀ e, get_quantity e n q r' = get_quantity e n q r)); [done |].
    intros r1 [oe g] _ Hr1. intros r2 f2. rewrite store_shape_run. cbn [fst snd].
    destruct oe as [e1|]; [| done]. intros Hrun.
    destruct (store_quantities_frame _ _ _ _ _ _ _ _ Hrun) as [-> _].
    split; [done |]. intros e. rewrite <- Hr1.
    by destruct (store_quantities_other cls ff table r1 e1 g f e n q
                   (or_intror Hentry) _ _ Hrun). }
  intros r' Hsame e He. by apply (has_length_same e r).
Qed.

End SegmentLength.

(** X8: For the formula gross_get_segment_length or net_get_segment_length,
    every element for which an iterator yields a shape gets as the quantity
    what [get_segment_length] returns for it: the length read off its
    extruded profile, or None, and not a measurement of the yielded
    geometry; the value is not passed through the unit converter. *)
Theorem segment_length_formula_stores_profile_length
    els qtos results0 f results f' n quantities q prefix :
  IfcOpenShell_calculate els qtos results0 f = Ok (results, f') →
  NoDup qtos.*1 → (∀ n' qs, (n', qs) ∈ qtos → NoDup qs.*1) →
  (n, quantities) ∈ qtos →
  (q, Some (prefix +:+ "get_segment_length")) ∈ quantities →
  prefix = "gross_" ∨ prefix = "net_" →
  ∀ e g,
    shape_yielded f (<["disable-opening-subtractions" := true]> ∅) els e g →
    has_segment_length f n q e results.
Proof.
  intros Hrun Hnodup Hinner Hn Hq Hprefix e0 g0 (its & f0 & it0 & Hits & Hit0 & Hyield0).
  set (formula := prefix +:+ "get_segment_length") in *.
  set (gross := startswith formula "gross_").
  assert (filed_formula (Some formula) = true
          ∧ partition_tail "_" formula = "get_segment_length") as [Hfiled Htail].
  { by destruct Hprefix as [-> | ->]. }
  unfold IfcOpenShell_calculate in Hrun. cbv zeta in Hrun.
  apply bind_ok in Hrun as (us & f1 & [= <- <-] & Hrun).
  apply bind_ok in Hrun as (t & f1 & Ht & Hrun).
  destruct (classify_formulas_filed _ _ _ _ _ _ Hnodup Hinner Hn Hq Hfiled _ _ Ht)
    as [-> [Hside Hother]].
  fold gross in Hside, Hother. rewrite Htail in Hside.
  apply bind_ok in Hrun as (tasks & f1 & Htasks & Hrun).
  destruct (create_tasks_frame _ _ _ _ _ _ _ Htasks) as [-> _].
  apply bind_ok in Hrun as (c & f2 & Hc & Hrun).
  destruct (SI2ProjectUnitConverter_init_frame _ _ _ Hc) as [-> _].
  pose proof (tasks_of_table _ _ _ _ _ _ _ _ _ _ _ _ Htasks Hits Hside it0 Hit0)
    as Htask0.
  pose proof (λ task, create_tasks_iterators _ _ _ _ _ _ _ task Htasks) as Hmember.
  cut (returns (foldM (run_task
                         (mkCls (<["disable-opening-subtractions" := true]> ∅) ∅
                                (calculate_unit_scale f) c)
                         (formula_functions t)) results0 tasks) f
         (λ r, ∀ it, (it, side_table gross t) ∈ tasks →
                 ∀ e g, (Some e, g) ∈ yields f it →
                   has_segment_length f n q e r)).
  { intros Hloop. destruct (Hloop _ _ Hrun) as [_ Hall]. by eapply Hall. }
  clear Hrun.
  apply (returns_foldM_split _ _ _ _
    (λ done_ r, ∀ it, (it, side_table gross t) ∈ done_ →
                  ∀ e g, (Some e, g) ∈ yields f it →
                    has_segment_length f n q e r)).
  { intros it Hin. by apply elem_of_nil in Hin. }
  intros done_ [it table] rest r1 Hsplit Hdone.
  destruct (Hmember (it, table)) as (its' & Hits' & Hit & Htable).
  { rewrite Hsplit. apply elem_of_app. right. left. }
  cbn [fst snd] in Hit, Htable.
  intros r2 f2. rewrite run_task_yields. revert r2 f2.
  assert (entry table n q = Some "get_segment_length" ∧ table = side_table gross t
          ∨ entry table n q = None ∧ table ≠ side_table gross t)
    as [[He ->]|[He Hdiff]].
  { destruct gross; simpl in *; destruct Htable as [[-> _]|[-> _]]; auto;
      right; (split; [done |]); intros Heq; rewrite Heq in *; congruence. }
  - eapply returns_weaken; [by apply (store_shapes_segment f _ _ n q) |].
    intros r2 [Hkeep Hnew] it' [Hin|Hin]%elem_of_app e g Hyield.
    + apply Hkeep. by eapply Hdone.
    + apply list_elem_of_singleton in Hin. injection Hin as ->. by eapply Hnew.
  - eapply returns_weaken; [by apply (store_shapes_segment_other f _ _ n q) |].
    intros r2 Hkeep it' [Hin|Hin]%elem_of_app e g Hyield.
    + apply Hkeep. by eapply Hdone.
    + apply list_elem_of_singleton in Hin. injection Hin as _ Heq. by destruct Hdiff.
Qed.

(** *** [Blender.calculate] *)

Section BlenderObject.
Variables (f : file) (converter : SI2ProjectUnitConverter) (obj : blender_object).
Hypothesis Hconvert :
  ∀ value m, convert converter value m = Ok (in_project_unit f m value).

Local Abbreviation cache_ok := cache_sound.

Lemma Blender_lookup_function (functions_ : gmap string (blender_object → option float))
    formula :
  cache_ok functions_ →
  returns (match functions_ !! formula with
           | Some function => mret (function, functions_)
           | None =>
               function ← from_option (AttributeError formula)
                                      (calculator_function formula);
               mret (function, <[formula := function]> functions_)
           end) f
    (λ r, calculator_function formula = Some r.1 ∧ cache_ok r.2).
Proof using Type.
  intros Hcache. destruct (functions_ !! formula) as [fn|] eqn:Hfn.
  - step. split; [by apply Hcache | done].
  - apply (returns_bind _ _ _ (λ fn, calculator_function formula = Some fn));
      [by step |].
    intros fn Hfn'. step. cbn [fst snd].
    split; [done |]. intros k fn' Hk.
    destruct (decide (formula = k)) as [<-|Hne].
    + rewrite lookup_insert_eq in Hk. congruence.
    + rewrite lookup_insert_ne in Hk by done. by apply Hcache.
Qed.

Lemma Blender_quantity_sound quantities st item :
  item ∈ quantities → cache_ok st.1 →
  (∀ q v, st.2 !! q = Some v → Blender_value f obj quantities q v) →
  returns (Blender_quantity converter obj st item) f
    (λ st', cache_ok st'.1
            ∧ ∀ q v, st'.2 !! q = Some v → Blender_value f obj quantities q v).
Proof using Hconvert.
  destruct st as [functions_ qto_results], item as [quantity formula].
  cbn [fst snd]. intros Hitem Hcache Hvalues. unfold Blender_quantity.
  destruct formula as [formula|]; [| by step].
  case_bool_decide as Hempty; [by step |].
  eapply returns_bind; [by apply Blender_lookup_function |].
  intros [fn functions1] [Hfn Hcache1]. cbn [fst snd] in *.
  destruct (fn obj) as [raw|] eqn:Hraw; [| by step].
  apply (returns_bind _ _ _ (λ func, Blender_functions !! formula = Some func));
    [by step |].
  intros func Hfunc. rewrite Hconvert.
  apply (returns_bind _ _ _ (λ v, v = in_project_unit f (measure func) raw)).
  { apply returns_lift. by intros ? [= <-]. }
  intros ? ->. step. cbn [fst snd]. split; [done |]. intros q v Hq.
  destruct (decide (quantity = q)) as [<-|Hne].
  - rewrite lookup_insert_eq in Hq. injection Hq as <-.
    unfold Blender_value. exists formula, fn, func, raw.
    split_and!; [exact Hitem | exact Hempty | exact Hfn | exact Hraw
                | exact Hfunc | reflexivity].
  - rewrite lookup_insert_ne in Hq by done. by apply Hvalues.
Qed.

Lemma Blender_quantity_other st item q :
  item.1 ≠ q →
  returns (Blender_quantity converter obj st item) f (λ st', st'.2 !! q = st.2 !! q).
Proof using Type.
  destruct st as [functions_ qto_results], item as [quantity formula].
  cbn [fst snd]. intros Hne. unfold Blender_quantity.
  destruct formula as [formula|]; [| by step].
  case_bool_decide as Hempty; [by step |].
  frame_bind.
  { destruct (functions_ !! formula); [by step |]. frame_bind; by step. }
  destruct a as [fn functions1]. destruct (fn obj); [| by step].
  frame_bind; [by step |]. frame_bind; [by step |]. step.
  cbn [snd]. by rewrite lookup_insert_ne.
Qed.

Lemma Blender_quantity_target functions_ qto_results q formula fn raw func :
  formula ≠ "" → calculator_function formula = Some fn → fn obj = Some raw →
  Blender_functions !! formula = Some func → cache_ok functions_ →
  returns (Blender_quantity converter obj (functions_, qto_results) (q, Some formula)) f
    (λ st', st'.2 !! q = Some (Some (in_project_unit f (measure func) raw))).
Proof using Hconvert.
  intros Hne Hfn Hraw Hfunc Hcache. unfold Blender_quantity.
  rewrite bool_decide_false by done.
  eapply returns_bind; [by apply Blender_lookup_function |].
  intros [fn' functions1] [Hfn' Hcache1]. cbn [fst snd] in *.
  assert (fn' = fn) as -> by congruence. rewrite Hraw.
  apply (returns_bind _ _ _ (λ x, x = func)); [step; congruence |].
  intros ? ->. rewrite Hconvert.
  apply (returns_bind _ _ _ (λ v, v = in_project_unit f (measure func) raw)).
  { apply returns_lift. by intros ? [= <-]. }
  intros ? ->. step. cbn [snd]. by rewrite lookup_insert_eq.
Qed.

Lemma Blender_quantities_sound quantities functions_ :
  cache_ok functions_ →
  returns (foldM (Blender_quantity converter obj) (functions_, ∅) quantities) f
    (λ st', cache_ok st'.1
            ∧ ∀ q v, st'.2 !! q = Some v → Blender_value f obj quantities q v).
Proof using Hconvert.
  intros Hcache. apply returns_foldM.
  { split; [done |]. cbn [snd]. intros q v Hq. by rewrite lookup_empty in Hq. }
  intros st item Hitem [Hc Hv]. by apply Blender_quantity_sound.
Qed.

Lemma Blender_quantity_cache st item :
  cache_ok st.1 →
  returns (Blender_quantity converter obj st item) f (λ st', cache_ok st'.1).
Proof using Type.
  destruct st as [functions_ qto_results], item as [quantity formula].
  cbn [fst snd]. intros Hcache. unfold Blender_quantity.
  destruct formula as [formula|]; [| by step].
  case_bool_decide as Hempty; [by step |].
  eapply returns_bind; [by apply Blender_lookup_function |].
  intros [fn functions1] [Hfn Hcache1]. cbn [fst snd] in *.
  destruct (fn obj); [| by step].
  frame_bind; [by step |]. frame_bind; [by step |]. by step.
Qed.

Lemma Blender_quantities_cache quantities st :
  cache_ok st.1 →
  returns (foldM (Blender_quantity converter obj) st quantities) f
    (λ st', cache_ok st'.1).
Proof using Type.
  intros Hcache. apply returns_foldM; [done |].
  intros st' item _ Hc. by apply Blender_quantity_cache.
Qed.

Lemma Blender_quantities_target quantities functions_ q formula fn raw func :
  NoDup quantities.*1 → (q, Some formula) ∈ quantities →
  formula ≠ "" → calculator_function formula = Some fn → fn obj = Some raw →
  Blender_functions !! formula = Some func → cache_ok functions_ →
  returns (foldM (Blender_quantity converter obj) (functions_, ∅) quantities) f
    (λ st', st'.2 !! q = Some (Some (in_project_unit f (measure func) raw))).
Proof using Hconvert.
  intros Hnodup Hq Hne Hfn Hraw Hfunc Hcache.
  destruct (alist_split _ _ _ Hnodup Hq) as (l1 & l2 & -> & Hrest).
  apply (returns_foldM_app _ _ _ _ _ (λ st, cache_ok st.1)).
  { by apply Blender_quantities_cache. }
  intros [functions1 qto_results] Hcache1. cbn [foldM fst] in *.
  eapply returns_bind; [by eapply Blender_quantity_target |].
  intros st2 Hst2.
  apply (returns_foldM _ _ _ _
           (λ st', st'.2 !! q = Some (Some (in_project_unit f (measure func) raw))));
    [done |].
  intros st3 item Hitem Hst3. rewrite <- Hst3. apply Blender_quantity_other.
  destruct (Hrest item) as [Hk _]; [apply elem_of_app; by right | done].
Qed.

Local Abbreviation Blender_sets := (Blender_quantity_sets converter obj).

Lemma Blender_sets_cache qtos st :
  cache_ok st.1 → returns (Blender_sets qtos st) f (λ st', cache_ok st'.1).
Proof using Type.
  intros Hcache. apply returns_foldM; [done |].
  intros [fs er] [n quantities] _ Hc. cbn [fst] in Hc.
  eapply returns_bind; [by apply (Blender_quantities_cache quantities (fs, ∅)) |].
  intros [fs' qr] Hc'. cbn [fst] in Hc'. destruct (decide _); by step.
Qed.

Lemma Blender_sets_sound (all_qtos qtos : list (string * list (string * option string)))
    st :
  (∀ item, item ∈ qtos → item ∈ all_qtos) → cache_ok st.1 →
  (∀ n qs, st.2 !! n = Some qs →
     qs ≠ ∅ ∧ ∃ quantities, (n, quantities) ∈ all_qtos
       ∧ ∀ q v, qs !! q = Some v → Blender_value f obj quantities q v) →
  returns (Blender_sets qtos st) f
    (λ st', ∀ n qs, st'.2 !! n = Some qs →
       qs ≠ ∅ ∧ ∃ quantities, (n, quantities) ∈ all_qtos
         ∧ ∀ q v, qs !! q = Some v → Blender_value f obj quantities q v).
Proof using Hconvert.
  intros Hsub Hcache Hstart.
  eapply returns_weaken.
  { apply (returns_foldM _ _ _ _
             (λ st', cache_ok st'.1
                ∧ ∀ n qs, st'.2 !! n = Some qs →
                    qs ≠ ∅ ∧ ∃ quantities, (n, quantities) ∈ all_qtos
                      ∧ ∀ q v, qs !! q = Some v →
                               Blender_value f obj quantities q v)); [done |].
    intros [fs er] [n quantities] Hin [Hc Her]. cbn [fst snd] in *.
    eapply returns_bind; [by apply (Blender_quantities_sound quantities fs) |].
    intros [fs' qr] [Hc' Hqr]. cbn [fst snd] in *.
    destruct (decide (qr = ∅)) as [Hempty|Hnonempty]; step; cbn [fst snd];
      [done |].
    split; [done |]. intros n' qs Hn'.
    destruct (decide (n = n')) as [<-|Hne].
    - rewrite lookup_insert_eq in Hn'. injection Hn' as <-.
      split; [done |]. exists quantities. split; [by apply Hsub | done].
    - rewrite lookup_insert_ne in Hn' by done. by apply Her. }
  by intros st' [_ ?].
Qed.

Lemma Blender_sets_target qtos functions_ n quantities q formula fn raw func :
  NoDup qtos.*1 → (n, quantities) ∈ qtos →
  NoDup quantities.*1 → (q, Some formula) ∈ quantities →
  formula ≠ "" → calculator_function formula = Some fn → fn obj = Some raw →
  Blender_functions !! formula = Some func → cache_ok functions_ →
  returns (Blender_sets qtos (functions_, ∅)) f
    (λ st', ∃ qs, st'.2 !! n = Some qs
              ∧ qs !! q = Some (Some (in_project_unit f (measure func) raw))).
Proof using Hconvert.
  intros Hnodup Hn Hinner Hq Hne Hfn Hraw Hfunc Hcache.
  destruct (alist_split _ _ _ Hnodup Hn) as (l1 & l2 & -> & Hrest).
  unfold Blender_quantity_sets.
  apply (returns_foldM_app _ _ _ _ _ (λ st, cache_ok st.1)).
  { by apply Blender_sets_cache. }
  intros [fs1 er1] Hcache1. cbn [foldM fst] in *.
  apply (returns_bind _ _ _
           (λ st', ∃ qs, st'.2 !! n = Some qs
              ∧ qs !! q = Some (Some (in_project_unit f (measure func) raw)))).
  { eapply returns_bind; [by eapply (Blender_quantities_target quantities fs1) |].
    intros [fs2 qr] Hqr. cbn [snd] in Hqr.
    destruct (decide (qr = ∅)) as [->|Hnonempty];
      [by rewrite lookup_empty in Hqr |].
    step. exists qr. cbn [snd]. rewrite lookup_insert_eq.
    split; [reflexivity | exact Hqr]. }
  intros st2 Hst2.
  apply (returns_foldM _ _ _ _
           (λ st', ∃ qs, st'.2 !! n = Some qs
              ∧ qs !! q = Some (Some (in_project_unit f (measure func) raw))));
    [done |].
  intros [fs3 er3] [n3 quantities3] Hitem Hst3. cbn [snd] in Hst3.
  frame_bind.
  { apply (returns_foldM _ _ _ _ (λ _, True)); [done |].
    intros. apply Blender_quantity_frame. }
  destruct a as [fs4 qr4]. destruct (decide (qr4 = ∅)); step; [done |].
  cbn [snd]. rewrite lookup_insert_ne; [done |].
  destruct (Hrest (n3, quantities3)) as [Hk _]; [apply elem_of_app; by right | done].
Qed.

End BlenderObject.

Lemma Blender_element_run converter qtos functions_ (results : ResultsDict) element f :
  Blender_element converter qtos (functions_, results) element f
  = match get_object element with
    | None => Ok ((functions_, results), f)
    | Some obj =>
        if bool_decide (object_type obj ≠ "MESH") then Ok ((functions_, results), f)
        else
          match Blender_quantity_sets converter obj qtos (functions_, ∅) f with
          | Ok ((functions', element_results), f') =>
              Ok ((functions',
                   if decide (element_results = ∅) then results
                   else <[element := element_results]> results), f')
          | Raise e => Raise e
          end
    end.
Proof.
  unfold Blender_element. destruct (get_object element) as [obj|]; [| done].
  case_bool_decide; [done |]. rewrite bind_run. unfold Blender_quantity_sets.
  destruct (foldM _ _ qtos f) as [[[functions' element_results] f']|]; [| done].
  by destruct (decide _).
Qed.

Lemma Blender_sets_frame converter obj qtos st f :
  returns (Blender_quantity_sets converter obj qtos st) f (λ _, True).
Proof.
  unfold Blender_quantity_sets.
  apply (returns_foldM _ _ _ _ (λ _, True)); [done |].
  intros [fs er] [n quantities] _ _. frame_bind.
  { apply (returns_foldM _ _ _ _ (λ _, True)); [done |].
    intros. apply Blender_quantity_frame. }
  destruct a as [fs' qr]. destruct (decide _); by step.
Qed.

Lemma Blender_element_cache converter qtos st element f :
  cache_sound st.1 →
  returns (Blender_element converter qtos st element) f (λ st', cache_sound st'.1).
Proof.
  destruct st as [functions_ results]. cbn [fst]. intros Hcache st' f'.
  rewrite Blender_element_run.
  destruct (get_object element) as [obj|]; [| by intros [= <- <-]].
  case_bool_decide; [by intros [= <- <-] |].
  destruct (Blender_quantity_sets _ _ _ _ f) as [[[functions' er] f1]|] eqn:Hsets;
    [| done].
  intros [= <- <-].
  destruct (Blender_sets_cache f converter obj qtos (functions_, ∅) Hcache _ _ Hsets)
    as [-> Hc]. done.
Qed.

(** X13: What [Blender.calculate] leaves for an element is what was there, or
    the quantity sets computed for the element's mesh object, which replace
    whatever the element had: at least one quantity set, none of them
    empty, each named by the rules and holding, for some of its quantities,
    the value that the calculator function of the quantity's formula
    returns for the object, in the project's unit.  An element without a
    mesh object keeps what it had. *)
Theorem Blender_calculate_entries els qtos results0 f results f' :
  Blender_calculate els qtos results0 f = Ok (results, f') →
  ∀ e, results !! e = results0 !! e
       ∨ (e ∈ els
          ∧ ∃ obj element_results,
              get_object e = Some obj ∧ object_type obj = "MESH"
              ∧ results !! e = Some element_results
              ∧ Blender_entry f qtos obj element_results).
Proof.
  intros Hrun. unfold Blender_calculate in Hrun.
  destruct (SI2ProjectUnitConverter_init_run f) as (converter & Hinit & Hconvert).
  rewrite bind_run, Hinit in Hrun.
  apply bind_ok in Hrun as ([functions_ r] & f1 & Hloop & [= <- <-]).
  cut (returns (foldM (Blender_element converter qtos) (∅, results0) (elements els)) f
         (λ st, cache_sound st.1
                ∧ ∀ e, st.2 !! e = results0 !! e
                       ∨ (e ∈ els
                          ∧ ∃ obj element_results,
                              get_object e = Some obj ∧ object_type obj = "MESH"
                              ∧ st.2 !! e = Some element_results
                              ∧ Blender_entry f qtos obj element_results))).
  { intros Hinv. by destruct (Hinv _ _ Hloop) as [_ [_ ?]]. }
  apply returns_foldM.
  { cbn [fst snd]. split; [| by left]. intros k fn Hk. by rewrite lookup_empty in Hk. }
  intros [fs r1] element Hel [Hcache Hinv]. cbn [fst snd] in *.
  apply elem_of_elements in Hel.
  intros [fs' r2] f2. rewrite Blender_element_run.
  destruct (get_object element) as [obj|] eqn:Hobj; [| by intros [= <- <- <-]].
  case_bool_decide as Hmesh; [by intros [= <- <- <-] |].
  destruct (Blender_quantity_sets _ _ _ _ f) as [[[functions' er] f3]|] eqn:Hsets;
    [| done].
  intros [= <- <- <-].
  destruct (Blender_sets_cache f converter obj qtos (fs, ∅) Hcache _ _ Hsets)
    as [-> Hc].
  split; [done |]. cbn [fst snd] in *. split; [done |].
  destruct (decide (er = ∅)) as [Hempty|Hnonempty]; [done |].
  intros e. destruct (decide (element = e)) as [<-|Hne].
  - right. split; [done |]. exists obj, er. rewrite lookup_insert_eq.
    split_and!; [done | done | done |]. split; [done |].
    refine (proj2 (Blender_sets_sound f converter obj Hconvert qtos qtos (fs, ∅)
                     _ Hcache _ _ _ Hsets)); [done |].
    cbn [snd]. intros n qs Hn. by rewrite lookup_empty in Hn.
  - rewrite lookup_insert_ne by done. apply Hinv.
Qed.

(** X14: A quantity whose formula names a calculator function that returns a
    value for the element's mesh object is stored for the element, as that
    value in the project's unit. *)
Theorem Blender_calculate_stores_calculator_value
    els qtos results0 f results f' e obj n quantities q formula function raw func :
  Blender_calculate els qtos results0 f = Ok (results, f') →
  NoDup qtos.*1 → (∀ n' qs, (n', qs) ∈ qtos → NoDup qs.*1) →
  (n, quantities) ∈ qtos → (q, Some formula) ∈ quantities → formula ≠ "" →
  e ∈ els → get_object e = Some obj → object_type obj = "MESH" →
  calculator_function formula = Some function → function obj = Some raw →
  Blender_functions !! formula = Some func →
  get_quantity e n q results = Some (Some (in_project_unit f (measure func) raw)).
Proof.
  intros Hrun Hnodup Hinner Hn Hq Hne He Hobj Hmesh Hfn Hraw Hfunc.
  unfold Blender_calculate in Hrun.
  destruct (SI2ProjectUnitConverter_init_run f) as (converter & Hinit & Hconvert).
  rewrite bind_run, Hinit in Hrun.
  apply bind_ok in Hrun as ([functions_ r] & f1 & Hloop & [= <- <-]).
  apply elem_of_elements in He.
  apply list_elem_of_split in He as (l1 & l2 & Hsplit).
  pose proof (NoDup_elements els) as Hnd. rewrite Hsplit in Hnd, Hloop.
  apply NoDup_app in Hnd as (_ & _ & Hnd2). apply NoDup_cons in Hnd2 as [Hnot2 _].
  set (stored := λ st : gmap string (blender_object → option float) * ResultsDict,
         get_quantity e n q st.2
         = Some (Some (in_project_unit f (measure func) raw))).
  cut (returns (foldM (Blender_element converter qtos) (∅, results0)
                      (l1 ++ e :: l2)) f stored).
  { intros Hinv. by destruct (Hinv _ _ Hloop). }
  apply (returns_foldM_app _ _ _ _ _ (λ st, cache_sound st.1)).
  { apply returns_foldM; [cbn [fst]; intros k fn Hk; by rewrite lookup_empty in Hk |].
    intros st element _ Hc. by apply Blender_element_cache. }
  intros [fs1 r1] Hcache1. cbn [foldM fst] in *.
  apply (returns_bind _ _ _ stored).
  - intros [fs2 r2] f2. rewrite Blender_element_run, Hobj.
    rewrite bool_decide_false by (by intros Hx; apply Hx).
    destruct (Blender_quantity_sets _ _ _ _ f) as [[[functions' er] f3]|] eqn:Hsets;
      [| done].
    intros [= <- <- <-].
    destruct (Blender_sets_target f converter obj Hconvert qtos fs1 n quantities q
                formula function raw func Hnodup Hn (Hinner _ _ Hn) Hq Hne Hfn Hraw
                Hfunc Hcache1 _ _ Hsets) as [-> (qs & Hqs & Hvalue)].
    split; [done |]. unfold stored, get_quantity. cbn [snd] in *.
    destruct (decide (er = ∅)) as [->|Hnonempty]; [by rewrite lookup_empty in Hqs |].
    rewrite lookup_insert_eq. cbn. rewrite Hqs. exact Hvalue.
  - intros st2 Hst2. apply returns_foldM; [done |].
    intros st3 element Hel Hst3.
    eapply returns_weaken; [apply (Blender_element_lookup_other _ _ _ _ _ e) |].
    + intros Heq. apply Hnot2. rewrite Heq. exact Hel.
    + intros st4 Hsame. unfold stored, get_quantity in *. by rewrite Hsame.
Qed.

(** *** [IteratorForTypes.next] *)

Lemma next_from_with_elements stack t l f :
  next_from stack (with_elements t l) f = next_from stack t f.
Proof. by destruct stack. Qed.

Lemma process_shape_none t element f :
  get_representation f element (ByContext (ift_context t)) = None →
  process_shape t element f = Ok ((false, t), f).
Proof. intros Hnone. unfold process_shape. rewrite bind_run. unfold read. by rewrite Hnone. Qed.

Lemma process_shape_some t element f representation :
  get_representation f element (ByContext (ift_context t)) = Some representation →
  process_shape t element f
  = Ok ((true, {| ift_settings := ift_settings t;
                  ift_elements := ift_elements t;
                  ift_element := Some element;
                  ift_shape := Some (create_shape (ift_settings t) f representation);
                  ift_context := ift_context t |}), f).
Proof.
  intros Hsome. unfold process_shape. rewrite bind_run. unfold read.
  rewrite Hsome. by rewrite bind_run.
Qed.

Lemma next_from_skips skipped rest t f :
  (∀ e, e ∈ skipped →
        get_representation f e (ByContext (ift_context t)) = None) →
  next_from (skipped ++ rest) t f = next_from rest t f.
Proof.
  induction skipped as [|e skipped IH]; intros Hnone; [done |].
  cbn [app next_from]. rewrite bind_run, process_shape_none.
  - rewrite next_from_with_elements. apply IH. intros e' He'. apply Hnone. by right.
  - apply Hnone. left.
Qed.

(** X4: [IteratorForTypes.next] pops the elements from the end of the list
    until one has a representation in the body context: it returns True
    positioned on the last such element, with its shape created under the
    iterator's settings, and keeps the elements before it; when no element
    is left with a representation it returns False with an empty list and
    the element and shape it had. *)
Theorem IteratorForTypes_next_pops_from_the_end t f :
  (∀ before element after representation,
     ift_elements t = before ++ element :: after →
     get_representation f element (ByContext (ift_context t)) = Some representation →
     (∀ e, e ∈ after →
           get_representation f e (ByContext (ift_context t)) = None) →
     IteratorForTypes_next t f
     = Ok ((true, {| ift_settings := ift_settings t;
                     ift_elements := before;
                     ift_element := Some element;
                     ift_shape :=
                       Some (create_shape (ift_settings t) f representation);
                     ift_context := ift_context t |}), f))
  ∧ ((∀ e, e ∈ ift_elements t →
           get_representation f e (ByContext (ift_context t)) = None) →
     IteratorForTypes_next t f
     = Ok ((false, {| ift_settings := ift_settings t;
                      ift_elements := [];
                      ift_element := ift_element t;
                      ift_shape := ift_shape t;
                      ift_context := ift_context t |}), f)).
Proof.
  split.
  - intros before element after representation Helements Hsome Hnone.
    unfold IteratorForTypes_next. rewrite Helements.
    destruct (before ++ element :: after) eqn:Hlist; [by destruct before |].
    rewrite <- Hlist. clear Hlist.
    rewrite reverse_app, reverse_cons, <- app_assoc.
    rewrite next_from_skips
      by (intros e He; apply Hnone; by apply elem_of_reverse).
    cbn [app next_from]. rewrite bind_run.
    rewrite (process_shape_some _ _ _ representation) by done.
    cbn. by rewrite reverse_involutive.
  - intros Hnone. unfold IteratorForTypes_next.
    destruct (ift_elements t) as [|e l] eqn:Helements.
    + destruct t. cbn in Helements. by subst.
    + rewrite <- Helements in *. clear Helements.
      rewrite <- (app_nil_r (reverse (ift_elements t))).
      rewrite next_from_skips
        by (intros e' He'; apply Hnone; by apply elem_of_reverse).
      done.
Qed.

(** *** [quantify] without a matching element *)

Lemma foldM_noop {A B} (g : A → B → M file A) (l : list B) (a : A) f :
  (∀ a b, b ∈ l → g a b f = Ok (a, f)) → foldM g a l f = Ok (a, f).
Proof.
  intros Hg. induction l as [|b l IH]; [done |].
  cbn [foldM]. rewrite bind_run, Hg by left. apply IH.
  intros a' b' Hin. apply Hg. by right.
Qed.

(** X1: When no input element has a class that the rules name, directly or as
    an applicable type, [quantify] calls no calculator and returns empty
    results; this is so for an empty set of elements. *)
Theorem quantify_without_matching_elements els rules f :
  (∀ group queries, (group, queries) ∈ rules_calculators rules →
     group = "IfcOpenShell" ∨ group = "Blender") →
  (∀ group queries ifc_class qtos e,
     (group, queries) ∈ rules_calculators rules → (ifc_class, qtos) ∈ queries →
     e ∈ els →
     is_a f e ≠ ifc_class ∧ is_a f e ∉ get_applicable_types ifc_class (schema f)) →
  quantify els rules f = Ok (∅, f).
Proof.
  intros Hgroups Hnone. unfold quantify, quantify_with.
  rewrite bind_run, group_by_class_run.
  generalize (∅ : ResultsDict). intros results.
  apply foldM_noop. intros results' [group queries] Hgroup.
  assert (∃ calculator_, calculators !! group = Some calculator_) as [calculator_ Hc].
  { destruct (Hgroups group queries) as [-> | ->]; [done | |]; by eexists. }
  rewrite bind_run, Hc. cbn [from_option]. unfold ret at 1. cbv beta iota.
  apply foldM_noop. intros results'' [ifc_class qtos] Hquery.
  rewrite bind_run. unfold read at 1. cbv beta iota zeta.
  rewrite filter_elements_grouped. rewrite decide_True; [done |].
  apply set_eq. intros e. rewrite elem_of_filter. split; [| set_solver].
  intros [Hclass He].
  destruct (Hnone group queries ifc_class qtos e) as [H1 H2]; [done.. |]. tauto.
Qed.

(** *** [get_segment_length] *)

Lemma max_float_is_an_item x xs : max_float x xs ∈ x :: xs.
Proof.
  unfold max_float. revert x. induction xs as [|y ys IH]; intros x; [left |].
  cbn [foldl]. destruct (PrimFloat.ltb x y).
  - right. apply IH.
  - specialize (IH x). apply elem_of_cons in IH as [-> | IH]; [left |].
    right. by right.
Qed.

Ltac run_reads :=
  repeat (rewrite bind_run; unfold read at 1; cbv beta iota).

(** X21: [get_segment_length] never fails and gives, case by case: None
    for an element without body representation, for a representation
    whose items are not exactly one, and for an item that is no extruded
    area solid; for an extruded rectangle profile the maximum, as Python's
    [max] takes it, of XDim, YDim and Depth, which is one of the three; for
    an extruded circle or other parameterized profile the Depth; and None
    for any other extruded profile. *)
Theorem get_segment_length_cases element f :
  (get_representation f element (ByIdentifier "Model" "Body" "MODEL_VIEW") = None →
   get_segment_length element f = Ok (None, f))
  ∧ (∀ rep,
       get_representation f element (ByIdentifier "Model" "Body" "MODEL_VIEW")
       = Some rep →
       (length (rep_items f rep) ≠ 1 →
        get_segment_length element f = Ok (None, f))
       ∧ ∀ item,
           rep_items f rep = [item] →
           (is_a_kind f item "IfcExtrudedAreaSolid" = false →
            get_segment_length element f = Ok (None, f))
           ∧ (is_a_kind f item "IfcExtrudedAreaSolid" = true →
              (is_a_kind f (swept_area f item) "IfcRectangleProfileDef" = true →
               get_segment_length element f
               = Ok (Some (max_float (x_dim f (swept_area f item))
                                     [y_dim f (swept_area f item); depth f item]),
                     f))
              ∧ (is_a_kind f (swept_area f item) "IfcRectangleProfileDef" = false →
                 is_a_kind f (swept_area f item) "IfcCircleProfileDef" = true
                 ∨ is_a_kind f (swept_area f item) "IfcParameterizedProfileDef"
                   = true →
                 get_segment_length element f = Ok (Some (depth f item), f))
              ∧ (is_a_kind f (swept_area f item) "IfcRectangleProfileDef" = false →
                 is_a_kind f (swept_area f item) "IfcCircleProfileDef" = false →
                 is_a_kind f (swept_area f item) "IfcParameterizedProfileDef"
                 = false →
                 get_segment_length element f = Ok (None, f))))
  ∧ (∀ x y z, max_float x [y; z] ∈ [x; y; z]).
Proof.
  split_and!.
  - intros Hrep. unfold get_segment_length. run_reads. by rewrite Hrep.
  - intros rep Hrep. split.
    + intros Hitems. unfold get_segment_length. run_reads. rewrite Hrep.
      run_reads. by destruct (rep_items f rep) as [|item [|item' items]].
    + intros item Hitems. split_and!.
      * intros Hsolid. unfold get_segment_length. run_reads. rewrite Hrep.
        run_reads. rewrite Hitems. run_reads. by rewrite Hsolid.
      * intros Hsolid. split_and!.
        -- intros Hrect. unfold get_segment_length. run_reads. rewrite Hrep.
           run_reads. rewrite Hitems. run_reads. rewrite Hsolid.
           run_reads. rewrite Hrect. by run_reads.
        -- intros Hrect Hround. unfold get_segment_length. run_reads. rewrite Hrep.
           run_reads. rewrite Hitems. run_reads. rewrite Hsolid.
           run_reads. rewrite Hrect. run_reads.
           destruct (is_a_kind f (swept_area f item) "IfcCircleProfileDef");
             [by run_reads |].
           run_reads. destruct Hround as [?| ->]; [done |]. by run_reads.
        -- intros Hrect Hcircle Hparam. unfold get_segment_length. run_reads.
           rewrite Hrep. run_reads. rewrite Hitems. run_reads. rewrite Hsolid.
           run_reads. rewrite Hrect. run_reads. rewrite Hcircle. run_reads.
           by rewrite Hparam.
  - intros x y z. apply max_float_is_an_item.
Qed.

End WithToolkit.

(** *** The table of formulas offered to the user *)

(** X12: [IfcOpenShell.functions] holds every raw function once under gross_
    and once under net_, with the same measure, and nothing else: each of
    its keys takes part in the classification of [calculate], and the name
    after the first underscore is a key of [raw_functions]. *)
Theorem functions_are_prefixed_raw_functions :
  (∀ k func,
     raw_functions !! k = Some func →
     IfcOpenShell_functions !! ("gross_" +:+ k)
     = Some (mkFunction (measure func) ("Gross " +:+ name func) (description func))
     ∧ IfcOpenShell_functions !! ("net_" +:+ k)
       = Some (mkFunction (measure func) ("Net " +:+ name func) (description func)))
  ∧ (∀ formula func,
       IfcOpenShell_functions !! formula = Some func →
       filed_formula (Some formula) = true
       ∧ ∃ raw, raw_functions !! partition_tail "_" formula = Some raw
                ∧ measure raw = measure func).
Proof.
  split.
  - intros k func Hk. unfold raw_functions in Hk.
    apply elem_of_list_to_map_2 in Hk. unfold raw_function_items in Hk.
    repeat (apply elem_of_cons in Hk as [[= -> ->]|Hk]; [by vm_compute |]).
    by apply elem_of_nil in Hk.
  - assert (map_Forall
              (λ formula func,
                 filed_formula (Some formula) = true
                 ∧ (measure <$> raw_functions !! partition_tail "_" formula)
                   = Some (measure func))
              IfcOpenShell_functions) as Hall by compute_done.
    intros formula func Hf. destruct (Hall formula func Hf) as [Hfiled Hraw].
    split; [done |].
    destruct (raw_functions !! partition_tail "_" formula) as [raw|]; [| done].
    exists raw. split; [done |]. by injection Hraw.
Qed.

(** *** The rule files that are missing or do not parse *)

Section RuleTable.
Variable json_load : string → option Rules.

(** X22: importing the module fails in two ways only: with
    FileNotFoundError for the path of a rule file that the module directory
    lacks, or with the error of [json.load] on a rule file that does not
    parse; the first rule set is read first. *)
Theorem load_rules_errors cwd fs e :
  load_rules json_load cwd fs = Raise e →
  e = JSONDecodeError
  ∨ ∃ name_, name_ ∈ RULE_SET
      ∧ fs (path_join cwd (name_ +:+ ".json")) = None
      ∧ e = FileNotFoundError (path_join cwd (name_ +:+ ".json"))
      ∧ (name_ = "IFC4QtoBaseQuantitiesBlender" →
         is_Some (fs (path_join cwd "IFC4QtoBaseQuantities.json"))).
Proof.
  unfold load_rules, RULE_SET. cbn [foldM]. cbv zeta.
  rewrite bind_run, bind_run. unfold read at 1. cbv beta iota.
  destruct (fs (path_join cwd ("IFC4QtoBaseQuantities" +:+ ".json")))
    as [text1|] eqn:Hfile1.
  2: { rewrite bind_run. cbn [from_option]. intros [= <-]. right.
       exists "IFC4QtoBaseQuantities". split_and!; [left | done | done | done]. }
  rewrite bind_run. cbn [from_option]. unfold ret at 1. cbv beta iota.
  rewrite bind_run.
  destruct (json_load text1) as [parsed1|];
    [| cbn [from_option]; intros [= <-]; by left].
  cbn [from_option]. unfold ret at 1. cbv beta iota. rewrite ret_run.
  rewrite bind_run, bind_run. unfold read at 1. cbv beta iota.
  destruct (fs (path_join cwd ("IFC4QtoBaseQuantitiesBlender" +:+ ".json")))
    as [text2|] eqn:Hfile2.
  2: { rewrite bind_run. cbn [from_option]. intros [= <-]. right.
       exists "IFC4QtoBaseQuantitiesBlender".
       split_and!; [right; left | done | done |]. intros _.
       change ("IFC4QtoBaseQuantities" +:+ ".json")
         with "IFC4QtoBaseQuantities.json" in Hfile1.
       by rewrite Hfile1. }
  rewrite bind_run. cbn [from_option]. unfold ret at 1. cbv beta iota.
  rewrite bind_run.
  destruct (json_load text2) as [parsed2|];
    [| cbn [from_option]; intros [= <-]; by left].
  cbn [from_option]. unfold ret at 1. cbv beta iota. by rewrite ret_run.
Qed.

End RuleTable.

End QtoMoreFacts.

(** ** ifcopenshell/alignment.py: the other functions *)

Module AlignmentMoreFacts.
Import Alignment.

(** *** The transposed matrix *)

Lemma transpose_length (m : list (list float)) c :
  Forall (λ row, length row = c) m → m ≠ [] → length (transpose m) = c.
Proof.
  induction m as [|row rows IH]; [done |]. intros Hrect _.
  apply Forall_cons in Hrect as [Hrow Hrows].
  destruct rows as [|row' rows'].
  - cbn [transpose]. by rewrite length_fmap.
  - change (transpose (row :: row' :: rows'))
      with (zip_with cons row (transpose (row' :: rows'))).
    rewrite length_zip_with, IH by done. lia.
Qed.

Lemma transpose_item (m : list (list float)) c i j :
  Forall (λ row, length row = c) m →
  item_at (transpose m) i j = item_at m j i.
Proof.
  unfold item_at. revert j. induction m as [|row rows IH]; intros j Hrect.
  - done.
  - apply Forall_cons in Hrect as [Hrow Hrows].
    destruct rows as [|row' rows'].
    + cbn [transpose]. rewrite list_lookup_fmap.
      destruct j as [|j]; cbn [lookup list_lookup].
      * simpl. by destruct (row !! i).
      * simpl. destruct (row !! i) as [x|]; [| done]. simpl. by destruct j.
    + change (transpose (row :: row' :: rows'))
        with (zip_with cons row (transpose (row' :: rows'))).
      rewrite lookup_zip_with.
      assert (length (transpose (row' :: rows')) = c) as Hlen
        by (by apply transpose_length).
      destruct (row !! i) as [x|] eqn:Hx; cbn [mbind option_bind].
      * destruct (transpose (row' :: rows') !! i) as [col|] eqn:Hcol.
        -- cbn [mbind option_bind]. destruct j as [|j]; [done |].
           change ((x :: col) !! S j) with (col !! j).
           change ((row :: row' :: rows') !! S j) with ((row' :: rows') !! j).
           exact (IH j Hrows).
        -- apply lookup_ge_None in Hcol. apply lookup_lt_Some in Hx. lia.
      * destruct j as [|j]; [cbn; by rewrite Hx |].
        change ((row :: row' :: rows') !! S j) with ((row' :: rows') !! j).
        destruct ((row' :: rows') !! j) as [r|] eqn:Hr; [| done].
        cbn [mbind option_bind]. symmetry. apply lookup_ge_None.
        apply lookup_ge_None in Hx.
        rewrite Forall_forall in Hrows.
        rewrite (Hrows r) by (by eapply list_elem_of_lookup_2). lia.
Qed.


Section WithKernel.
Context `{Kernel}.

Lemma evaluate_representation_run shape_rep dist_along :
  (is_representation_curve shape_rep
   ∧ evaluate_representation shape_rep dist_along
     = Ok (transpose (evaluate (map_shape ∅ shape_rep) ∅ dist_along)))
  ∨ (¬ is_representation_curve shape_rep
     ∧ evaluate_representation shape_rep dist_along = Raise NotImplementedError).
Proof.
  unfold evaluate_representation, is_representation_curve.
  case_bool_decide; [by left | by right].
Qed.

(** X15: [evaluate_representation] accepts a composite curve, a gradient curve
    and a segmented reference curve, whatever the case of the class name,
    and raises NotImplementedError for every other entity; unlike
    [evaluate_segment] it checks no bound on [dist_along] and never raises
    ValueError. *)
Theorem evaluate_representation_has_no_bound_check shape_rep :
  (is_representation_curve shape_rep →
   ∀ dist_along,
     evaluate_representation shape_rep dist_along
     = Ok (transpose (evaluate (map_shape ∅ shape_rep) ∅ dist_along)))
  ∧ (¬ is_representation_curve shape_rep →
     ∀ dist_along,
       evaluate_representation shape_rep dist_along = Raise NotImplementedError)
  ∧ (∀ dist_along, evaluate_representation shape_rep dist_along ≠ Raise ValueError)
  ∧ (is_a shape_rep ∈ ["IfcCompositeCurve"; "IfcGradientCurve";
                       "IfcSegmentedReferenceCurve"] →
     is_representation_curve shape_rep).
Proof.
  split_and!.
  - intros Hrep d.
    by destruct (evaluate_representation_run shape_rep d) as [[_ ->]|[? _]].
  - intros Hrep d.
    by destruct (evaluate_representation_run shape_rep d) as [[? _]|[_ ->]].
  - intros d.
    by destruct (evaluate_representation_run shape_rep d) as [[_ ->]|[_ ->]].
  - unfold is_representation_curve. intros Hin.
    repeat (apply elem_of_cons in Hin as [-> | Hin]; [vm_compute; set_solver |]).
    by apply elem_of_nil in Hin.
Qed.

(** X16: No entity is accepted by both evaluators: whatever the distances, one
    of [evaluate_segment] and [evaluate_representation] raises
    NotImplementedError. *)
Theorem segment_and_representation_evaluators_are_disjoint entity d1 d2 :
  evaluate_segment entity d1 = Raise NotImplementedError
  ∨ evaluate_representation entity d2 = Raise NotImplementedError.
Proof.
  destruct (evaluate_representation_run entity d2) as [[Hrep _]|[_ ->]];
    [| by right]. left.
  unfold is_representation_curve in Hrep. unfold evaluate_segment.
  rewrite bool_decide_false; [done |].
  intros Hseg. apply list_elem_of_singleton in Hseg. rewrite Hseg in Hrep.
  repeat (apply elem_of_cons in Hrep as [Hrep | Hrep]; [discriminate Hrep |]).
  by apply elem_of_nil in Hrep.
Qed.

(** X17: Both evaluators return the kernel's matrix with rows and columns
    exchanged: the item in row [i] and column [j] of the result is the item
    in row [j] and column [i] of what the kernel's evaluator returned. *)
Theorem evaluators_return_transposed_items entity dist_along c m :
  Forall (λ row, length row = c)
         (evaluate (map_shape ∅ entity) ∅ dist_along) →
  evaluate_segment entity dist_along = Ok m
  ∨ evaluate_representation entity dist_along = Ok m →
  ∀ i j, item_at m i j
         = item_at (evaluate (map_shape ∅ entity) ∅ dist_along) j i.
Proof.
  intros Hrect Hrun i j.
  assert (m = transpose (evaluate (map_shape ∅ entity) ∅ dist_along)) as ->.
  { destruct Hrun as [Hrun | Hrun].
    - unfold evaluate_segment in Hrun.
      destruct (negb _); [done |]. destruct (PrimFloat.ltb _ _); [done |].
      by injection Hrun as <-.
    - destruct (evaluate_representation_run entity dist_along)
        as [[_ Heq]|[_ Heq]]; rewrite Heq in Hrun; [| done].
      by injection Hrun as <-. }
  by eapply transpose_item.
Qed.

End WithKernel.

(** *** [generate_vertices] *)

Lemma reshape3_rows vertices rows :
  reshape3 vertices = Ok rows →
  Forall (λ row, length row = 3) rows ∧ concat rows = vertices.
Proof.
  remember (length vertices) as n eqn:Hn.
  revert vertices rows Hn. induction (lt_wf n) as [n _ IH].
  intros vertices rows Hn Hrun.
  destruct vertices as [|x [|y [|z rest]]]; cbn [reshape3] in Hrun; try done.
  - injection Hrun as <-. by split.
  - destruct (reshape3 rest) as [rows'|] eqn:Hrest; [| done].
    injection Hrun as <-.
    destruct (IH (length rest)) with (vertices := rest) (rows := rows')
      as [Hall Hcat]; [subst n; cbn [length]; lia | done | done |].
    split; [by constructor |]. cbn [concat]. by rewrite Hcat.
Qed.

Lemma reshape3_concat rows :
  Forall (λ row : list float, length row = 3) rows →
  reshape3 (concat rows) = Ok rows.
Proof.
  induction 1 as [|row rows Hrow _ IH]; [done |].
  destruct row as [|x [|y [|z [|]]]]; try done.
  cbn [concat app reshape3]. by rewrite IH.
Qed.

Lemma reshape3_raises vertices e : reshape3 vertices = Raise e → e = ValueError.
Proof.
  remember (length vertices) as n eqn:Hn.
  revert vertices Hn. induction (lt_wf n) as [n _ IH].
  intros vertices Hn Hrun.
  destruct vertices as [|x [|y [|z rest]]]; cbn [reshape3] in Hrun;
    try done; try (by injection Hrun).
  destruct (reshape3 rest) as [rows'|e'] eqn:Hrest; [done |].
  injection Hrun as <-.
  apply (IH (length rest)) with (vertices := rest);
    [subst n; cbn [length]; lia | done | done].
Qed.

Section WithShapes.
Context `{Shapes}.

(** X18: [generate_vertices] returns exactly when a curve is given,
    [create_shape], called with PIECEWISE_STEP_PARAM set to the distance
    interval, returns a shape for it, and the coordinates of the shape are
    a positive multiple of three in number; the result is then these
    coordinates three by three, in order.  It raises AttributeError exactly
    when a curve is given and [create_shape] returns None for it; every
    other failure is a ValueError: no curve, no coordinates, or a number
    of coordinates that is no multiple of three. *)
Theorem generate_vertices_rows_of_three rep_curve distance_interval :
  (∀ rows,
     generate_vertices rep_curve distance_interval = Ok rows ↔
     ∃ curve, rep_curve = Some curve
       ∧ rows ≠ []
       ∧ Forall (λ row, length row = 3) rows
       ∧ create_shape_verts (<["PIECEWISE_STEP_PARAM" := distance_interval]> ∅)
                            curve
         = Some (concat rows))
  ∧ (generate_vertices rep_curve distance_interval = Raise (AttributeError "verts")
     ↔ ∃ curve, rep_curve = Some curve
         ∧ create_shape_verts (<["PIECEWISE_STEP_PARAM" := distance_interval]> ∅)
                              curve
           = None)
  ∧ (generate_vertices rep_curve distance_interval = Raise ValueError
     ↔ rep_curve = None
       ∨ ∃ curve vertices, rep_curve = Some curve
           ∧ create_shape_verts (<["PIECEWISE_STEP_PARAM" := distance_interval]> ∅)
                                curve
             = Some vertices
           ∧ (vertices = [] ∨ reshape3 vertices = Raise ValueError))
  ∧ (∀ e, generate_vertices rep_curve distance_interval = Raise e →
       e = ValueError ∨ e = AttributeError "verts").
Proof.
  unfold generate_vertices. split_and!.
  - intros rows. split.
    + destruct rep_curve as [curve|]; [| done].
      destruct (create_shape_verts _ curve) as [vertices|] eqn:Hshape; [| done].
      destruct (length vertices =? 0) eqn:Hlen; [done |].
      intros Hrun. apply reshape3_rows in Hrun as Hrows. destruct Hrows as [Hall Hcat].
      exists curve. split_and!; [done | | done | by rewrite Hshape, Hcat].
      intros ->. cbn [concat] in Hcat. rewrite <- Hcat in Hlen. done.
    + intros (curve & -> & Hne & Hall & ->).
      destruct rows as [|row rows]; [done |].
      apply Forall_cons in Hall as Hrow. destruct Hrow as [Hrow _].
      destruct row as [|x row]; [done |].
      cbn [concat app length Nat.eqb].
      by apply (reshape3_concat ((x :: row) :: rows)).
  - split.
    + destruct rep_curve as [curve|]; [| done].
      destruct (create_shape_verts _ curve) as [vertices|] eqn:Hshape; [| by eauto].
      destruct (length vertices =? 0); [done |].
      intros Hrun. by apply reshape3_raises in Hrun.
    + by intros (curve & -> & ->).
  - split.
    + destruct rep_curve as [curve|]; [| by left].
      destruct (create_shape_verts _ curve) as [vertices|] eqn:Hshape; [| done].
      intros Hrun. right. exists curve, vertices. split_and!; [done | done |].
      destruct vertices as [|x vertices]; [by left | by right].
    + intros [->|(curve & vertices & -> & -> & [->|Hrun])]; [done | done |].
      by destruct vertices.
  - intros e. destruct rep_curve as [curve|]; [| intros [= <-]; by left].
    destruct (create_shape_verts _ curve) as [vertices|]; [| intros [= <-]; by right].
    destruct (length vertices =? 0); [intros [= <-]; by left |].
    intros Hrun. left. by apply reshape3_raises in Hrun.
Qed.

End WithShapes.

(** *** [name_segments] *)

Section WithAttributes.
Context `{Attributes}.

(** The names after the loop from index [i] on has renamed [named]. *)
Lemma name_from_named prefix i named rest names :
  Forall (λ segment, has_Name segment = true) named →
  ∃ names',
    name_from prefix i (named ++ rest) names
    = name_from prefix (i + length named) rest names'
    ∧ (∀ segment, segment ∉ named → names' !! segment = names !! segment)
    ∧ (∀ k segment,
         named !! k = Some segment → segment ∉ drop (S k) named →
         names' !! segment = Some (prefix +:+ pretty (i + k + 1))).
Proof.
  intros Hnamed. revert i names.
  induction Hnamed as [|segment named Hsegment _ IH]; intros i names.
  - exists names. cbn [app length]. rewrite Nat.add_0_r.
    split_and!; [done | done |]. by intros k segment Hk.
  - cbn [app name_from]. rewrite Hsegment.
    destruct (IH (S i) (<[segment := prefix +:+ pretty (i + 1)]> names))
      as (names' & Hrun & Hout & Hin).
    exists names'. split_and!.
    + rewrite Hrun. cbn [length]. f_equal. lia.
    + intros s Hs. apply not_elem_of_cons in Hs as [Hne Hs].
      rewrite (Hout s Hs). by rewrite lookup_insert_ne.
    + intros [|k] s Hk Hlast; cbn in Hk, Hlast.
      * injection Hk as ->. rewrite drop_0 in Hlast.
        rewrite (Hout s Hlast), lookup_insert_eq. do 3 f_equal. lia.
      * rewrite (Hin k s Hk Hlast). do 3 f_equal. lia.
Qed.

(** The entities of a list split into those before the first one without
    a Name attribute, and the rest. *)
Lemma named_split (segments : list entity_instance) :
  ∃ named rest,
    segments = named ++ rest
    ∧ Forall (λ segment, has_Name segment = true) named
    ∧ (∀ segment, head rest = Some segment → has_Name segment = false).
Proof.
  induction segments as [|segment segments (named & rest & -> & Hnamed & Hrest)].
  - exists [], []. by split_and!.
  - destruct (has_Name segment) eqn:Hsegment.
    + exists (segment :: named), rest. split_and!; [done | by constructor | done].
    + exists [], (segment :: named ++ rest). split_and!; [done | done |].
      by intros ? [= <-].
Qed.

(** X19: [name_segments] renames the segments in order, up to the first
    one whose class has no Name attribute: it returns when there is none,
    and raises AttributeError at that segment otherwise, leaving the names
    assigned before in place.  A renamed segment at index [i] (from 0) gets
    the name of the prefix followed by [i + 1] in decimal, the last index
    counting for a segment renamed more than once, and the Name of every
    other entity is left as it was. *)
Theorem name_segments_numbers_from_one prefix segments names :
  ∃ named rest names',
    segments = named ++ rest
    ∧ Forall (λ segment, has_Name segment = true) named
    ∧ (∀ segment, head rest = Some segment → has_Name segment = false)
    ∧ name_segments prefix segments names
      = (match rest with
         | [] => Ok ()
         | _ => Raise (AttributeError "Name")
         end, names')
    ∧ (∀ segment, segment ∉ named → names' !! segment = names !! segment)
    ∧ (∀ i segment,
         named !! i = Some segment → segment ∉ drop (S i) named →
         names' !! segment = Some (prefix +:+ pretty (i + 1))).
Proof.
  destruct (named_split segments) as (named & rest & -> & Hnamed & Hrest).
  destruct (name_from_named prefix 0 named rest names Hnamed)
    as (names' & Hrun & Hout & Hin).
  exists named, rest, names'. split_and!; [done | done | done | | done | done].
  unfold name_segments. rewrite Hrun.
  destruct rest as [|segment rest]; [done |].
  cbn [name_from]. by rewrite (Hrest segment).
Qed.

Lemma name_segments_ok prefix segments names names' :
  name_segments prefix segments names = (Ok (), names') →
  ∀ i segment,
    segments !! i = Some segment → segment ∉ drop (S i) segments →
    names' !! segment = Some (prefix +:+ pretty (i + 1)).
Proof.
  intros Hrun.
  destruct (named_split segments) as (named & rest & -> & Hnamed & Hrest).
  destruct (name_from_named prefix 0 named rest names Hnamed)
    as (names1 & Hrun1 & _ & Hin).
  unfold name_segments in Hrun. rewrite Hrun1 in Hrun.
  destruct rest as [|segment rest].
  - injection Hrun as <-. rewrite app_nil_r. exact Hin.
  - cbn [name_from] in Hrun. by rewrite (Hrest segment) in Hrun.
Qed.

(** X20: The segments of a list without repetition get pairwise distinct
    names. *)
Theorem name_segments_names_are_distinct prefix segments names names' i j s1 s2 :
  NoDup segments →
  name_segments prefix segments names = (Ok (), names') →
  segments !! i = Some s1 → segments !! j = Some s2 → i ≠ j →
  is_Some (names' !! s1) ∧ is_Some (names' !! s2) ∧ names' !! s1 ≠ names' !! s2.
Proof.
  intros Hnd Hrun Hi Hj Hij.
  pose proof (name_segments_ok prefix segments names names' Hrun) as Hin.
  assert (∀ k s, segments !! k = Some s → s ∉ drop (S k) segments) as Hlast.
  { intros k s Hk Hdrop. apply list_elem_of_lookup in Hdrop as [k' Hk'].
    rewrite lookup_drop in Hk'.
    pose proof (NoDup_lookup _ _ _ _ Hnd Hk Hk'). lia. }
  rewrite (Hin i s1), (Hin j s2) by auto.
  split_and!; [done | done |].
  intros [= Heq]. apply (inj (String.append prefix)) in Heq.
  apply (inj pretty) in Heq. lia.
Qed.

End WithAttributes.

End AlignmentMoreFacts.

(** ** The further properties on the concrete toolkit *)

Module MoreExamples.
Import Qto QtoFacts QtoMoreFacts Demo QtoExamples.

Lemma demo_classify_ok : is_ok (classify_formulas wall_qtos the_file) = true.
Proof. vm_compute. reflexivity. Qed.

Lemma take_off_of_mixed_elements_fails_witness :
  IfcOpenShell_calculate {[1%positive; 2%positive]} wall_qtos ∅ the_file
  = Raise ValueError
  ∧ ∃ err, quantify all_elements wall_rules the_file = Raise err.
Proof.
  destruct (take_off_of_mixed_elements_fails
              {[1%positive; 2%positive]} wall_qtos the_file
              (demo_type_products_are_no_products the_file))
    as (_ & Hcalculate & Hquantify).
  - exists "Qto_WallBaseQuantities",
      [("Length", Some "gross_get_x"); ("NetVolume", Some "net_get_volume");
       ("Width", None)], "Length", "gross_get_x".
    split_and!; [left | left | reflexivity].
  - exists 2%positive. split; [| reflexivity].
    apply elem_of_union. right. by apply elem_of_singleton.
  - exists 1%positive. split; [| reflexivity].
    apply elem_of_union. left. by apply elem_of_singleton.
  - split.
    + destruct (classify_formulas wall_qtos the_file) as [[t f1]|e] eqn:Hclassify.
      * destruct (classify_formulas_frame _ _ _ _ Hclassify) as [-> _].
        exact (Hcalculate ∅ t eq_refl).
      * pose proof demo_classify_ok as Hok. rewrite Hclassify in Hok.
        discriminate.
    + apply (Hquantify all_elements "IfcWall" []
               [("Blender",
                 [("IfcSlab",
                   [("Qto_SlabBaseQuantities", [("Depth", Some "get_height")])])])]).
      vm_compute. reflexivity.
Defined.

Lemma quantify_dispatches_to_two_calculators_witness :
  quantify products unknown_calculator_rules the_file = Raise (KeyError "Revit")
  ∧ calculate_by_name "Revit" = None
  ∧ quantify products wall_rules the_file
    = quantify_by_two_calculators products wall_rules the_file.
Proof.
  destruct quantify_dispatches_to_two_calculators as (Hquantify & Hlookup & _).
  split_and!.
  - rewrite Hquantify. vm_compute. reflexivity.
  - rewrite <- Hlookup. reflexivity.
  - apply Hquantify.
Defined.

Lemma create_iterators_includes_whole_list_witness :
  create_iterators ∅ [1; 2]%positive the_file = Raise ValueError
  ∧ ∃ g, create_iterators ∅ [1; 3]%positive the_file = Ok ([Geom g], the_file)
         ∧ gi_num_threads g = 4 ∧ gi_include g = [1; 3]%positive.
Proof.
  destruct (create_iterators_includes_whole_list ∅ [1; 2]%positive the_file
              (demo_type_products_are_no_products the_file)) as [_ Hmixed].
  destruct (create_iterators_includes_whole_list ∅ [1; 3]%positive the_file
              (demo_type_products_are_no_products the_file)) as [Hbuilt _].
  split.
  - apply (Hmixed 2%positive 1%positive).
    + right. left.
    + left.
    + reflexivity.
    + reflexivity.
  - eexists. split; [reflexivity |].
    destruct (Hbuilt _ _ eq_refl) as [Hall _].
    destruct (Hall _ (list_elem_of_here _ _)) as (Hthreads & Hinclude & _).
    split; [exact Hthreads | exact Hinclude].
Defined.

Lemma computed_values_are_stored_in_project_units_witness :
  ∃ results,
    IfcOpenShell_calculate {[1%positive]} gross_length_qtos ∅ the_file
    = Ok (results, the_file)
    ∧ get_quantity 1 "Qto_WallBaseQuantities" "Length" results
      = Some (Some 2000%float)
    ∧ computed the_file (<["disable-opening-subtractions" := true]> ∅)
               {[1%positive]} gross_length_qtos
               1 "Qto_WallBaseQuantities" "Length" (Some 2000%float)
    ∧ in_project_unit the_file "IfcLengthMeasure" 2%float = 2000%float.
Proof.
  pose proof demo_length_value as Hvalue. unfold quantity_after in Hvalue.
  destruct (IfcOpenShell_calculate {[1%positive]} gross_length_qtos ∅ the_file)
    as [[results f']|e] eqn:Hrun; [| discriminate Hvalue].
  destruct (computed_values_are_stored_in_project_units _ _ _ _ _ _ Hrun)
    as (_ & Hsound & _ & Hunit).
  exists results. split_and!.
  - by destruct (IfcOpenShell_calculate_frame _ _ _ _ _ _ Hrun) as [-> _].
  - exact Hvalue.
  - destruct (Hsound _ _ _ _ Hvalue) as [Hbefore|Hcomputed];
      [discriminate Hbefore | exact Hcomputed].
  - rewrite (Hunit "IfcLengthMeasure" "LENGTHUNIT" "METRE").
    + reflexivity.
    + right. left.
Defined.

Lemma converter_never_raises_witness :
  ∃ converter,
    SI2ProjectUnitConverter_init the_file = Ok (converter, the_file)
    ∧ convert converter 2%float "IfcLengthMeasure" = Ok 2000%float
    ∧ convert converter 2%float "IfcAreaMeasure" = Ok 2%float
    ∧ convert converter 2%float "IfcPowerMeasure" = Ok 2%float.
Proof.
  destruct (converter_never_raises the_file) as (converter & Hinit & Hconvert).
  exists converter. split; [exact Hinit |].
  destruct (Hconvert 2%float "IfcLengthMeasure") as (_ & _ & Hlength).
  destruct (Hconvert 2%float "IfcAreaMeasure") as (_ & _ & Harea).
  destruct (Hconvert 2%float "IfcPowerMeasure") as (_ & Hpower & _).
  split_and!.
  - apply (Hlength "LENGTHUNIT" "METRE"). right. left.
  - apply (Harea "AREAUNIT" "SQUARE_METRE"). left.
  - apply Hpower. vm_compute. set_solver.
Defined.

Lemma create_iterators_needs_body_context_witness :
  @create_iterators no_context_toolkit ∅ [1; 2]%positive the_file
  = Raise AssertionError
  ∧ @create_iterators no_context_toolkit ∅ [1]%positive the_file
    ≠ Raise AssertionError
  ∧ create_iterators ∅ [1; 2]%positive the_file = Raise ValueError.
Proof.
  destruct (@create_iterators_needs_body_context no_context_toolkit ∅
              [1; 2]%positive the_file) as (Hfails & _).
  destruct (@create_iterators_needs_body_context no_context_toolkit ∅
              [1]%positive the_file) as (Hsucceeds & _).
  destruct (create_iterators_needs_body_context ∅ [1; 2]%positive the_file)
    as (_ & Hrefused & _).
  split_and!.
  - apply Hfails. split; [| reflexivity].
    exists 2%positive. split; [right; left | reflexivity].
  - intros Hrun. apply Hsucceeds in Hrun as [(e & He & Hkind) _].
    apply list_elem_of_singleton in He. subst e. discriminate Hkind.
  - apply Hrefused. split_and!.
    + intros _. by exists 20%positive.
    + exists 1%positive. split; [left | reflexivity].
    + exists 2%positive. split; [right; left | reflexivity].
Defined.

Lemma calculate_skips_unprefixed_formulas_witness :
  IfcOpenShell_calculate all_elements unprefixed_qtos ∅ the_file = Ok (∅, the_file).
Proof.
  apply calculate_skips_unprefixed_formulas.
  intros n quantities q formula Hn Hq.
  apply list_elem_of_singleton in Hn. injection Hn as -> ->.
  repeat (apply elem_of_cons in Hq as [[= -> ->]|Hq]; [reflexivity |]).
  by apply elem_of_nil in Hq.
Defined.

Lemma demo_other_element_ok :
  is_ok (IfcOpenShell_calculate {[1%positive]} gross_length_qtos
           {[3%positive := ∅]} the_file) = true.
Proof. vm_compute. reflexivity. Qed.

Lemma calculators_leave_other_elements_witness :
  ∃ results f',
    IfcOpenShell_calculate {[1%positive]} gross_length_qtos {[3%positive := ∅]}
                           the_file = Ok (results, f')
    ∧ results !! 3%positive = Some ∅.
Proof.
  destruct calculators_leave_other_elements as (Hshell & _).
  destruct (IfcOpenShell_calculate {[1%positive]} gross_length_qtos
              {[3%positive := ∅]} the_file) as [[results f']|e] eqn:Hrun.
  - exists results, f'. split; [reflexivity |].
    rewrite (Hshell demo_include_respected _ _ _ _ _ _ Hrun 3%positive).
    + reflexivity.
    + intros Hin. apply elem_of_singleton in Hin. discriminate Hin.
  - pose proof demo_other_element_ok as Hok. rewrite Hrun in Hok. discriminate.
Defined.

Lemma demo_overwrite_ok :
  is_ok (IfcOpenShell_calculate {[1%positive]} gross_length_qtos
           {[1%positive := {["Qto_WallBaseQuantities" := {["Length" := None]}]}]}
           the_file) = true.
Proof. vm_compute. reflexivity. Qed.

Lemma calculate_keeps_stored_quantities_witness :
  ∃ results f',
    IfcOpenShell_calculate {[1%positive]} gross_length_qtos
      {[1%positive := {["Qto_WallBaseQuantities" := {["Length" := None]}]}]}
      the_file = Ok (results, f')
    ∧ is_Some (get_quantity 1 "Qto_WallBaseQuantities" "Length" results).
Proof.
  destruct (IfcOpenShell_calculate {[1%positive]} gross_length_qtos
              {[1%positive := {["Qto_WallBaseQuantities" := {["Length" := None]}]}]}
              the_file) as [[results f']|e] eqn:Hrun.
  - exists results, f'. split; [reflexivity |].
    destruct (calculate_keeps_stored_quantities _ _ _ _ _ _ Hrun) as [_ Hkeep].
    apply Hkeep. by exists None.
  - pose proof demo_overwrite_ok as Hok. rewrite Hrun in Hok. discriminate.
Defined.

Lemma formula_outside_raw_functions_raises_witness :
  ∃ err, IfcOpenShell_calculate {[1%positive]} bare_segment_qtos ∅ the_file
         = Raise err.
Proof.
  apply (formula_outside_raw_functions_raises
           {[1%positive]} bare_segment_qtos ∅ the_file
           "Qto_PipeSegmentBaseQuantities" [("Length", Some "get_segment_length")]
           "Length" "get_segment_length" 1%positive (1%positive, true)).
  - apply NoDup_singleton.
  - intros n' qs Hin. apply list_elem_of_singleton in Hin. injection Hin as _ ->.
    apply NoDup_singleton.
  - left.
  - left.
  - reflexivity.
  - discriminate.
  - reflexivity.
  - exact demo_wall_shape_yielded.
Defined.

Lemma demo_segment_ok :
  is_ok (IfcOpenShell_calculate {[1%positive]} segment_qtos ∅ the_file) = true.
Proof. vm_compute. reflexivity. Qed.

Lemma segment_length_formula_stores_profile_length_witness :
  ∃ results f',
    IfcOpenShell_calculate {[1%positive]} segment_qtos ∅ the_file = Ok (results, f')
    ∧ has_segment_length the_file "Qto_PipeSegmentBaseQuantities" "Length"
                         1%positive results.
Proof.
  destruct (IfcOpenShell_calculate {[1%positive]} segment_qtos ∅ the_file)
    as [[results f']|e] eqn:Hrun.
  2: { pose proof demo_segment_ok as Hok. rewrite Hrun in Hok. discriminate. }
  exists results, f'. split; [reflexivity |].
  apply (segment_length_formula_stores_profile_length
           {[1%positive]} segment_qtos ∅ the_file results f'
           "Qto_PipeSegmentBaseQuantities"
           [("Length", Some "gross_get_segment_length")] "Length" "gross_" Hrun)
    with (g := (1%positive, true)).
  - apply NoDup_singleton.
  - intros n' qs Hin. apply list_elem_of_singleton in Hin. injection Hin as _ ->.
    apply NoDup_singleton.
  - left.
  - left.
  - by left.
  - exact demo_wall_shape_yielded.
Defined.

Lemma demo_slab_ok :
  is_ok (Blender_calculate {[3%positive]} slab_qtos
           {[3%positive := {["Old" := ∅]}]} the_file) = true.
Proof. vm_compute. reflexivity. Qed.

Lemma Blender_calculate_entries_witness :
  ∃ results f',
    Blender_calculate {[3%positive]} slab_qtos {[3%positive := {["Old" := ∅]}]}
                      the_file = Ok (results, f')
    ∧ (results !! 3%positive = Some {["Old" := ∅]}
       ∨ ∃ element_results,
           results !! 3%positive = Some element_results
           ∧ Blender_entry the_file slab_qtos 3%positive element_results).
Proof.
  destruct (Blender_calculate {[3%positive]} slab_qtos
              {[3%positive := {["Old" := ∅]}]} the_file)
    as [[results f']|e] eqn:Hrun.
  2: { pose proof demo_slab_ok as Hok. rewrite Hrun in Hok. discriminate. }
  exists results, f'. split; [reflexivity |].
  destruct (Blender_calculate_entries _ _ _ _ _ _ Hrun 3%positive)
    as [Hsame|(_ & obj & element_results & Hobj & _ & Hresults & Hentry)].
  - left. rewrite Hsame. reflexivity.
  - right. exists element_results. injection Hobj as <-. by split.
Defined.

Lemma Blender_calculate_stores_calculator_value_witness :
  ∃ results f',
    Blender_calculate {[3%positive]} slab_qtos {[3%positive := {["Old" := ∅]}]}
                      the_file = Ok (results, f')
    ∧ get_quantity 3 "Qto_SlabBaseQuantities" "Depth" results
      = Some (Some 3000%float).
Proof.
  destruct (Blender_calculate {[3%positive]} slab_qtos
              {[3%positive := {["Old" := ∅]}]} the_file)
    as [[results f']|e] eqn:Hrun.
  2: { pose proof demo_slab_ok as Hok. rewrite Hrun in Hok. discriminate. }
  exists results, f'. split; [reflexivity |].
  apply (Blender_calculate_stores_calculator_value
           {[3%positive]} slab_qtos _ the_file results f' 3%positive 3%positive
           "Qto_SlabBaseQuantities" [("Depth", Some "get_height")] "Depth"
           "get_height" (λ _, Some 3%float) 3%float
           (mkFunction "IfcLengthMeasure" "Height" "") Hrun).
  - apply NoDup_singleton.
  - intros n' qs Hin. apply list_elem_of_singleton in Hin. injection Hin as _ ->.
    apply NoDup_singleton.
  - left.
  - left.
  - discriminate.
  - by apply elem_of_singleton.
  - reflexivity.
  - reflexivity.
  - reflexivity.
  - reflexivity.
  - reflexivity.
Defined.

Lemma IteratorForTypes_next_pops_from_the_end_witness :
  IteratorForTypes_next
    {| ift_settings := ∅; ift_elements := [1; 2]%positive; ift_element := None;
       ift_shape := None; ift_context := 20%positive |} the_file
  = Ok ((true,
         {| ift_settings := ∅; ift_elements := [1%positive];
            ift_element := Some 2%positive;
            ift_shape := Some (2%positive, false);
            ift_context := 20%positive |}), the_file).
Proof.
  destruct (IteratorForTypes_next_pops_from_the_end
              {| ift_settings := ∅; ift_elements := [1; 2]%positive;
                 ift_element := None; ift_shape := None;
                 ift_context := 20%positive |} the_file) as [Hfound _].
  apply (Hfound [1%positive] 2%positive [] 2%positive).
  - reflexivity.
  - reflexivity.
  - intros e He. by apply elem_of_nil in He.
Defined.

Lemma quantify_without_matching_elements_witness :
  quantify {[3%positive]} wall_only_rules the_file = Ok (∅, the_file).
Proof.
  apply quantify_without_matching_elements.
  - intros group queries Hin. apply list_elem_of_singleton in Hin.
    injection Hin as -> _. by left.
  - intros group queries ifc_class qtos e Hgroup Hquery He.
    apply list_elem_of_singleton in Hgroup. injection Hgroup as -> ->.
    apply list_elem_of_singleton in Hquery. injection Hquery as -> ->.
    apply elem_of_singleton in He. subst e. split.
    + discriminate.
    + intros Hin. apply list_elem_of_singleton in Hin. discriminate Hin.
Defined.

Lemma functions_are_prefixed_raw_functions_witness :
  IfcOpenShell_functions !! "net_get_volume"
  = Some (mkFunction "IfcVolumeMeasure" "Net Volume"
            "Calculates the volume of a manifold shape")
  ∧ filed_formula (Some "net_get_volume") = true.
Proof.
  destruct functions_are_prefixed_raw_functions as [Hfrom Hinto].
  destruct (Hfrom "get_volume"
              (mkFunction "IfcVolumeMeasure" "Volume"
                 "Calculates the volume of a manifold shape")) as [_ Hnet];
    [reflexivity |].
  split; [exact Hnet |]. exact (proj1 (Hinto _ _ Hnet)).
Defined.

Lemma get_segment_length_cases_witness :
  @get_segment_length pipe_toolkit 1%positive the_file
  = Ok (Some 7%float, the_file).
Proof.
  destruct (@get_segment_length_cases pipe_toolkit 1%positive the_file)
    as (_ & Hrep & _).
  destruct (Hrep 1%positive eq_refl) as [_ Hitem].
  destruct (Hitem 1%positive eq_refl) as [_ Hsolid].
  destruct (Hsolid eq_refl) as [Hrectangle _].
  rewrite (Hrectangle eq_refl). reflexivity.
Defined.

Lemma load_rules_errors_witness :
  load_rules demo_json_load "/site/ifc5d" half_fs
  = Raise (FileNotFoundError "/site/ifc5d/IFC4QtoBaseQuantitiesBlender.json")
  ∧ is_Some (half_fs "/site/ifc5d/IFC4QtoBaseQuantities.json").
Proof.
  assert (load_rules demo_json_load "/site/ifc5d" half_fs
          = Raise (FileNotFoundError "/site/ifc5d/IFC4QtoBaseQuantitiesBlender.json"))
    as Hrun by reflexivity.
  split; [exact Hrun |].
  destruct (load_rules_errors demo_json_load _ _ _ Hrun)
    as [Hjson|(name_ & Hname & Hnone & Herror & Hfirst)]; [discriminate Hjson |].
  apply Hfirst. injection Herror as Hpath.
  repeat (apply elem_of_cons in Hname as [-> | Hname];
          [first [reflexivity | discriminate Hpath] |]).
  by apply elem_of_nil in Hname.
Defined.

End MoreExamples.

Module AlignmentExamples.
Import Alignment AlignmentMoreFacts Demo.

Lemma evaluate_representation_has_no_bound_check_witness :
  @evaluate_representation curve_kernel 5%positive 1000%float
  = Ok [ [1; 0; 0; 1000]; [0; 1; 0; 0]; [0; 0; 1; 0]; [0; 0; 0; 1] ]%float
  ∧ @evaluate_representation curve_kernel 1%positive 4%float
    = Raise NotImplementedError.
Proof.
  destruct (@evaluate_representation_has_no_bound_check curve_kernel 5%positive)
    as (Hcurve & _ & _ & Hname).
  destruct (@evaluate_representation_has_no_bound_check curve_kernel 1%positive)
    as (_ & Hother & _ & _).
  split.
  - rewrite Hcurve; [reflexivity |]. apply Hname. right. left.
  - apply Hother. unfold is_representation_curve. intros Hin.
    repeat (apply elem_of_cons in Hin as [Hin | Hin]; [discriminate Hin |]).
    by apply elem_of_nil in Hin.
Defined.

Lemma evaluators_return_transposed_items_witness :
  item_at [ [1; 0; 0; 4]; [0; 1; 0; 0]; [0; 0; 1; 0]; [0; 0; 0; 1] ]%float 0 3
  = Some 4%float.
Proof.
  rewrite (evaluators_return_transposed_items 1%positive 4%float 4
             [ [1; 0; 0; 4]; [0; 1; 0; 0]; [0; 0; 1; 0]; [0; 0; 0; 1] ]%float).
  - reflexivity.
  - repeat constructor.
  - left. reflexivity.
Defined.

Lemma generate_vertices_rows_of_three_witness :
  generate_vertices (Some 1%positive) 5%float = Ok [ [0; 0; 0]; [5; 0; 0] ]%float
  ∧ generate_vertices (Some 8%positive) 5%float = Raise (AttributeError "verts")
  ∧ generate_vertices (Some 9%positive) 5%float = Raise ValueError
  ∧ generate_vertices None 5%float = Raise ValueError.
Proof.
  destruct (generate_vertices_rows_of_three (Some 1%positive) 5%float)
    as (Hrows & _).
  destruct (generate_vertices_rows_of_three (Some 8%positive) 5%float)
    as (_ & Hshape & _).
  destruct (generate_vertices_rows_of_three (Some 9%positive) 5%float)
    as (_ & _ & Hempty & _).
  destruct (generate_vertices_rows_of_three None 5%float)
    as (_ & _ & Hnone & _).
  split_and!.
  - apply Hrows. exists 1%positive. split_and!.
    + reflexivity.
    + discriminate.
    + repeat constructor.
    + reflexivity.
  - apply Hshape. exists 8%positive. split; reflexivity.
  - apply Hempty. right. exists 9%positive, []. split_and!.
    + reflexivity.
    + reflexivity.
    + by left.
  - apply Hnone. by left.
Defined.

Lemma name_segments_numbers_from_one_witness :
  ∃ names',
    name_segments "H" [5; 7; 5; 6; 4]%positive {[8%positive := "old"]}
    = (Raise (AttributeError "Name"), names')
    ∧ names' !! 7%positive = Some "H2"
    ∧ names' !! 5%positive = Some "H3"
    ∧ names' !! 4%positive = None
    ∧ names' !! 8%positive = Some "old".
Proof.
  destruct (name_segments_numbers_from_one "H" [5; 7; 5; 6; 4]%positive
              {[8%positive := "old"]})
    as (named & rest & names' & Hsplit & Hnamed & Hrest & Hrun & Hout & Hin).
  assert (named = [5; 7; 5]%positive ∧ rest = [6; 4]%positive) as [-> ->].
  { destruct named as [|s1 [|s2 [|s3 [|s4 named]]]]; simplify_eq/=.
    - by specialize (Hrest _ eq_refl).
    - by specialize (Hrest _ eq_refl).
    - by specialize (Hrest _ eq_refl).
    - done.
    - apply Forall_cons in Hnamed as [_ Hnamed].
      apply Forall_cons in Hnamed as [_ Hnamed].
      apply Forall_cons in Hnamed as [_ Hnamed].
      by apply Forall_cons in Hnamed as [Hnamed _]. }
  exists names'. split_and!.
  - exact Hrun.
  - apply (Hin 1 7%positive); [reflexivity |].
    intros Hlast. apply list_elem_of_singleton in Hlast. discriminate Hlast.
  - apply (Hin 2 5%positive); [reflexivity |].
    intros Hlast. by apply elem_of_nil in Hlast.
  - rewrite Hout; [reflexivity |]. intros Hlisted.
    repeat (apply elem_of_cons in Hlisted as [Hlisted | Hlisted];
            [discriminate Hlisted |]).
    by apply elem_of_nil in Hlisted.
  - rewrite Hout; [reflexivity |]. intros Hlisted.
    repeat (apply elem_of_cons in Hlisted as [Hlisted | Hlisted];
            [discriminate Hlisted |]).
    by apply elem_of_nil in Hlisted.
Defined.

Lemma name_segments_names_are_distinct_witness :
  ∃ names',
    name_segments "V" [5; 7]%positive ∅ = (Ok (), names')
    ∧ names' !! 5%positive ≠ names' !! 7%positive.
Proof.
  exists (<[7%positive := "V2"]> (<[5%positive := "V1"]> ∅)).
  assert (name_segments "V" [5; 7]%positive ∅
          = (Ok (), <[7%positive := "V2"]> (<[5%positive := "V1"]> ∅))) as Hrun
    by reflexivity.
  split; [exact Hrun |].
  apply (name_segments_names_are_distinct "V" [5; 7]%positive ∅ _ 0 1
           5%positive 7%positive).
  - apply NoDup_cons. split; [| apply NoDup_singleton].
    intros Hin. apply list_elem_of_singleton in Hin. discriminate Hin.
  - exact Hrun.
  - reflexivity.
  - reflexivity.
  - discriminate.
Defined.

End AlignmentExamples.
